(** * physics2: the 2D space of the puzzle-platformer, and its collision engine

    A shallow embedding of [src/physics2.py].

    Python objects are references, and the behaviour of the module hinges
    on that: [Object.speed] and the entity lists of [Space] are class
    attributes, hence one list object shared by every instance that has not
    rebound the attribute.  The embedding therefore keeps a store:

    - [objs]   the [Object] instances (a [pygame.Rect] plus its attributes),
    - [speeds] the two-element list objects that hold velocities,
    - [lists]  the list objects that hold entity references,

    and a [Space] instance is a record of its instance dictionary, where an
    attribute that was never assigned on the instance is [None] and reads
    fall back to the class attribute.

    Methods run in a state-and-exception monad: a raised exception keeps
    the store as it was at the raise, as in Python.

    Numbers.  Rect coordinates are Python ints.  pygame keeps them as C
    ints, and what its conversion makes of a larger int is not modelled:
    a theorem about values that a caller passes into a Rect assumes that
    they are C ints ([c_int], [rect_args_fit]).  Velocities are Python
    ints or floats; they are embedded as exact rationals [Q], so that
    [a / b] is the exact quotient and [round] is round-half-to-even:
    rounding error, infinities and NaN of binary64 are outside the model.
    A theorem that gives, for every velocity and framerate, the integer
    position that a tick computes is for the ticks that binary64 computes
    without rounding error ([exact_tick]); there the exact model and
    binary64 give the same result ([exact_tick_in_binary64]).

    [Space.move_player] takes [math.sqrt] as a parameter.  Logging is left
    out: the calls under [debug], which is [False], and the calls to
    [logging.info] in [move_player]. *)

From Stdlib Require Import ZArith QArith Qround Qabs String Bool Lia Lqa.
From stdpp Require Import base option list.

Open Scope Z_scope.

(** ** Store and values *)

(** References into the store are addresses. *)
Abbreviation loc := nat.

(** [class Object(pygame.Rect)]: the four Rect coordinates, the instance
    attribute [upscale], and the instance attribute [speed] when one was
    assigned ([None]: the lookup falls through to the class attribute). *)
Record Object := mkObject {
  rect_x : Z;
  rect_y : Z;
  rect_w : Z;
  rect_h : Z;
  obj_upscale : Z;
  inst_speed : option loc
}.

(** The virtual attributes of [pygame.Rect] that the module reads and
    assigns.  Assigning an edge moves the rectangle and keeps its size. *)
Module Rect.
Definition left (o : Object) : Z := rect_x o.
Definition top (o : Object) : Z := rect_y o.
Definition right (o : Object) : Z := rect_x o + rect_w o.
Definition bottom (o : Object) : Z := rect_y o + rect_h o.
Definition topleft (o : Object) : Z * Z := (rect_x o, rect_y o).

Definition move_to (nx ny : Z) (o : Object) : Object :=
  mkObject nx ny (rect_w o) (rect_h o) (obj_upscale o) (inst_speed o).

Definition set_left (v : Z) (o : Object) : Object := move_to v (rect_y o) o.
Definition set_right (v : Z) (o : Object) : Object :=
  move_to (v - rect_w o) (rect_y o) o.
Definition set_top (v : Z) (o : Object) : Object := move_to (rect_x o) v o.
Definition set_bottom (v : Z) (o : Object) : Object :=
  move_to (rect_x o) (v - rect_h o) o.
Definition set_topleft (v : Z * Z) (o : Object) : Object :=
  move_to (fst v) (snd v) o.

(** [Rect.__eq__]: equality of the four coordinates (what [in] uses). *)
Definition eqb (a b : Object) : bool :=
  (rect_x a =? rect_x b) && (rect_y a =? rect_y b) &&
  (rect_w a =? rect_w b) && (rect_h a =? rect_h b).

(** [Rect.__bool__]: a rectangle is truthy when its area is not zero. *)
Definition truthy (o : Object) : bool :=
  negb (rect_w o =? 0) && negb (rect_h o =? 0).

(** Position and size, for statements about "the rectangle". *)
Definition geometry (o : Object) : Z * Z * Z * Z :=
  (rect_x o, rect_y o, rect_w o, rect_h o).
End Rect.

Definition set_inst_speed (l : loc) (o : Object) : Object :=
  mkObject (rect_x o) (rect_y o) (rect_w o) (rect_h o) (obj_upscale o) (Some l).

(** The instance dictionary of a [Space]. [w], [h], [gravity] and
    [upscale] are set by [__init__]; every other attribute starts as a
    class attribute and appears here once the instance assigns it. *)
Record Space := mkSpace {
  space_w : Z;
  space_h : Z;
  gravity : Z;
  upscale : Z;
  inst_targets : option loc;
  inst_targets_engaged : option Z;
  inst_players : option loc;
  inst_boxes : option loc;
  inst_platforms : option loc;
  inst_thinkingbox : option (option loc);
  inst_player_on_ground : option bool;
  inst_player_in_thinkingbox : option bool
}.

Record heap := mkHeap {
  objs : list Object;
  speeds : list (Q * Q);
  lists : list (list loc)
}.

Record state := mkState {
  self : Space;
  mem : heap
}.

(** Class attributes.  The list objects created when the module is
    imported sit at fixed addresses of the store. *)
Definition cls_speed : loc := 0%nat.       (* Object.speed = [0, 0] *)
Definition cls_targets : loc := 0%nat.     (* Space.targets = [] *)
Definition cls_players : loc := 1%nat.     (* Space.players = [] *)
Definition cls_boxes : loc := 2%nat.       (* Space.boxes = [] *)
Definition cls_platforms : loc := 3%nat.   (* Space.platforms = [] *)
Definition cls_targets_engaged : Z := 0.
Definition cls_thinkingbox : option loc := None.
Definition cls_player_on_ground : bool := false.
Definition cls_player_in_thinkingbox : bool := false.

(** The store right after [import physics2]. *)
Definition module_loaded : heap :=
  mkHeap [] [(0%Q, 0%Q)] [[]; []; []; []].

(** Attribute lookup on a [Space]: instance dictionary first, class next. *)
Definition targets_ref (sp : Space) : loc := default cls_targets (inst_targets sp).
Definition players_ref (sp : Space) : loc := default cls_players (inst_players sp).
Definition boxes_ref (sp : Space) : loc := default cls_boxes (inst_boxes sp).
Definition platforms_ref (sp : Space) : loc := default cls_platforms (inst_platforms sp).
Definition targets_engaged (sp : Space) : Z :=
  default cls_targets_engaged (inst_targets_engaged sp).
Definition thinkingbox (sp : Space) : option loc :=
  default cls_thinkingbox (inst_thinkingbox sp).
Definition player_on_ground (sp : Space) : bool :=
  default cls_player_on_ground (inst_player_on_ground sp).
Definition player_in_thinkingbox (sp : Space) : bool :=
  default cls_player_in_thinkingbox (inst_player_in_thinkingbox sp).

(** Attribute lookup [obj.speed]: the list object the name resolves to. *)
Definition speed_ref (o : Object) : loc := default cls_speed (inst_speed o).

(** Assignments to instance attributes of a [Space]. *)
Definition with_targets (v : loc) (sp : Space) : Space :=
  mkSpace (space_w sp) (space_h sp) (gravity sp) (upscale sp)
    (Some v) (inst_targets_engaged sp) (inst_players sp) (inst_boxes sp)
    (inst_platforms sp) (inst_thinkingbox sp) (inst_player_on_ground sp)
    (inst_player_in_thinkingbox sp).
Definition with_targets_engaged (v : Z) (sp : Space) : Space :=
  mkSpace (space_w sp) (space_h sp) (gravity sp) (upscale sp)
    (inst_targets sp) (Some v) (inst_players sp) (inst_boxes sp)
    (inst_platforms sp) (inst_thinkingbox sp) (inst_player_on_ground sp)
    (inst_player_in_thinkingbox sp).
Definition with_players (v : loc) (sp : Space) : Space :=
  mkSpace (space_w sp) (space_h sp) (gravity sp) (upscale sp)
    (inst_targets sp) (inst_targets_engaged sp) (Some v) (inst_boxes sp)
    (inst_platforms sp) (inst_thinkingbox sp) (inst_player_on_ground sp)
    (inst_player_in_thinkingbox sp).
Definition with_boxes (v : loc) (sp : Space) : Space :=
  mkSpace (space_w sp) (space_h sp) (gravity sp) (upscale sp)
    (inst_targets sp) (inst_targets_engaged sp) (inst_players sp) (Some v)
    (inst_platforms sp) (inst_thinkingbox sp) (inst_player_on_ground sp)
    (inst_player_in_thinkingbox sp).
Definition with_platforms (v : loc) (sp : Space) : Space :=
  mkSpace (space_w sp) (space_h sp) (gravity sp) (upscale sp)
    (inst_targets sp) (inst_targets_engaged sp) (inst_players sp) (inst_boxes sp)
    (Some v) (inst_thinkingbox sp) (inst_player_on_ground sp)
    (inst_player_in_thinkingbox sp).
Definition with_thinkingbox (v : option loc) (sp : Space) : Space :=
  mkSpace (space_w sp) (space_h sp) (gravity sp) (upscale sp)
    (inst_targets sp) (inst_targets_engaged sp) (inst_players sp) (inst_boxes sp)
    (inst_platforms sp) (Some v) (inst_player_on_ground sp)
    (inst_player_in_thinkingbox sp).
Definition with_player_on_ground (v : bool) (sp : Space) : Space :=
  mkSpace (space_w sp) (space_h sp) (gravity sp) (upscale sp)
    (inst_targets sp) (inst_targets_engaged sp) (inst_players sp) (inst_boxes sp)
    (inst_platforms sp) (inst_thinkingbox sp) (Some v)
    (inst_player_in_thinkingbox sp).
Definition with_player_in_thinkingbox (v : bool) (sp : Space) : Space :=
  mkSpace (space_w sp) (space_h sp) (gravity sp) (upscale sp)
    (inst_targets sp) (inst_targets_engaged sp) (inst_players sp) (inst_boxes sp)
    (inst_platforms sp) (inst_thinkingbox sp) (inst_player_on_ground sp)
    (Some v).

(** ** The monad of methods *)

(** The exceptions the module can raise.  [BadRef] is not a Python
    exception: it marks a reference that the store does not hold, which no
    Python program can build. *)
Inductive exn := TypeError | IndexError | ZeroDivisionError | AttributeError | BadRef.

Inductive outcome (A : Type) :=
| Ok (a : A)
| Raise (e : exn).
Arguments Ok {A} a.
Arguments Raise {A} e.

Definition M (A : Type) : Type := state -> state * outcome A.

Definition ret {A} (a : A) : M A := fun s => (s, Ok a).
Definition raise {A} (e : exn) : M A := fun s => (s, Raise e).
Definition bind {A B} (m : M A) (k : A -> M B) : M B :=
  fun s => match m s with
           | (s', Ok a) => k a s'
           | (s', Raise e) => (s', Raise e)
           end.

Declare Scope py_scope.
Delimit Scope py_scope with py.
Notation "x <- m ;; k" := (bind m (fun x => k))
  (at level 100, m at next level, right associativity) : py_scope.
Notation "m ;; k" := (bind m (fun _ => k))
  (at level 100, right associativity) : py_scope.
Open Scope py_scope.

Definition when (c : bool) (body : M unit) : M unit :=
  if c then body else ret tt.

(** [for x in xs: body] *)
Fixpoint for_each {A} (xs : list A) (body : A -> M unit) : M unit :=
  match xs with
  | [] => ret tt
  | x :: rest => body x ;; for_each rest body
  end.

(** A loop whose body appends to the local list [collisions]: the events
    are returned in the order they were appended. *)
Fixpoint for_collect {A B} (xs : list A) (body : A -> M (list B)) : M (list B) :=
  match xs with
  | [] => ret []
  | x :: rest => here <- body x ;; later <- for_collect rest body ;; ret (here ++ later)
  end.

(** A call [f(a1, ..., an)] of a function defined with [arity] positional
    parameters: Python raises [TypeError] before the body runs when the
    counts differ. *)
Definition py_call {A} (arity nargs : nat) (body : M A) : M A :=
  if Nat.eqb arity nargs then body else raise TypeError.

(** Store access. *)
Definition get_self : M Space := fun s => (s, Ok (self s)).
Definition set_self (f : Space -> Space) : M unit :=
  fun s => (mkState (f (self s)) (mem s), Ok tt).

Definition load_obj (r : loc) : M Object :=
  fun s => match objs (mem s) !! r with
           | Some o => (s, Ok o)
           | None => (s, Raise BadRef)
           end.
Definition update_obj (r : loc) (f : Object -> Object) : M unit :=
  fun s => match objs (mem s) !! r with
           | Some o =>
               (mkState (self s)
                  (mkHeap (<[r := f o]> (objs (mem s))) (speeds (mem s)) (lists (mem s))),
                Ok tt)
           | None => (s, Raise BadRef)
           end.
Definition alloc_obj (o : Object) : M loc :=
  fun s => (mkState (self s)
              (mkHeap (objs (mem s) ++ [o]) (speeds (mem s)) (lists (mem s))),
            Ok (length (objs (mem s)))).

Definition load_speed (l : loc) : M (Q * Q) :=
  fun s => match speeds (mem s) !! l with
           | Some v => (s, Ok v)
           | None => (s, Raise BadRef)
           end.
Definition update_speed (l : loc) (f : Q * Q -> Q * Q) : M unit :=
  fun s => match speeds (mem s) !! l with
           | Some v =>
               (mkState (self s)
                  (mkHeap (objs (mem s)) (<[l := f v]> (speeds (mem s))) (lists (mem s))),
                Ok tt)
           | None => (s, Raise BadRef)
           end.
Definition alloc_speed (v : Q * Q) : M loc :=
  fun s => (mkState (self s)
              (mkHeap (objs (mem s)) (speeds (mem s) ++ [v]) (lists (mem s))),
            Ok (length (speeds (mem s)))).

Definition load_list (l : loc) : M (list loc) :=
  fun s => match lists (mem s) !! l with
           | Some v => (s, Ok v)
           | None => (s, Raise BadRef)
           end.
(** [lst.append(r)] *)
Definition list_append (l : loc) (r : loc) : M unit :=
  fun s => match lists (mem s) !! l with
           | Some v =>
               (mkState (self s)
                  (mkHeap (objs (mem s)) (speeds (mem s)) (<[l := v ++ [r]]> (lists (mem s)))),
                Ok tt)
           | None => (s, Raise BadRef)
           end.
(** The list display [[]]: a new, empty list object. *)
Definition alloc_list : M loc :=
  fun s => (mkState (self s)
              (mkHeap (objs (mem s)) (speeds (mem s)) (lists (mem s) ++ [[]])),
            Ok (length (lists (mem s)))).

(** [lst[i]] on a Python list value. *)
Definition list_getitem {A} (xs : list A) (i : nat) : M A :=
  match xs !! i with
  | Some x => ret x
  | None => raise IndexError
  end.

(** ** Python arithmetic on velocities *)

(** [a / b] (true division). *)
Definition py_truediv (a b : Q) : M Q :=
  if Qeq_bool b 0 then raise ZeroDivisionError else ret (a / b)%Q.

(** [round(v)] with one argument: the nearest integer, ties to even. *)
Definition py_round (q : Q) : Z :=
  let f := Qfloor q in
  match Qcompare (q - inject_Z f) (1 # 2) with
  | Lt => f
  | Gt => f + 1
  | Eq => if Z.even f then f else f + 1
  end.

(** ** Collision events *)

(** [COLLISION_TYPES] *)
Definition box_to_target : Z := 0.
Definition object_to_platform : Z := 1.
Definition player_to_box : Z := 2.
Definition box_to_box : Z := 3.
Definition player_to_player : Z := 4.
Definition object_to_border : Z := 5.

(** The second component of an event: an [Object] or the string ["wall"]. *)
Inductive participant :=
| Ent (r : loc)
| Wall.

(** The tuple [(item1, item2, collision_type)]. *)
Record collision := mkCollision {
  item1 : loc;
  item2 : participant;
  collision_type : Z
}.

(** Reading a Rect attribute of [item2]: a [str] has none. *)
Definition as_object (p : participant) : M loc :=
  match p with
  | Ent r => ret r
  | Wall => raise AttributeError
  end.

Inductive side := Top | Bottom | Right | Left.

Definition side_eqb (a b : side) : bool :=
  match a, b with
  | Top, Top | Bottom, Bottom | Right, Right | Left, Left => true
  | _, _ => false
  end.

(** [side == "..."], where [side] may be [None]. *)
Definition side_is (s : option side) (name : side) : bool :=
  match s with
  | Some s' => side_eqb s' name
  | None => false
  end.

(** ** Attribute reads and writes on entities *)

Definition self_targets : M (list loc) := sp <- get_self ;; load_list (targets_ref sp).
Definition self_players : M (list loc) := sp <- get_self ;; load_list (players_ref sp).
Definition self_boxes : M (list loc) := sp <- get_self ;; load_list (boxes_ref sp).
Definition self_platforms : M (list loc) := sp <- get_self ;; load_list (platforms_ref sp).

(** [[obj for obj in refs]], dereferenced. *)
Definition load_objs (refs : list loc) : M (list Object) :=
  for_collect refs (fun r => o <- load_obj r ;; ret [o]).

(** [item.speed] *)
Definition read_speed (r : loc) : M (Q * Q) :=
  o <- load_obj r ;; load_speed (speed_ref o).

(** [item.speed[0] = f(item.speed[0])] and [item.speed[1] = f(item.speed[1])]:
    the list object that [item.speed] resolves to is changed in place. *)
Definition speed_setitem0 (r : loc) (f : Q -> Q) : M unit :=
  o <- load_obj r ;; update_speed (speed_ref o) (fun v => (f (fst v), snd v)).
Definition speed_setitem1 (r : loc) (f : Q -> Q) : M unit :=
  o <- load_obj r ;; update_speed (speed_ref o) (fun v => (fst v, f (snd v))).

(** [item.speed = [vx, vy]]: a new list object, bound on the instance. *)
Definition assign_speed (r : loc) (v : Q * Q) : M unit :=
  l <- alloc_speed v ;; update_obj r (set_inst_speed l).

(** ** [Space.__init__], [Space.add_object], [Space.reset] *)

Definition Space_init (w h g up : Z) : Space :=
  mkSpace (w * up) (h * up) (g * up) up None None None None None None None None.

(** [Object(x*self.upscale, ...)] hands the four products to [pygame.Rect];
    they are stored as they are when they are C [int]s ([rect_args_fit]
    below), which is the case the embedding covers. *)
Definition add_object (x y w h : Z) (type : string) : M loc :=
  sp <- get_self ;;
  item <- alloc_obj (mkObject (x * upscale sp) (y * upscale sp)
                              (w * upscale sp) (h * upscale sp) (upscale sp) None) ;;
  when (String.eqb type "target") (list_append (targets_ref sp) item) ;;
  when (String.eqb type "player") (list_append (players_ref sp) item) ;;
  when (String.eqb type "box") (list_append (boxes_ref sp) item) ;;
  when (String.eqb type "platform") (list_append (platforms_ref sp) item) ;;
  when (String.eqb type "thinkingbox") (set_self (with_thinkingbox (Some item))) ;;
  ret item.

Definition reset : M unit :=
  l <- alloc_list ;; set_self (with_targets l) ;;
  set_self (with_targets_engaged 0) ;;
  l <- alloc_list ;; set_self (with_players l) ;;
  l <- alloc_list ;; set_self (with_boxes l) ;;
  l <- alloc_list ;; set_self (with_platforms l) ;;
  set_self (with_thinkingbox None) ;;
  set_self (with_player_on_ground false) ;;
  set_self (with_player_in_thinkingbox false).

(** ** [Space.check_collisions] *)

Section Detection.

(** [pygame.Rect.colliderect], the overlap test of the library; the
    detection pass is written over any such test. *)
Variable colliderect : Object -> Object -> bool.

(** [Rect.collidelistall]: the indices of the rectangles that overlap. *)
Definition collidelistall (o : Object) (rects : list Object) : list nat :=
  map fst (filter (fun p => colliderect o (snd p)) (imap (fun i r => (i, r)) rects)).

Definition check_list (item : loc) (rect_list : list loc) (ctype : Z)
  : M (list collision) :=
  o <- load_obj item ;;
  rects <- load_objs rect_list ;;
  for_collect (collidelistall o rects) (fun i =>
    other <- list_getitem rect_list i ;;
    ret [mkCollision item (Ent other) ctype]).

Definition check_borders (item : loc) : M (list collision) :=
  o <- load_obj item ;;
  sp <- get_self ;;
  if (Rect.left o <? 0) || (Rect.right o >? space_w sp)
     || (Rect.top o <? 0) || (Rect.bottom o >? space_h sp)
  then ret [mkCollision item Wall object_to_border]
  else ret [].

Definition check_sametype (itemlist : list loc) (ctype : Z) : M (list collision) :=
  for_collect (imap (fun i r => (i, r)) itemlist) (fun p =>
    let item1_i := fst p in
    let first := snd p in
    for_collect (seq 0 (length itemlist - (item1_i + 1))) (fun k =>
      let item2_i := (k + (item1_i + 1))%nat in
      second <- list_getitem itemlist item2_i ;;
      o1 <- load_obj first ;;
      o2 <- load_obj second ;;
      if colliderect o1 o2
      then ret [mkCollision first (Ent second) ctype]
      else ret [])).

(** The body of the nested function [check_playerinthinking]; [player] is
    the loop variable of the enclosing method, read through the closure. *)
Definition check_playerinthinking_body (player : loc) : M unit :=
  p <- load_obj player ;;
  sp <- get_self ;;
  match thinkingbox sp with
  | None => raise AttributeError
  | Some t =>
      tb <- load_obj t ;;
      when ((Rect.left p >? Rect.left tb) && (Rect.right p <? Rect.right tb)
            && (Z.abs (Rect.bottom p - Rect.bottom tb) <? 2)
            && (Z.abs (Rect.top p - Rect.top tb) <? 2))
           (set_self (with_player_in_thinkingbox true))
  end.

(** [if self.thinkingbox:] *)
Definition thinkingbox_truthy : M bool :=
  sp <- get_self ;;
  match thinkingbox sp with
  | None => ret false
  | Some t => tb <- load_obj t ;; ret (Rect.truthy tb)
  end.

Definition check_collisions : M (list collision) :=
  of_boxes <-
    (boxes <- self_boxes ;;
     for_collect boxes (fun box =>
       targets <- self_targets ;;
       c1 <- check_list box targets box_to_target ;;
       platforms <- self_platforms ;;
       c2 <- check_list box platforms object_to_platform ;;
       c3 <- check_borders box ;;
       ret (c1 ++ c2 ++ c3))) ;;
  boxes <- self_boxes ;;
  box_pairs <- check_sametype boxes box_to_box ;;
  of_players <-
    (players <- self_players ;;
     for_collect players (fun player =>
       platforms <- self_platforms ;;
       c1 <- check_list player platforms object_to_platform ;;
       boxes <- self_boxes ;;
       c2 <- check_list player boxes player_to_box ;;
       c3 <- check_borders player ;;
       tb <- thinkingbox_truthy ;;
       (* defined as [check_playerinthinking()], called with [player] *)
       when tb (py_call 0 1 (check_playerinthinking_body player)) ;;
       ret (c1 ++ c2 ++ c3))) ;;
  players <- self_players ;;
  player_pairs <- check_sametype players player_to_player ;;
  ret (of_boxes ++ box_pairs ++ of_players ++ player_pairs).

End Detection.

(** ** [Space.resolve_collisions] *)

(** The nested function [whatside]; every call site leaves [tolerance] at
    its default, [default_tolerance]. *)
Definition default_tolerance : Z := 31.

Definition whatside_of (tolerance : Z) (a b : Object) : option side :=
  if Z.abs (Rect.top a - Rect.bottom b) <? tolerance then Some Top
  else if Z.abs (Rect.bottom a - Rect.top b) <? tolerance then Some Bottom
  else if Z.abs (Rect.right a - Rect.left b) <? tolerance then Some Right
  else if Z.abs (Rect.left a - Rect.right b) <? tolerance then Some Left
  else None.

Definition whatside (c : collision) (tolerance : Z) : M (option side) :=
  a <- load_obj (item1 c) ;;
  r <- as_object (item2 c) ;;
  b <- load_obj r ;;
  ret (whatside_of tolerance a b).

(** [item in self.players]: list membership compares with [==]. *)
Definition in_players (item : loc) : M bool :=
  o <- load_obj item ;;
  players <- self_players ;;
  ps <- load_objs players ;;
  ret (existsb (Rect.eqb o) ps).

(** [a.<edge> = b.<edge'>]: the right-hand side is read first. *)
Definition snap (setter : Z -> Object -> Object) (target : loc)
    (getter : Object -> Z) (source : loc) : M unit :=
  o <- load_obj source ;;
  update_obj target (setter (getter o)).

Definition resolve_object_to_platform (c : collision) : M unit :=
  sd <- whatside c default_tolerance ;;
  when (side_is sd Left)
    (speed_setitem0 (item1 c) (fun _ => 0%Q) ;;
     r <- as_object (item2 c) ;;
     snap Rect.set_left (item1 c) Rect.right r) ;;
  when (side_is sd Right)
    (speed_setitem0 (item1 c) (fun _ => 0%Q) ;;
     r <- as_object (item2 c) ;;
     snap Rect.set_right (item1 c) Rect.left r) ;;
  when (side_is sd Top)
    (v <- read_speed (item1 c) ;;
     assign_speed (item1 c) (fst v, (snd v * inject_Z (-1))%Q) ;;
     r <- as_object (item2 c) ;;
     snap Rect.set_top (item1 c) Rect.bottom r) ;;
  when (side_is sd Bottom)
    (assign_speed (item1 c) (0%Q, 0%Q) ;;
     r <- as_object (item2 c) ;;
     snap Rect.set_bottom (item1 c) Rect.top r ;;
     isp <- in_players (item1 c) ;;
     when isp (set_self (with_player_on_ground true))).

Definition resolve_player_to_box (c : collision) : M unit :=
  sd <- whatside c default_tolerance ;;
  when (side_is sd Top)
    (r <- as_object (item2 c) ;;
     assign_speed r (0%Q, 0%Q) ;;
     snap Rect.set_bottom r Rect.top (item1 c)) ;;
  when (side_is sd Bottom)
    (assign_speed (item1 c) (0%Q, 0%Q) ;;
     r <- as_object (item2 c) ;;
     snap Rect.set_bottom (item1 c) Rect.top r ;;
     set_self (with_player_on_ground true)) ;;
  when (side_is sd Left)
    (r <- as_object (item2 c) ;;
     v <- read_speed r ;;
     assign_speed r (0%Q, snd v) ;;
     snap Rect.set_right r Rect.left (item1 c)) ;;
  when (side_is sd Right)
    (r <- as_object (item2 c) ;;
     v <- read_speed r ;;
     assign_speed r (0%Q, snd v) ;;
     snap Rect.set_left r Rect.right (item1 c)).

(** [abs(self.players[0].topleft[0] - item.topleft[0])] *)
Definition dist_to_first_player (item : loc) : M Z :=
  players <- self_players ;;
  p0 <- list_getitem players 0 ;;
  p <- load_obj p0 ;;
  o <- load_obj item ;;
  ret (Z.abs (fst (Rect.topleft p) - fst (Rect.topleft o))).

Definition resolve_box_to_box (c : collision) : M unit :=
  item1_dist <- dist_to_first_player (item1 c) ;;
  r <- as_object (item2 c) ;;
  item2_dist <- dist_to_first_player r ;;
  (* [alpha_box = item1], replaced by [item2] when [item1_dist > item2_dist] *)
  let alpha_box := if item1_dist >? item2_dist then r else item1 c in
  let alpha_is_item1 := Nat.eqb alpha_box (item1 c) in
  sd <- whatside c default_tolerance ;;
  when (side_is sd Top)
    (assign_speed r (0%Q, 0%Q) ;;
     snap Rect.set_bottom r Rect.top (item1 c)) ;;
  when (side_is sd Bottom)
    (assign_speed (item1 c) (0%Q, 0%Q) ;;
     snap Rect.set_bottom (item1 c) Rect.top r) ;;
  when (side_is sd Left)
    (speed_setitem0 (item1 c) (fun _ => 0%Q) ;;
     speed_setitem0 r (fun _ => 0%Q) ;;
     if alpha_is_item1
     then snap Rect.set_right r Rect.left (item1 c)
     else snap Rect.set_left (item1 c) Rect.right r) ;;
  when (side_is sd Right)
    (speed_setitem0 (item1 c) (fun _ => 0%Q) ;;
     speed_setitem0 r (fun _ => 0%Q) ;;
     if alpha_is_item1
     then snap Rect.set_left r Rect.right (item1 c)
     else snap Rect.set_right (item1 c) Rect.left r).

Definition resolve_object_to_border (c : collision) : M unit :=
  o <- load_obj (item1 c) ;;
  when (Rect.left o <? 0)
    (speed_setitem0 (item1 c) (fun _ => 0%Q) ;;
     update_obj (item1 c) (Rect.set_left 0)) ;;
  o <- load_obj (item1 c) ;;
  sp <- get_self ;;
  when (Rect.right o >? space_w sp)
    (speed_setitem0 (item1 c) (fun _ => 0%Q) ;;
     update_obj (item1 c) (Rect.set_right (space_w sp))) ;;
  o <- load_obj (item1 c) ;;
  when (Rect.top o <? 0)
    (speed_setitem1 (item1 c) (fun v => (v * inject_Z (-1))%Q) ;;
     update_obj (item1 c) (Rect.set_top 0)) ;;
  o <- load_obj (item1 c) ;;
  sp <- get_self ;;
  when (Rect.bottom o >? space_h sp)
    (speed_setitem1 (item1 c) (fun v => (v * inject_Z 0)%Q) ;;
     update_obj (item1 c) (Rect.set_bottom (space_h sp))).

(** The body of the loop [for collision in collisions]. *)
Definition resolve_collision (c : collision) : M unit :=
  when (collision_type c =? box_to_target)
    (sp <- get_self ;; set_self (with_targets_engaged (targets_engaged sp + 1))) ;;
  when (collision_type c =? object_to_platform) (resolve_object_to_platform c) ;;
  when (collision_type c =? player_to_box) (resolve_player_to_box c) ;;
  when (collision_type c =? box_to_box) (resolve_box_to_box c) ;;
  when (collision_type c =? player_to_player) (ret tt) ;;
  when (collision_type c =? object_to_border) (resolve_object_to_border c).

Definition resolve_collisions (collisions : list collision) : M unit :=
  for_each collisions resolve_collision.

(** ** [Space.step] *)

Section Stepping.

Variable colliderect : Object -> Object -> bool.

(** One turn of the loop [for i in range(len(self.boxes))]. *)
Definition settle_once : M unit :=
  set_self (with_targets_engaged 0) ;;
  collisions <- check_collisions colliderect ;;
  resolve_collisions collisions.

(** The settle loop: as many turns as there are boxes when it starts. *)
Definition settle : M unit :=
  boxes <- self_boxes ;;
  for_each (seq 0 (length boxes)) (fun _ => settle_once).

Definition apply_gravity (fps : Z) (dynamic_objects : list loc) : M unit :=
  for_each dynamic_objects (fun object =>
    v <- read_speed object ;;
    sp <- get_self ;;
    dv <- py_truediv (inject_Z (gravity sp)) (inject_Z fps) ;;
    speed_setitem1 object (fun _ => (snd v + dv)%Q)).

(** [new_x = round(object.topleft[0] + object.speed[0] * (1 / fps))], and
    the same for [new_y], in exact arithmetic.  Python computes the
    argument of [round] in binary64, so the two can differ by one unit
    when the exact argument is next to a tie; they agree when no operation
    rounds ([exact_tick] below). *)
Definition move_objects (fps : Z) (dynamic_objects : list loc) : M unit :=
  for_each dynamic_objects (fun object =>
    o <- load_obj object ;;
    v <- read_speed object ;;
    dt <- py_truediv 1%Q (inject_Z fps) ;;
    let new_x := py_round (inject_Z (fst (Rect.topleft o)) + fst v * dt)%Q in
    o <- load_obj object ;;
    v <- read_speed object ;;
    dt <- py_truediv 1%Q (inject_Z fps) ;;
    let new_y := py_round (inject_Z (snd (Rect.topleft o)) + snd v * dt)%Q in
    update_obj object (Rect.set_topleft (new_x, new_y))).

Definition step (fps : Z) : M unit :=
  set_self (with_player_in_thinkingbox false) ;;
  settle ;;
  players <- self_players ;;
  boxes <- self_boxes ;;
  let dynamic_objects := players ++ boxes in
  apply_gravity fps dynamic_objects ;;
  move_objects fps dynamic_objects.

End Stepping.

(** The overlap test of pygame 2: strict overlap of the two rectangles,
    and a rectangle of zero width or height collides with nothing. *)
Definition pygame_colliderect (a b : Object) : bool :=
  negb ((rect_w a =? 0) || (rect_h a =? 0) || (rect_w b =? 0) || (rect_h b =? 0))
  && (Z.min (rect_x a) (rect_x a + rect_w a) <? Z.max (rect_x b) (rect_x b + rect_w b))
  && (Z.min (rect_y a) (rect_y a + rect_h a) <? Z.max (rect_y b) (rect_y b + rect_h b))
  && (Z.max (rect_x a) (rect_x a + rect_w a) >? Z.min (rect_x b) (rect_x b + rect_w b))
  && (Z.max (rect_y a) (rect_y a + rect_h a) >? Z.min (rect_y b) (rect_y b + rect_h b)).

(** ** Observations *)

(** The velocity an entity reads through [item.speed]. *)
Definition entity_speed (hp : heap) (r : loc) : option (Q * Q) :=
  match objs hp !! r with
  | Some o => speeds hp !! speed_ref o
  | None => None
  end.

(** What a world sees through [self.targets], [self.players],
    [self.boxes] and [self.platforms]. *)
Definition targets_of (sp : Space) (hp : heap) : option (list loc) :=
  lists hp !! targets_ref sp.
Definition players_of (sp : Space) (hp : heap) : option (list loc) :=
  lists hp !! players_ref sp.
Definition boxes_of (sp : Space) (hp : heap) : option (list loc) :=
  lists hp !! boxes_ref sp.
Definition platforms_of (sp : Space) (hp : heap) : option (list loc) :=
  lists hp !! platforms_ref sp.

(** The border property of an entity in a world. *)
Definition within_border (sp : Space) (o : Object) : Prop :=
  0 <= Rect.left o /\ 0 <= Rect.top o /\
  Rect.right o <= space_w sp /\ Rect.bottom o <= space_h sp.


(** ** Worlds used as examples *)

Definition fresh_world : state :=
  mkState (Space_init 20 10 98 100) module_loaded.

(** [world.add_object(5, 5, 1, 2, "player"); world.add_object(8, 5, 1, 2, "player")] *)
Definition two_players : state :=
  fst ((add_object 5 5 1 2 "player" ;; add_object 8 5 1 2 "player") fresh_world).

(** A trigger zone and a player standing in it. *)
Definition player_in_zone : state :=
  fst ((add_object 4 5 3 2 "thinkingbox" ;; add_object 5 5 1 2 "player") fresh_world).

(** A player at the left, and two boxes to its right that overlap by 10
    internal units: box 1 at x = 100, box 2 at x = 190. *)
Definition pushed_boxes : state :=
  mkState (Space_init 20 10 98 100)
    (mkHeap [mkObject 0 800 100 200 100 None;
             mkObject 100 800 100 100 100 None;
             mkObject 190 800 100 100 100 None]
            [(0%Q, 0%Q)]
            [[]; [0%nat]; [1%nat; 2%nat]; []]).

(** A player created left of the world, in a world without boxes. *)
Definition player_outside : state :=
  fst (add_object (-5) 5 1 2 "player" fresh_world).

(** A player and two boxes, the second box deep inside the first: every
    edge distance between the boxes is 50 or 150 internal units. *)
Definition nested_boxes : state :=
  mkState (Space_init 20 10 98 100)
    (mkHeap [mkObject 0 800 100 200 100 None;
             mkObject 100 800 100 100 100 None;
             mkObject 150 850 100 100 100 None]
            [(0%Q, 0%Q)]
            [[]; [0%nat]; [1%nat; 2%nat]; []]).

(** A player overlapping a box that sticks out of the right border by 10
    internal units (the world is 2000 wide). *)
Definition box_at_wall : state :=
  mkState (Space_init 20 10 98 100)
    (mkHeap [mkObject 1820 700 100 200 100 None;
             mkObject 1910 800 100 100 100 None]
            [(0%Q, 0%Q)]
            [[]; [0%nat]; [1%nat]; []]).

(** The scenario of the specification: a platform along the floor and a
    player in the air above it. *)
Definition free_fall : state :=
  fst ((add_object 0 9 20 1 "platform" ;; add_object 5 5 1 2 "player") fresh_world).

(** Two worlds of one program: [Space(20, 10, 98)] and [Space(30, 15, 50)]. *)
Definition world_a : Space := Space_init 20 10 98 100.
Definition world_b : Space := Space_init 30 15 50 100.

(** ** Frame conditions *)

(** [preserves proj m]: running [m] never changes the part [proj] of the
    state, whether [m] returns or raises. *)
Definition preserves {X A} (proj : state -> X) (m : M A) : Prop :=
  forall s, proj (fst (m s)) = proj s.

(** A computation that only reads. *)
Definition readonly {A} (m : M A) : Prop := preserves (fun s => s) m.


(** ** [Object.get_position] *)

(** [x, y = self.topleft; x /= self.upscale; y /= self.upscale;
    return round(x), round(y)] *)
Definition get_position (r : loc) : M (Z * Z) :=
  o <- load_obj r ;;
  x <- py_truediv (inject_Z (fst (Rect.topleft o))) (inject_Z (obj_upscale o)) ;;
  y <- py_truediv (inject_Z (snd (Rect.topleft o))) (inject_Z (obj_upscale o)) ;;
  ret (py_round x, py_round y).

(** ** [Space.move_player] *)

Section Movement.

(** [math.sqrt], the library function: it returns a number or raises (on a
    negative argument).  The calls to [logging.info] are left out. *)
Variable math_sqrt : Q -> outcome Q.



End Movement.




(** ** The detection pass, as list comprehensions *)

Section DetectionSpec.

Variable colliderect : Object -> Object -> bool.

(** [a.colliderect(b)] on two references of the store. *)
Definition collides (hp : heap) (a b : loc) : bool :=
  match objs hp !! a, objs hp !! b with
  | Some oa, Some ob => colliderect oa ob
  | _, _ => false
  end.

(** The events of one entity against a list of entities. *)
Definition list_events (hp : heap) (item : loc) (rect_list : list loc) (ctype : Z)
  : list collision :=
  map (fun r => mkCollision item (Ent r) ctype) (List.filter (collides hp item) rect_list).

(** Whether an entity has an edge outside the world. *)
Definition outside (sp : Space) (o : Object) : bool :=
  (Rect.left o <? 0) || (Rect.right o >? space_w sp)
  || (Rect.top o <? 0) || (Rect.bottom o >? space_h sp).

Definition border_events (sp : Space) (hp : heap) (item : loc) : list collision :=
  match objs hp !! item with
  | Some o => if outside sp o then [mkCollision item Wall object_to_border] else []
  | None => []
  end.

(** Every pair of positions [i < j] of a list, in lexicographic order. *)
Fixpoint unordered_pairs {A} (l : list A) : list (A * A) :=
  match l with
  | [] => []
  | a :: rest => map (pair a) rest ++ unordered_pairs rest
  end.

Definition pair_events (hp : heap) (itemlist : list loc) (ctype : Z) : list collision :=
  map (fun p => mkCollision (fst p) (Ent (snd p)) ctype)
      (List.filter (fun p => collides hp (fst p) (snd p)) (unordered_pairs itemlist)).

(** The list [check_collisions] builds, from the four entity lists. *)
Definition detected (sp : Space) (hp : heap)
    (targets players boxes platforms : list loc) : list collision :=
  flat_map (fun box =>
              list_events hp box targets box_to_target
              ++ list_events hp box platforms object_to_platform
              ++ border_events sp hp box) boxes
  ++ pair_events hp boxes box_to_box
  ++ flat_map (fun player =>
                 list_events hp player platforms object_to_platform
                 ++ list_events hp player boxes player_to_box
                 ++ border_events sp hp player) players
  ++ pair_events hp players player_to_player.

End DetectionSpec.

(** An event as the detection pass builds them: the wall is the partner
    of border events and of no other, and the type is one of the six. *)
Definition well_formed_event (c : collision) : Prop :=
  (item2 c = Wall /\ collision_type c = object_to_border) \/
  ((exists r, item2 c = Ent r) /\
   (collision_type c = box_to_target \/ collision_type c = object_to_platform \/
    collision_type c = player_to_box \/ collision_type c = box_to_box \/
    collision_type c = player_to_player)).

(** ** Relations between the state before and after *)

(** [respects R m]: the state [m] ends in, by returning or by raising, is
    related by [R] to the state it started in. *)
Definition respects {A} (R : state -> state -> Prop) (m : M A) : Prop :=
  forall s, R s (fst (m s)).

(** The parts of a world that only [add_object] and [reset] assign. *)
Definition same_world (sp sp' : Space) : Prop :=
  space_w sp' = space_w sp /\ space_h sp' = space_h sp /\
  gravity sp' = gravity sp /\ upscale sp' = upscale sp /\
  inst_targets sp' = inst_targets sp /\ inst_players sp' = inst_players sp /\
  inst_boxes sp' = inst_boxes sp /\ inst_platforms sp' = inst_platforms sp /\
  inst_thinkingbox sp' = inst_thinkingbox sp.

(** Nothing was created, removed or resized: the world is the same, the
    entity lists are the same, and every object is still there with the
    size it had. *)
Definition keeps_entities (s s' : state) : Prop :=
  same_world (self s) (self s') /\
  lists (mem s') = lists (mem s) /\
  length (objs (mem s')) = length (objs (mem s)) /\
  forall r o, objs (mem s) !! r = Some o ->
    exists o', objs (mem s') !! r = Some o' /\
               rect_w o' = rect_w o /\ rect_h o' = rect_h o /\
               obj_upscale o' = obj_upscale o.

(** Every reference of the list is an object of the store. *)
Definition all_objects (hp : heap) (refs : list loc) : Prop :=
  Forall (fun r => is_Some (objs hp !! r)) refs.

(** Every object other than the two participants [r1] and [p] is as it
    was. *)
Definition others_untouched (r1 : loc) (p : participant) (s s' : state) : Prop :=
  forall r, r <> r1 -> p <> Ent r -> objs (mem s') !! r = objs (mem s) !! r.

(** Every object that is not in the list [dynamic] is as it was. *)
Definition static_untouched (dynamic : list loc) (s s' : state) : Prop :=
  forall r, ~ In r dynamic -> objs (mem s') !! r = objs (mem s) !! r.

(** A world whose four entity lists hold objects of the store. *)
Definition populated (s : state) (targets players boxes platforms : list loc) : Prop :=
  lists (mem s) !! targets_ref (self s) = Some targets /\
  lists (mem s) !! players_ref (self s) = Some players /\
  lists (mem s) !! boxes_ref (self s) = Some boxes /\
  lists (mem s) !! platforms_ref (self s) = Some platforms /\
  all_objects (mem s) targets /\ all_objects (mem s) players /\
  all_objects (mem s) boxes /\ all_objects (mem s) platforms.

(** A world in which the detection pass does not reach the call of
    [check_playerinthinking]: no player, or no trigger zone of non-zero
    area. *)
Definition zone_quiet (s : state) (players : list loc) : Prop :=
  players = [] \/ thinkingbox (self s) = None \/
  (exists t tb, thinkingbox (self s) = Some t /\ objs (mem s) !! t = Some tb /\
                Rect.truthy tb = false).

(** A player (object 1) that has sunk 3 units into the platform (object 0)
    along the floor. *)
Definition landing : state :=
  mkState (Space_init 20 10 98 100)
    (mkHeap [mkObject 0 900 2000 100 100 None;
             mkObject 500 703 100 200 100 None]
            [(0%Q, 9800 # 60)]
            [[]; [1%nat]; []; [0%nat]]).

(** A player and two boxes, box 1 sunk 10 units into box 2 below it. *)
Definition stacked_boxes : state :=
  mkState (Space_init 20 10 98 100)
    (mkHeap [mkObject 0 800 100 200 100 None;
             mkObject 300 700 100 100 100 None;
             mkObject 300 790 100 100 100 None]
            [(0%Q, 0%Q)]
            [[]; [0%nat]; [1%nat; 2%nat]; []]).

(** A player and two boxes that touch nothing. *)
Definition stacked_boxes_apart : state :=
  mkState (Space_init 20 10 98 100)
    (mkHeap [mkObject 0 800 100 200 100 None;
             mkObject 300 500 100 100 100 None;
             mkObject 600 500 100 100 100 None]
            [(0%Q, 0%Q)]
            [[]; [0%nat]; [1%nat; 2%nat]; []]).

(** A box over two targets, in a world without players. *)
Definition box_on_two_targets : state :=
  mkState (Space_init 20 10 98 100)
    (mkHeap [mkObject 100 800 100 100 100 None;
             mkObject 150 800 100 100 100 None;
             mkObject 120 820 50 50 100 None]
            [(0%Q, 0%Q)]
            [[0%nat; 1%nat]; []; [2%nat]; []]).

(** The number of box-to-target events of a list. *)
Definition count_box_to_target (cs : list collision) : Z :=
  Z.of_nat (length (List.filter (fun c => collision_type c =? box_to_target) cs)).

(** ** Machine numbers *)

(** The values a [pygame.Rect] stores as they are: the C [int]s. *)
Definition c_int (z : Z) : Prop := - 2 ^ 31 <= z < 2 ^ 31.

(** The four values that [add_object] passes to [pygame.Rect] are C
    [int]s.  [add_object] is embedded for such calls: what pygame's
    conversion makes of a larger Python int is not modelled. *)
Definition rect_args_fit (sp : Space) (x y w h : Z) : Prop :=
  c_int (x * upscale sp) /\ c_int (y * upscale sp) /\
  c_int (w * upscale sp) /\ c_int (h * upscale sp).

(** The finite numbers of binary64, the Python [float]: [m * 2^e] with
    [|m| < 2^53] and [-1074 <= e <= 971]. *)
Definition binary64 (q : Q) : Prop :=
  exists m e : Z, Z.abs m < 2 ^ 53 /\ -1074 <= e <= 971 /\ (q == inject_Z m * 2 ^ e)%Q.

(** [z] is [round(q)]: an integer nearest to [q], the even one when [q]
    lies halfway between two integers. *)
Definition rounds_to (q : Q) (z : Z) : Prop :=
  (inject_Z z - (1 # 2) <= q <= inject_Z z + (1 # 2))%Q /\
  ((q == inject_Z z - (1 # 2) \/ q == inject_Z z + (1 # 2))%Q -> Z.even z = true).


(** An operation of binary64 returns a binary64 number nearest to the
    exact result (when that result is within the range of binary64). *)
Definition correctly_rounded (q f : Q) : Prop :=
  binary64 f /\ forall g, binary64 g -> (Qabs (f - q) <= Qabs (g - q))%Q.


(** ** Velocity lists and their readers *)

(** The list object [l] is the one that [r.speed] resolves to, for some
    entity [r] of [parts]. *)
Definition reads_list (hp : heap) (parts : list loc) (l : loc) : Prop :=
  exists r o, In r parts /\ objs hp !! r = Some o /\ speed_ref o = l.

(** What the assignments to velocities of the entities [parts] leave of the
    velocity lists of [s0]: every list of [s0] that no entity of [parts]
    read in [s0] has its content, and every entity of [parts] reads a list
    that one of them read in [s0], or a list created since. *)
Definition velocity_frame (s0 : state) (parts : list loc) (s : state) : Prop :=
  (length (speeds (mem s0)) <= length (speeds (mem s)))%nat /\
  (forall l, (l < length (speeds (mem s0)))%nat -> ~ reads_list (mem s0) parts l ->
             speeds (mem s) !! l = speeds (mem s0) !! l) /\
  (forall r o, In r parts -> objs (mem s) !! r = Some o ->
               reads_list (mem s0) parts (speed_ref o) \/
               (length (speeds (mem s0)) <= speed_ref o)%nat).

(** Running from [s] to [s'] keeps the frame of [s0]. *)
Definition keeps_velocity_frame (s0 : state) (parts : list loc) (s s' : state) : Prop :=
  velocity_frame s0 parts s -> velocity_frame s0 parts s'.

(** The participants of an event whose velocity list the resolution can
    change in place ([item.speed[i] = ...]): the first one, and for a
    box-to-box event the second one too.  Every other assignment to a
    velocity binds a new list ([item.speed = [...]]). *)
Definition in_place_writers (c : collision) : list loc :=
  item1 c ::
  (if collision_type c =? box_to_box
   then match item2 c with Ent r => [r] | Wall => [] end
   else []).

(** A player (object 1) that has moved 3 units into the right edge of a
    wall-like platform (object 0) and reads [Object.speed]; a box
    (object 2) that was given a velocity list of its own, and a target
    (object 3) that reads [Object.speed] like the player. *)
Definition side_contact : state :=
  mkState (Space_init 20 10 98 100)
    (mkHeap [mkObject 0 0 100 1000 100 None;
             mkObject 97 400 100 200 100 None;
             mkObject 600 400 100 100 100 (Some 1%nat);
             mkObject 900 400 100 100 100 None]
            [(50 # 1, 20 # 1); (7 # 1, 0%Q)]
            [[3%nat]; [1%nat]; [2%nat]; [0%nat]]).

(** A player (object 1) in the air, with the velocity list of its own that
    a landing gave it ([item1.speed = [0, 0]]), above a platform
    (object 0) that reads [Object.speed]. *)
Definition after_landing : state :=
  mkState (Space_init 20 10 98 100)
    (mkHeap [mkObject 0 900 2000 100 100 None;
             mkObject 500 500 100 200 100 (Some 1%nat)]
            [(0%Q, 0%Q); (0%Q, 0%Q)]
            [[]; [1%nat]; []; [0%nat]]).

(** * Properties *)

(** ** Running the monad *)

Lemma bind_ok {A B} (m : M A) (k : A -> M B) s s' a :
  m s = (s', Ok a) -> bind m k s = k a s'.
Proof. intros H. unfold bind. now rewrite H. Qed.

Lemma bind_raise {A B} (m : M A) (k : A -> M B) s s' e :
  m s = (s', Raise e) -> bind m k s = (s', Raise e).
Proof. intros H. unfold bind. now rewrite H. Qed.

Lemma bind_assoc {A B C} (m : M A) (k1 : A -> M B) (k2 : B -> M C) s :
  bind (bind m k1) k2 s = bind m (fun x => bind (k1 x) k2) s.
Proof. unfold bind. destruct (m s) as [s' [a|e]]; reflexivity. Qed.

Lemma bind_ret_tt (m : M unit) s : bind m (fun _ => ret tt) s = m s.
Proof. unfold bind. destruct (m s) as [s' [[]|e]]; reflexivity. Qed.

Lemma ret_bind {A B} (a : A) (k : A -> M B) s : bind (ret a) k s = k a s.
Proof. reflexivity. Qed.

Lemma ret_ok {A} (a : A) s : ret a s = (s, Ok a).
Proof. reflexivity. Qed.

Lemma get_self_ok s : get_self s = (s, Ok (self s)).
Proof. reflexivity. Qed.

Lemma set_self_ok f s : set_self f s = (mkState (f (self s)) (mem s), Ok tt).
Proof. reflexivity. Qed.

Lemma as_object_ok r s : as_object (Ent r) s = (s, Ok r).
Proof. reflexivity. Qed.

Lemma load_obj_ok s r o : objs (mem s) !! r = Some o -> load_obj r s = (s, Ok o).
Proof. intros H. unfold load_obj. now rewrite H. Qed.

Lemma update_obj_ok s r o f :
  objs (mem s) !! r = Some o ->
  update_obj r f s =
    (mkState (self s)
       (mkHeap (<[r := f o]> (objs (mem s))) (speeds (mem s)) (lists (mem s))), Ok tt).
Proof. intros H. unfold update_obj. now rewrite H. Qed.

Lemma load_speed_ok s l v : speeds (mem s) !! l = Some v -> load_speed l s = (s, Ok v).
Proof. intros H. unfold load_speed. now rewrite H. Qed.

Lemma update_speed_ok s l v f :
  speeds (mem s) !! l = Some v ->
  update_speed l f s =
    (mkState (self s)
       (mkHeap (objs (mem s)) (<[l := f v]> (speeds (mem s))) (lists (mem s))), Ok tt).
Proof. intros H. unfold update_speed. now rewrite H. Qed.

Lemma load_list_ok s l v : lists (mem s) !! l = Some v -> load_list l s = (s, Ok v).
Proof. intros H. unfold load_list. now rewrite H. Qed.

Lemma list_getitem_ok {A} (xs : list A) i x s :
  xs !! i = Some x -> list_getitem xs i s = (s, Ok x).
Proof. intros H. unfold list_getitem. now rewrite H. Qed.

Lemma lookup_insert_same {A} (l : list A) i x y :
  l !! i = Some y -> <[i := x]> l !! i = Some x.
Proof. intros H. apply list_lookup_insert_eq. eapply lookup_lt_Some; eauto. Qed.

Lemma lookup_insert_other {A} (l : list A) i j x y :
  i <> j -> l !! j = Some y -> <[i := x]> l !! j = Some y.
Proof. intros N H. rewrite list_lookup_insert_ne; auto. Qed.

Create HintDb run.
#[local] Hint Resolve lookup_insert_same lookup_insert_other not_eq_sym : run.

Ltac heap_simpl := cbn [self mem objs speeds lists item1 item2 collision_type].

Ltac lookup_side := heap_simpl; eauto with run.

Lemma read_speed_ok s r o v :
  objs (mem s) !! r = Some o ->
  speeds (mem s) !! speed_ref o = Some v ->
  read_speed r s = (s, Ok v).
Proof.
  intros Ho Hv. unfold read_speed.
  rewrite (bind_ok _ _ _ _ _ (load_obj_ok _ _ _ Ho)).
  now apply load_speed_ok.
Qed.

Lemma speed_setitem0_ok s r o v f :
  objs (mem s) !! r = Some o ->
  speeds (mem s) !! speed_ref o = Some v ->
  speed_setitem0 r f s =
    (mkState (self s)
       (mkHeap (objs (mem s)) (<[speed_ref o := (f (fst v), snd v)]> (speeds (mem s)))
          (lists (mem s))), Ok tt).
Proof.
  intros Ho Hv. unfold speed_setitem0.
  rewrite (bind_ok _ _ _ _ _ (load_obj_ok _ _ _ Ho)).
  now rewrite (update_speed_ok _ _ _ _ Hv).
Qed.

Lemma speed_setitem1_ok s r o v f :
  objs (mem s) !! r = Some o ->
  speeds (mem s) !! speed_ref o = Some v ->
  speed_setitem1 r f s =
    (mkState (self s)
       (mkHeap (objs (mem s)) (<[speed_ref o := (fst v, f (snd v))]> (speeds (mem s)))
          (lists (mem s))), Ok tt).
Proof.
  intros Ho Hv. unfold speed_setitem1.
  rewrite (bind_ok _ _ _ _ _ (load_obj_ok _ _ _ Ho)).
  now rewrite (update_speed_ok _ _ _ _ Hv).
Qed.

Lemma snap_ok s setter target getter source ot os :
  objs (mem s) !! source = Some os ->
  objs (mem s) !! target = Some ot ->
  snap setter target getter source s =
    (mkState (self s)
       (mkHeap (<[target := setter (getter os) ot]> (objs (mem s))) (speeds (mem s))
          (lists (mem s))), Ok tt).
Proof.
  intros Hs Ht. unfold snap.
  rewrite (bind_ok _ _ _ _ _ (load_obj_ok _ _ _ Hs)).
  now rewrite (update_obj_ok _ _ _ _ Ht).
Qed.

Lemma self_players_ok s ps :
  lists (mem s) !! players_ref (self s) = Some ps -> self_players s = (s, Ok ps).
Proof.
  intros H. unfold self_players. rewrite (bind_ok _ _ _ _ _ (get_self_ok s)).
  now apply load_list_ok.
Qed.

Lemma self_boxes_ok s bs :
  lists (mem s) !! boxes_ref (self s) = Some bs -> self_boxes s = (s, Ok bs).
Proof.
  intros H. unfold self_boxes. rewrite (bind_ok _ _ _ _ _ (get_self_ok s)).
  now apply load_list_ok.
Qed.

Lemma whatside_ok s c r a b tol :
  item2 c = Ent r ->
  objs (mem s) !! item1 c = Some a ->
  objs (mem s) !! r = Some b ->
  whatside c tol s = (s, Ok (whatside_of tol a b)).
Proof.
  intros E Ha Hb. unfold whatside. rewrite E.
  rewrite (bind_ok _ _ _ _ _ (load_obj_ok _ _ _ Ha)).
  rewrite (bind_ok _ _ _ _ _ (as_object_ok _ _)).
  rewrite (bind_ok _ _ _ _ _ (load_obj_ok _ _ _ Hb)).
  reflexivity.
Qed.

Lemma dist_to_first_player_ok s item p0 ps op o :
  lists (mem s) !! players_ref (self s) = Some (p0 :: ps) ->
  objs (mem s) !! p0 = Some op ->
  objs (mem s) !! item = Some o ->
  dist_to_first_player item s = (s, Ok (Z.abs (rect_x op - rect_x o))).
Proof.
  intros Hl Hp Ho. unfold dist_to_first_player.
  rewrite (bind_ok _ _ _ _ _ (self_players_ok _ _ Hl)).
  rewrite (bind_ok _ _ _ _ _ (list_getitem_ok (p0 :: ps) 0 p0 s eq_refl)).
  rewrite (bind_ok _ _ _ _ _ (load_obj_ok _ _ _ Hp)).
  rewrite (bind_ok _ _ _ _ _ (load_obj_ok _ _ _ Ho)).
  reflexivity.
Qed.

(** One step of symbolic execution: the first action of the program
    succeeds on the current state, by one of the lemmas above. *)
Ltac run_side :=
  heap_simpl;
  first [ apply get_self_ok | apply ret_ok | apply as_object_ok | apply set_self_ok
        | eapply load_obj_ok; lookup_side
        | eapply load_speed_ok; lookup_side
        | eapply load_list_ok; lookup_side
        | eapply update_obj_ok; lookup_side
        | eapply read_speed_ok; lookup_side
        | eapply speed_setitem0_ok; lookup_side
        | eapply speed_setitem1_ok; lookup_side
        | eapply snap_ok; lookup_side
        | eapply self_players_ok; lookup_side
        | eapply self_boxes_ok; lookup_side
        | eapply whatside_ok; lookup_side
        | eapply dist_to_first_player_ok; lookup_side
        | eapply list_getitem_ok; cbn; eauto with run ].

Ltac run :=
  repeat first [ rewrite bind_assoc | rewrite ret_bind | erewrite bind_ok by run_side
               | progress heap_simpl ].

(** ** Dispatch on the collision type *)

Lemma resolve_collision_box_to_box c s :
  collision_type c = box_to_box -> resolve_collision c s = resolve_box_to_box c s.
Proof.
  intros E. unfold resolve_collision. rewrite E.
  cbn [Z.eqb box_to_box box_to_target object_to_platform player_to_box
       player_to_player object_to_border Pos.eqb when].
  rewrite !ret_bind. apply bind_ret_tt.
Qed.

Lemma resolve_collision_object_to_platform c s :
  collision_type c = object_to_platform ->
  resolve_collision c s = resolve_object_to_platform c s.
Proof.
  intros E. unfold resolve_collision. rewrite E.
  cbn [Z.eqb box_to_box box_to_target object_to_platform player_to_box
       player_to_player object_to_border Pos.eqb when].
  rewrite !ret_bind. apply bind_ret_tt.
Qed.

Lemma resolve_collision_player_to_box c s :
  collision_type c = player_to_box ->
  resolve_collision c s = resolve_player_to_box c s.
Proof.
  intros E. unfold resolve_collision. rewrite E.
  cbn [Z.eqb box_to_box box_to_target object_to_platform player_to_box
       player_to_player object_to_border Pos.eqb when].
  rewrite !ret_bind. apply bind_ret_tt.
Qed.

Lemma resolve_collision_object_to_border c s :
  collision_type c = object_to_border ->
  resolve_collision c s = resolve_object_to_border c s.
Proof.
  intros E. unfold resolve_collision. rewrite E.
  cbn [Z.eqb box_to_box box_to_target object_to_platform player_to_box
       player_to_player object_to_border Pos.eqb when].
  rewrite !ret_bind. reflexivity.
Qed.

(** ** Box against box (C1) *)

Lemma speed_ref_move_to nx ny o : speed_ref (Rect.move_to nx ny o) = speed_ref o.
Proof. reflexivity. Qed.

Lemma speed_x_zero_after (l : list (Q * Q)) (i j : nat) (y : Q) (w : Q * Q) :
  l !! i = Some (0%Q, snd w) ->
  fst <$> (<[j := (0%Q, y)]> l) !! i = Some 0%Q.
Proof.
  intros Hi. destruct (decide (j = i)) as [->|N].
  - rewrite list_lookup_insert_eq by (eapply lookup_lt_Some; eauto). reflexivity.
  - rewrite list_lookup_insert_ne by auto. rewrite Hi. reflexivity.
Qed.

(** C1, as the code has it: in a box-to-box event resolved with a first
    player present, the dominant box is the participant that is NOT
    farther from that player (the first participant on a tie).  On a
    horizontal contact both horizontal velocities read 0 afterwards, the
    dominant box is left as it was, and the other, farther box is moved so
    that its edge is flush against the dominant box's edge. *)
Theorem box_to_box_nearer_box_dominates s b1 b2 p0 ps o1 o2 op sd :
  b1 <> b2 ->
  lists (mem s) !! players_ref (self s) = Some (p0 :: ps) ->
  objs (mem s) !! p0 = Some op ->
  objs (mem s) !! b1 = Some o1 ->
  objs (mem s) !! b2 = Some o2 ->
  is_Some (speeds (mem s) !! speed_ref o1) ->
  is_Some (speeds (mem s) !! speed_ref o2) ->
  whatside_of default_tolerance o1 o2 = Some sd ->
  sd = Left \/ sd = Right ->
  exists s' o1' o2',
    resolve_collision (mkCollision b1 (Ent b2) box_to_box) s = (s', Ok tt) /\
    objs (mem s') !! b1 = Some o1' /\
    objs (mem s') !! b2 = Some o2' /\
    fst <$> entity_speed (mem s') b1 = Some 0%Q /\
    fst <$> entity_speed (mem s') b2 = Some 0%Q /\
    if Z.abs (rect_x op - rect_x o1) <=? Z.abs (rect_x op - rect_x o2)
    then o1' = o1 /\
         (sd = Right -> o2' = Rect.set_left (Rect.right o1) o2) /\
         (sd = Left -> o2' = Rect.set_right (Rect.left o1) o2)
    else o2' = o2 /\
         (sd = Right -> o1' = Rect.set_right (Rect.left o2) o1) /\
         (sd = Left -> o1' = Rect.set_left (Rect.right o2) o1).
Proof.
  intros Hne Hl Hp H1 H2 [v1 Hv1] [v2 Hv2] Hside Hsd.
  rewrite resolve_collision_box_to_box by reflexivity.
  rewrite <- bind_ret_tt.
  unfold resolve_box_to_box. heap_simpl. run. rewrite Hside.
  destruct (proj2 (list_lookup_insert_is_Some (speeds (mem s)) (speed_ref o1)
                     (0%Q, snd v1) (speed_ref o2)) (ex_intro _ v2 Hv2)) as [v2' Hv2'].
  assert (Hb21 : (b2 =? b1)%nat = false) by (apply Nat.eqb_neq; auto).
  assert (Hv1' : <[speed_ref o1 := (0%Q, snd v1)]> (speeds (mem s)) !! speed_ref o1
                 = Some (0%Q, snd v1)) by eauto with run.
  destruct (Z.abs (rect_x op - rect_x o1) >? Z.abs (rect_x op - rect_x o2)) eqn:Hd;
    [ assert (Hle : (Z.abs (rect_x op - rect_x o1) <=? Z.abs (rect_x op - rect_x o2)) = false)
        by lia
    | assert (Hle : (Z.abs (rect_x op - rect_x o1) <=? Z.abs (rect_x op - rect_x o2)) = true)
        by lia ];
    rewrite Hle, ?Hb21, ?Nat.eqb_refl;
    destruct Hsd; subst sd; cbn [side_is side_eqb when]; run;
    eexists _, _, _; (split; [reflexivity|]); heap_simpl; unfold entity_speed; heap_simpl.
  all: repeat match goal with
       | H : ?l !! ?i = Some _ |- context [ <[?i := ?x]> ?l !! ?i ] =>
           rewrite (lookup_insert_same l i x _ H)
       | |- context [ <[?i := ?x]> ?l !! ?j ] =>
           rewrite (list_lookup_insert_ne l i j x) by auto
       end.
  all: rewrite ?H1, ?H2.
  all: repeat split; try discriminate; try reflexivity.
  all: unfold Rect.set_left, Rect.set_right; rewrite ?speed_ref_move_to.
  all: try solve [ rewrite (lookup_insert_same _ _ _ _ Hv2'); reflexivity ].
  all: eapply speed_x_zero_after; eauto.
Qed.

Lemma left_set_left v o : Rect.left (Rect.set_left v o) = v.
Proof. reflexivity. Qed.

Lemma right_set_right v o : Rect.right (Rect.set_right v o) = v.
Proof. unfold Rect.right, Rect.set_right, Rect.move_to. cbn. lia. Qed.

(** C1 as the specification states it fails on [pushed_boxes]: box 2 is the
    farther one, and it is box 2 that is moved (from x = 190 to x = 200, the
    right edge of box 1) while box 1, the nearer one, stays where it was. *)
Lemma box_to_box_farther_box_is_moved :
  let s' := fst (resolve_collision (mkCollision 1 (Ent 2) box_to_box) pushed_boxes) in
  Z.abs (0 - 100) < Z.abs (0 - 190) /\
  Rect.geometry <$> objs (mem pushed_boxes) !! 2%nat = Some (190, 800, 100, 100) /\
  Rect.geometry <$> objs (mem s') !! 2%nat = Some (200, 800, 100, 100) /\
  Rect.geometry <$> objs (mem s') !! 1%nat = Some (100, 800, 100, 100) /\
  Rect.geometry <$> objs (mem pushed_boxes) !! 1%nat = Some (100, 800, 100, 100).
Proof. cbv zeta. repeat split; vm_compute; reflexivity. Qed.

Lemma box_to_box_nearer_box_dominates_witness :
  exists s' o1' o2',
    resolve_collision (mkCollision 1 (Ent 2) box_to_box) pushed_boxes = (s', Ok tt) /\
    objs (mem s') !! 1%nat = Some o1' /\
    objs (mem s') !! 2%nat = Some o2' /\
    fst <$> entity_speed (mem s') 1 = Some 0%Q /\
    fst <$> entity_speed (mem s') 2 = Some 0%Q /\
    o1' = mkObject 100 800 100 100 100 None /\
    (Right = Right -> o2' = Rect.set_left 200 (mkObject 190 800 100 100 100 None)) /\
    (Right = Left -> o2' = Rect.set_right 100 (mkObject 190 800 100 100 100 None)).
Proof.
  apply (box_to_box_nearer_box_dominates pushed_boxes 1 2 0 []
           (mkObject 100 800 100 100 100 None) (mkObject 190 800 100 100 100 None)
           (mkObject 0 800 100 200 100 None) Right);
    first [ reflexivity | lia | (eexists; reflexivity) | (right; reflexivity) ].
Defined.

(** ** Frames: what a computation leaves alone *)

Section Preserves.
Context {X : Type} (proj : state -> X).

Lemma preserves_ret {A} (a : A) : preserves proj (ret a).
Proof. intros s. reflexivity. Qed.

Lemma preserves_raise {A} e : preserves proj (@raise A e).
Proof. intros s. reflexivity. Qed.

Lemma preserves_bind {A B} (m : M A) (k : A -> M B) :
  preserves proj m -> (forall a, preserves proj (k a)) -> preserves proj (bind m k).
Proof.
  intros Hm Hk s. unfold bind. specialize (Hm s).
  destruct (m s) as [s' [a|e]]; cbn in *.
  - rewrite Hk. exact Hm.
  - exact Hm.
Qed.

Lemma preserves_when c body : preserves proj body -> preserves proj (when c body).
Proof. destruct c; cbn; auto using preserves_ret. Qed.

Lemma preserves_if {A} (c : bool) (m1 m2 : M A) :
  preserves proj m1 -> preserves proj m2 -> preserves proj (if c then m1 else m2).
Proof. destruct c; auto. Qed.

Lemma preserves_for_each {A} (xs : list A) body :
  (forall x, preserves proj (body x)) -> preserves proj (for_each xs body).
Proof.
  intros Hb. induction xs as [|x xs IH]; cbn.
  - apply preserves_ret.
  - apply preserves_bind; auto.
Qed.

Lemma preserves_for_collect {A B} (xs : list A) (body : A -> M (list B)) :
  (forall x, preserves proj (body x)) -> preserves proj (for_collect xs body).
Proof.
  intros Hb. induction xs as [|x xs IH]; cbn.
  - apply preserves_ret.
  - apply preserves_bind; auto. intros a.
    apply preserves_bind; auto. intros b. apply preserves_ret.
Qed.

Lemma preserves_py_call {A} arity nargs (body : M A) :
  preserves proj body -> preserves proj (py_call arity nargs body).
Proof. unfold py_call. destruct (Nat.eqb arity nargs); auto using preserves_raise. Qed.

Lemma preserves_get_self : preserves proj get_self.
Proof. intros s. reflexivity. Qed.

Lemma preserves_load_obj r : preserves proj (load_obj r).
Proof. intros s. unfold load_obj. destruct (objs (mem s) !! r); reflexivity. Qed.

Lemma preserves_load_speed l : preserves proj (load_speed l).
Proof. intros s. unfold load_speed. destruct (speeds (mem s) !! l); reflexivity. Qed.

Lemma preserves_load_list l : preserves proj (load_list l).
Proof. intros s. unfold load_list. destruct (lists (mem s) !! l); reflexivity. Qed.

Lemma preserves_list_getitem {A} (xs : list A) i : preserves proj (list_getitem xs i).
Proof. unfold list_getitem. destruct (xs !! i); auto using preserves_ret, preserves_raise. Qed.

Lemma preserves_as_object p : preserves proj (as_object p).
Proof. destruct p; cbn; auto using preserves_ret, preserves_raise. Qed.

Lemma preserves_py_truediv a b : preserves proj (py_truediv a b).
Proof. unfold py_truediv. destruct (Qeq_bool b 0); auto using preserves_ret, preserves_raise. Qed.

End Preserves.

Create HintDb frame.
#[local] Hint Resolve preserves_ret preserves_raise preserves_when preserves_if
  preserves_py_call preserves_get_self preserves_load_obj preserves_load_speed
  preserves_load_list preserves_list_getitem preserves_as_object
  preserves_py_truediv : frame.

(** Decompose a program along its binds and loops, then close the leaves
    with the frame lemmas of the primitives. *)
Ltac frame :=
  repeat first
    [ apply preserves_bind; [ | intros ? ]
    | apply preserves_for_each; intros ?
    | apply preserves_for_collect; intros ?
    | apply preserves_when
    | apply preserves_if
    | apply preserves_py_call
    | solve [ auto with frame ] ].

Lemma readonly_run {A} (m : M A) s : readonly m -> m s = (s, snd (m s)).
Proof. intros H. specialize (H s). destruct (m s) as [s' o]. cbn in *. now subst. Qed.

Lemma readonly_self_boxes : readonly self_boxes.
Proof. unfold readonly, self_boxes. frame. Qed.

Lemma readonly_self_platforms : readonly self_platforms.
Proof. unfold readonly, self_platforms. frame. Qed.

Lemma readonly_dist_to_first_player r : readonly (dist_to_first_player r).
Proof.
  unfold readonly, dist_to_first_player. frame.
Qed.

(** ** Side determination and the no-op (C6) *)

Lemma whatside_of_priority tol a b :
  let d_top := Z.abs (Rect.top a - Rect.bottom b) in
  let d_bottom := Z.abs (Rect.bottom a - Rect.top b) in
  let d_right := Z.abs (Rect.right a - Rect.left b) in
  let d_left := Z.abs (Rect.left a - Rect.right b) in
  (whatside_of tol a b = Some Top <-> d_top < tol) /\
  (whatside_of tol a b = Some Bottom <-> tol <= d_top /\ d_bottom < tol) /\
  (whatside_of tol a b = Some Right <->
     tol <= d_top /\ tol <= d_bottom /\ d_right < tol) /\
  (whatside_of tol a b = Some Left <->
     tol <= d_top /\ tol <= d_bottom /\ tol <= d_right /\ d_left < tol) /\
  (whatside_of tol a b = None <->
     tol <= d_top /\ tol <= d_bottom /\ tol <= d_right /\ tol <= d_left).
Proof.
  cbv zeta. unfold whatside_of.
  destruct (Z.ltb_spec (Z.abs (Rect.top a - Rect.bottom b)) tol);
  destruct (Z.ltb_spec (Z.abs (Rect.bottom a - Rect.top b)) tol);
  destruct (Z.ltb_spec (Z.abs (Rect.right a - Rect.left b)) tol);
  destruct (Z.ltb_spec (Z.abs (Rect.left a - Rect.right b)) tol);
  repeat split; intros; try discriminate; try reflexivity; lia.
Qed.

Lemma resolve_object_to_platform_noop s c r a b :
  item2 c = Ent r ->
  objs (mem s) !! item1 c = Some a ->
  objs (mem s) !! r = Some b ->
  whatside_of default_tolerance a b = None ->
  resolve_object_to_platform c s = (s, Ok tt).
Proof.
  intros E Ha Hb Hn. unfold resolve_object_to_platform.
  rewrite (bind_ok _ _ _ _ _ (whatside_ok _ _ _ _ _ _ E Ha Hb)), Hn.
  reflexivity.
Qed.

Lemma resolve_player_to_box_noop s c r a b :
  item2 c = Ent r ->
  objs (mem s) !! item1 c = Some a ->
  objs (mem s) !! r = Some b ->
  whatside_of default_tolerance a b = None ->
  resolve_player_to_box c s = (s, Ok tt).
Proof.
  intros E Ha Hb Hn. unfold resolve_player_to_box.
  rewrite (bind_ok _ _ _ _ _ (whatside_ok _ _ _ _ _ _ E Ha Hb)), Hn.
  reflexivity.
Qed.

Lemma resolve_box_to_box_noop s c r a b :
  item2 c = Ent r ->
  objs (mem s) !! item1 c = Some a ->
  objs (mem s) !! r = Some b ->
  whatside_of default_tolerance a b = None ->
  fst (resolve_box_to_box c s) = s /\
  (forall p0 ps op,
     lists (mem s) !! players_ref (self s) = Some (p0 :: ps) ->
     objs (mem s) !! p0 = Some op ->
     resolve_box_to_box c s = (s, Ok tt)).
Proof.
  intros E Ha Hb Hn. split.
  - unfold resolve_box_to_box. rewrite E. unfold bind at 1.
    rewrite (readonly_run _ s (readonly_dist_to_first_player (item1 c))).
    destruct (snd (dist_to_first_player (item1 c) s)) as [d1|e]; [|reflexivity].
    rewrite (bind_ok _ _ _ _ _ (as_object_ok _ _)). unfold bind at 1.
    rewrite (readonly_run _ s (readonly_dist_to_first_player r)).
    destruct (snd (dist_to_first_player r s)) as [d2|e]; [|reflexivity].
    rewrite (bind_ok _ _ _ _ _ (whatside_ok _ _ _ _ _ _ E Ha Hb)), Hn.
    reflexivity.
  - intros p0 ps op Hl Hp. unfold resolve_box_to_box. rewrite E.
    rewrite (bind_ok _ _ _ _ _ (dist_to_first_player_ok _ _ _ _ _ _ Hl Hp Ha)).
    rewrite (bind_ok _ _ _ _ _ (as_object_ok _ _)).
    rewrite (bind_ok _ _ _ _ _ (dist_to_first_player_ok _ _ _ _ _ _ Hl Hp Hb)).
    rewrite (bind_ok _ _ _ _ _ (whatside_ok _ _ _ _ _ _ E Ha Hb)), Hn.
    reflexivity.
Qed.

(** C6.  For an event of a side-dependent category between two entities,
    [whatside] returns the first of top, bottom, right, left whose edge
    distance is strictly below 31, and [None] when no distance is; in the
    latter case resolving the event leaves the whole state, hence both
    participants, as it was.  The resolution then also returns normally,
    except that a box-to-box event still reads [self.players[0]] first. *)
Theorem whatside_priority_then_noop s r1 r2 a b ct :
  ct = object_to_platform \/ ct = player_to_box \/ ct = box_to_box ->
  objs (mem s) !! r1 = Some a ->
  objs (mem s) !! r2 = Some b ->
  let c := mkCollision r1 (Ent r2) ct in
  let d_top := Z.abs (Rect.top a - Rect.bottom b) in
  let d_bottom := Z.abs (Rect.bottom a - Rect.top b) in
  let d_right := Z.abs (Rect.right a - Rect.left b) in
  let d_left := Z.abs (Rect.left a - Rect.right b) in
  exists sd,
    whatside c default_tolerance s = (s, Ok sd) /\
    (sd = Some Top <-> d_top < 31) /\
    (sd = Some Bottom <-> 31 <= d_top /\ d_bottom < 31) /\
    (sd = Some Right <-> 31 <= d_top /\ 31 <= d_bottom /\ d_right < 31) /\
    (sd = Some Left <-> 31 <= d_top /\ 31 <= d_bottom /\ 31 <= d_right /\ d_left < 31) /\
    (sd = None <-> 31 <= d_top /\ 31 <= d_bottom /\ 31 <= d_right /\ 31 <= d_left) /\
    (sd = None ->
     fst (resolve_collision c s) = s /\
     (ct <> box_to_box \/
      (exists p0 ps, lists (mem s) !! players_ref (self s) = Some (p0 :: ps) /\
                     is_Some (objs (mem s) !! p0)) ->
      resolve_collision c s = (s, Ok tt))).
Proof.
  intros Hct Ha Hb c d_top d_bottom d_right d_left.
  exists (whatside_of default_tolerance a b).
  split; [ apply (whatside_ok s c r2 a b); auto | ].
  destruct (whatside_of_priority default_tolerance a b) as (P1 & P2 & P3 & P4 & P5).
  repeat (split; [assumption|]).
  intros Hn. destruct Hct as [-> | [-> | ->]].
  - rewrite resolve_collision_object_to_platform by reflexivity.
    rewrite (resolve_object_to_platform_noop s c r2 a b); auto.
  - rewrite resolve_collision_player_to_box by reflexivity.
    rewrite (resolve_player_to_box_noop s c r2 a b); auto.
  - rewrite resolve_collision_box_to_box by reflexivity.
    destruct (resolve_box_to_box_noop s c r2 a b) as [F R]; auto.
    split; [exact F|]. intros [N | (p0 & ps & Hl & [op Hp])]; [congruence|].
    eapply R; eauto.
Qed.

(** ** The border (C9) *)

(** C9, as the code has it: resolving an object-to-border event returns
    normally and leaves the entity of that event inside the border,
    provided the entity is no wider and no taller than the world.  Nothing
    of the kind holds of the world after the settle phase: the phase runs
    no pass at all in a world without boxes, platforms, targets and the
    trigger zone are never tested, and events resolved later in a pass move
    entities again. *)
Theorem border_event_restores_bounds s r o :
  objs (mem s) !! r = Some o ->
  is_Some (speeds (mem s) !! speed_ref o) ->
  rect_w o <= space_w (self s) ->
  rect_h o <= space_h (self s) ->
  exists s' o',
    resolve_collision (mkCollision r Wall object_to_border) s = (s', Ok tt) /\
    self s' = self s /\
    objs (mem s') !! r = Some o' /\
    rect_w o' = rect_w o /\ rect_h o' = rect_h o /\
    within_border (self s) o'.
Proof.
  intros Ho [v Hv] Hw Hh.
  rewrite resolve_collision_object_to_border by reflexivity.
  rewrite <- bind_ret_tt. unfold resolve_object_to_border. heap_simpl.
  repeat (run;
          match goal with
          | |- context [ when ?c _ ] => destruct c eqn:?; cbn [when]
          end).
  all: run.
  all: eexists _, _; split; [reflexivity|]; heap_simpl.
  all: split; [reflexivity|].
  all: split; [solve [eauto 10 with run]|].
  all: unfold within_border, Rect.left, Rect.right, Rect.top, Rect.bottom,
         Rect.set_left, Rect.set_right, Rect.set_top, Rect.set_bottom, Rect.move_to in *;
       cbn [rect_x rect_y rect_w rect_h] in *; lia.
Qed.

(** C9 as the specification states it fails on [player_outside]: the world
    has no box, so the settle phase runs no pass, and the player is still
    left of the border (left edge at -500) when the phase is over. *)
Lemma player_outside_after_settle :
  exists s' o,
    settle pygame_colliderect player_outside = (s', Ok tt) /\
    players_of (self s') (mem s') = Some [0%nat] /\
    objs (mem s') !! 0%nat = Some o /\
    Rect.left o = -500 /\
    ~ within_border (self s') o.
Proof.
  eexists _, _. split; [reflexivity|].
  split; [reflexivity|]. split; [reflexivity|]. split; [reflexivity|].
  unfold within_border. cbn. lia.
Qed.

Lemma border_event_restores_bounds_witness :
  exists s' o',
    resolve_collision (mkCollision 0 Wall object_to_border) player_outside = (s', Ok tt) /\
    self s' = self player_outside /\
    objs (mem s') !! 0%nat = Some o' /\
    rect_w o' = 100 /\ rect_h o' = 200 /\
    within_border (self player_outside) o'.
Proof.
  apply (border_event_restores_bounds player_outside 0 (mkObject (-500) 500 100 200 100 None));
    first [ reflexivity | (eexists; reflexivity) | (cbn; lia) ].
Defined.

Lemma whatside_priority_then_noop_witness :
  exists sd,
    whatside (mkCollision 1 (Ent 2) box_to_box) default_tolerance nested_boxes
      = (nested_boxes, Ok sd) /\
    (sd = Some Top <-> 150 < 31) /\
    (sd = Some Bottom <-> 31 <= 150 /\ 50 < 31) /\
    (sd = Some Right <-> 31 <= 150 /\ 31 <= 50 /\ 50 < 31) /\
    (sd = Some Left <-> 31 <= 150 /\ 31 <= 50 /\ 31 <= 50 /\ 150 < 31) /\
    (sd = None <-> 31 <= 150 /\ 31 <= 50 /\ 31 <= 50 /\ 31 <= 150) /\
    (sd = None ->
     fst (resolve_collision (mkCollision 1 (Ent 2) box_to_box) nested_boxes) = nested_boxes /\
     (box_to_box <> box_to_box \/
      (exists p0 ps,
         lists (mem nested_boxes) !! players_ref (self nested_boxes) = Some (p0 :: ps) /\
         is_Some (objs (mem nested_boxes) !! p0)) ->
      resolve_collision (mkCollision 1 (Ent 2) box_to_box) nested_boxes
        = (nested_boxes, Ok tt))).
Proof.
  apply (whatside_priority_then_noop nested_boxes 1 2
           (mkObject 100 800 100 100 100 None) (mkObject 150 850 100 100 100 None)
           box_to_box);
    first [ reflexivity | (right; right; reflexivity) ].
Defined.

(** ** Unknown categories (C4) *)

(** C4, as the code has it: [add_object] with a category outside the five
    known ones raises nothing.  For arguments whose scaled values are C
    [int]s (the rectangle is built before the category is looked at), it
    builds the object, appends it to no list, leaves every attribute of
    the world and every list as they were, and returns the new object. *)
Theorem add_object_unknown_category_ignored s x y w h type :
  rect_args_fit (self s) x y w h ->
  type <> "target"%string -> type <> "player"%string -> type <> "box"%string ->
  type <> "platform"%string -> type <> "thinkingbox"%string ->
  add_object x y w h type s =
    (mkState (self s)
       (mkHeap (objs (mem s) ++
                  [mkObject (x * upscale (self s)) (y * upscale (self s))
                            (w * upscale (self s)) (h * upscale (self s))
                            (upscale (self s)) None])
               (speeds (mem s)) (lists (mem s))),
     Ok (length (objs (mem s)))).
Proof.
  intros _ N1 N2 N3 N4 N5. unfold add_object.
  apply String.eqb_neq in N1, N2, N3, N4, N5.
  rewrite N1, N2, N3, N4, N5. reflexivity.
Qed.

Lemma add_object_unknown_category_ignored_witness :
  rect_args_fit (self fresh_world) 1 1 1 1 /\
  add_object 1 1 1 1 "wall" fresh_world =
    (mkState (self fresh_world)
       (mkHeap [mkObject 100 100 100 100 100 None] [(0%Q, 0%Q)] [[]; []; []; []]),
     Ok 0%nat).
Proof.
  assert (F : rect_args_fit (self fresh_world) 1 1 1 1)
    by (unfold rect_args_fit, c_int; cbn; lia).
  split; [exact F|].
  apply (add_object_unknown_category_ignored fresh_world 1 1 1 1 "wall" F); discriminate.
Defined.

(** C4 as the specification states it fails: an unknown category is not
    rejected, the call returns a handle. *)
Lemma add_object_unknown_category_returns :
  snd (add_object 1 1 1 1 "wall" fresh_world) = Ok 0%nat /\
  forall e, snd (add_object 1 1 1 1 "wall" fresh_world) <> Raise e.
Proof. split; [reflexivity | intros e; discriminate]. Qed.

(** ** Detection is a read-only pass over the entities (C8) *)

Lemma preserves_mem_set_self f : preserves mem (set_self f).
Proof. intros s. reflexivity. Qed.

Lemma preserves_self_update_obj r f : preserves self (update_obj r f).
Proof. intros s. unfold update_obj. destruct (objs (mem s) !! r); reflexivity. Qed.

Lemma preserves_self_update_speed l f : preserves self (update_speed l f).
Proof. intros s. unfold update_speed. destruct (speeds (mem s) !! l); reflexivity. Qed.

#[local] Hint Resolve preserves_mem_set_self preserves_self_update_obj
  preserves_self_update_speed : frame.

Section DetectionFrame.
Variable colliderect : Object -> Object -> bool.
Context {X : Type} (proj : state -> X).

Lemma preserves_check_list item rect_list ctype :
  preserves proj (check_list colliderect item rect_list ctype).
Proof. unfold check_list, load_objs. frame. Qed.

Lemma preserves_check_borders item : preserves proj (check_borders item).
Proof.
  unfold check_borders. frame.
Qed.

Lemma preserves_check_sametype itemlist ctype :
  preserves proj (check_sametype colliderect itemlist ctype).
Proof.
  unfold check_sametype. frame.
Qed.

Lemma preserves_thinkingbox_truthy : preserves proj thinkingbox_truthy.
Proof.
  unfold thinkingbox_truthy. frame.
  match goal with |- context [ match ?c with Some _ => _ | None => _ end ] => destruct c end;
    frame.
Qed.

End DetectionFrame.

Lemma preserves_mem_check_playerinthinking_body player :
  preserves mem (check_playerinthinking_body player).
Proof.
  unfold check_playerinthinking_body. frame.
  match goal with |- context [ match ?c with Some _ => _ | None => _ end ] => destruct c end;
    frame.
Qed.

Lemma preserves_mem_check_collisions colliderect :
  preserves mem (check_collisions colliderect).
Proof.
  unfold check_collisions, self_boxes, self_targets, self_platforms, self_players.
  repeat first
    [ apply preserves_check_list
    | apply preserves_check_borders
    | apply preserves_check_sametype
    | apply preserves_thinkingbox_truthy
    | apply preserves_mem_check_playerinthinking_body
    | apply preserves_bind; [ | intros ? ]
    | apply preserves_for_collect; intros ?
    | apply preserves_when
    | apply preserves_py_call
    | solve [ auto with frame ] ].
Qed.

(** C8.  The detection pass mutates no entity: whatever the state, and
    whether the pass returns its list of events or raises, the store
    afterwards is the store before, so every entity has the position, size
    and velocity it had. *)
Theorem check_collisions_mutates_no_entity colliderect s :
  let s' := fst (check_collisions colliderect s) in
  mem s' = mem s /\
  (forall r, objs (mem s') !! r = objs (mem s) !! r) /\
  (forall r, entity_speed (mem s') r = entity_speed (mem s) r).
Proof.
  cbv zeta. pose proof (preserves_mem_check_collisions colliderect s) as H.
  rewrite H. auto.
Qed.

(** ** Gravity and integration *)

Lemma py_truediv_ok a fps s :
  fps <> 0 -> py_truediv a (inject_Z fps) s = (s, Ok (a / inject_Z fps)%Q).
Proof.
  intros N. unfold py_truediv.
  destruct (Qeq_bool (inject_Z fps) 0) eqn:E; [|reflexivity].
  apply Qeq_bool_eq in E. unfold Qeq in E. cbn in E. lia.
Qed.










Lemma preserves_lists_update_obj r f : preserves (fun s => lists (mem s)) (update_obj r f).
Proof. intros s. unfold update_obj. destruct (objs (mem s) !! r); reflexivity. Qed.

Lemma preserves_lists_update_speed l f :
  preserves (fun s => lists (mem s)) (update_speed l f).
Proof. intros s. unfold update_speed. destruct (speeds (mem s) !! l); reflexivity. Qed.

#[local] Hint Resolve preserves_lists_update_obj preserves_lists_update_speed : frame.



(** ** Rounding, and ticks without rounding error *)

(** [py_round] is [round]: it returns an integer nearest to its argument,
    the even one on a tie, and there is one such integer only. *)
Lemma py_round_rounds_to q : rounds_to q (py_round q).
Proof.
  unfold rounds_to, py_round. cbv zeta.
  pose proof (Qfloor_le q) as Hl. pose proof (Qlt_floor q) as Hu.
  rewrite inject_Z_plus in Hu. change (inject_Z 1) with 1%Q in Hu.
  destruct (Qcompare_spec (q - inject_Z (Qfloor q)) (1 # 2)) as [E|L|G].
  - destruct (Z.even (Qfloor q)) eqn:Ev.
    + split; [split; lra|]. intros _. exact Ev.
    + rewrite inject_Z_plus; change (inject_Z 1) with 1%Q.
      split; [split; lra|]. intros _. rewrite Z.even_add, Ev. reflexivity.
  - split; [split; lra|]. intros [H|H]; lra.
  - rewrite inject_Z_plus; change (inject_Z 1) with 1%Q.
    split; [split; lra|]. intros [H|H]; lra.
Qed.

Lemma rounds_to_unique q z z' : rounds_to q z -> rounds_to q z' -> z = z'.
Proof.
  intros [[A1 A2] A3] [[B1 B2] B3].
  assert (H1 : z <= z' + 1).
  { rewrite Zle_Qle, inject_Z_plus. change (inject_Z 1) with 1%Q. lra. }
  assert (H2 : z' <= z + 1).
  { rewrite Zle_Qle, inject_Z_plus. change (inject_Z 1) with 1%Q. lra. }
  destruct (Z.eq_dec z z') as [|N]; [assumption|exfalso].
  assert (C : z = z' + 1 \/ z' = z + 1) by lia.
  destruct C as [-> | ->]; rewrite inject_Z_plus in *; change (inject_Z 1) with 1%Q in *.
  - assert (Ez : Z.even (z' + 1) = true) by (apply A3; left; lra).
    assert (Ez' : Z.even z' = true) by (apply B3; right; lra).
    rewrite Z.even_add, Ez' in Ez. discriminate.
  - assert (Ez : Z.even (z + 1) = true) by (apply B3; left; lra).
    assert (Ez' : Z.even z = true) by (apply A3; right; lra).
    rewrite Z.even_add, Ez' in Ez. discriminate.
Qed.

Lemma rounds_to_comp q q' z : (q == q')%Q -> rounds_to q z -> rounds_to q' z.
Proof.
  intros E [[A1 A2] A3]. split; [split; lra|].
  intros [H|H]; apply A3; [left|right]; lra.
Qed.

Lemma binary64_comp q q' : (q == q')%Q -> binary64 q -> binary64 q'.
Proof. intros E (m & e & Hm & He & Hq). exists m, e. rewrite <- E. auto. Qed.

(** An operation whose exact result is a binary64 number returns it. *)
Lemma correctly_rounded_exact q q' f :
  (q == q')%Q -> binary64 q' -> correctly_rounded q f -> (f == q')%Q.
Proof.
  intros E B [_ N]. specialize (N q' B).
  assert (Z0 : (q' - q == 0)%Q) by (rewrite E; ring).
  rewrite Z0 in N. change (Qabs 0) with 0%Q in N.
  apply Qabs_Qle_condition in N. destruct N as [N1 N2]. lra.
Qed.



(** ** A tick in a world without boxes (C10) *)




(** The tick of the witness, computed: the player falls from y = 500 to
    y = 502 (500 + 9800 / 64 / 64 = 502.39...) and stays at x = -500,
    outside the world: the border contact is not resolved. *)
Example tick_of_player_outside_at_64 :
  let s' := fst (step pygame_colliderect 64 player_outside) in
  snd (step pygame_colliderect 64 player_outside) = Ok tt /\
  objs (mem player_outside) = [mkObject (-500) 500 100 200 100 None] /\
  objs (mem s') = [mkObject (-500) 502 100 200 100 None] /\
  entity_speed (mem s') 0 = Some (0%Q, 9800 # 64).
Proof. cbv zeta. repeat split; vm_compute; reflexivity. Qed.

(** ** The framerate (C5) *)




(** ** The trigger zone (C7) *)

(** C7 on [player_in_zone], where a player stands inside the trigger zone
    with both edges aligned: the detection pass raises [TypeError] at the
    call [check_playerinthinking(player)] and the flag stays false, although
    the test of the function body, run on its own, sets the flag. *)
Theorem trigger_zone_detection_raises :
  check_collisions pygame_colliderect player_in_zone = (player_in_zone, Raise TypeError) /\
  thinkingbox (self player_in_zone) = Some 0%nat /\
  players_of (self player_in_zone) (mem player_in_zone) = Some [1%nat] /\
  player_in_thinkingbox (self (fst (check_collisions pygame_colliderect player_in_zone)))
    = false /\
  player_in_thinkingbox (self (fst (check_playerinthinking_body 1 player_in_zone))) = true.
Proof. repeat split; vm_compute; reflexivity. Qed.

Lemma readonly_check_list colliderect item rect_list ctype :
  readonly (check_list colliderect item rect_list ctype).
Proof. apply preserves_check_list. Qed.

Lemma readonly_check_borders item : readonly (check_borders item).
Proof. apply preserves_check_borders. Qed.

Lemma readonly_check_sametype colliderect itemlist ctype :
  readonly (check_sametype colliderect itemlist ctype).
Proof. apply preserves_check_sametype. Qed.

Lemma bind_readonly {A B} (m : M A) (k : A -> M B) s :
  readonly m ->
  bind m k s = match snd (m s) with
               | Ok a => k a s
               | Raise e => (s, Raise e)
               end.
Proof. intros H. unfold bind. rewrite (readonly_run m s H). reflexivity. Qed.

(** The same in general: with a trigger zone of non-zero area and at least
    one player, the detection pass never returns a list of events. *)
Lemma trigger_zone_detection_never_returns colliderect s t tb p ps :
  thinkingbox (self s) = Some t ->
  objs (mem s) !! t = Some tb ->
  Rect.truthy tb = true ->
  lists (mem s) !! players_ref (self s) = Some (p :: ps) ->
  exists e, check_collisions colliderect s = (s, Raise e).
Proof.
  intros Ht Htb Htruthy Hp.
  assert (Hof_boxes : readonly
    (boxes <- self_boxes ;;
     for_collect boxes (fun box =>
       targets <- self_targets ;;
       c1 <- check_list colliderect box targets box_to_target ;;
       platforms <- self_platforms ;;
       c2 <- check_list colliderect box platforms object_to_platform ;;
       c3 <- check_borders box ;;
       ret (c1 ++ c2 ++ c3)))).
  { unfold readonly, self_boxes, self_targets, self_platforms.
    repeat first [ apply preserves_check_list | apply preserves_check_borders
                 | apply preserves_bind; [ | intros ? ]
                 | apply preserves_for_collect; intros ?
                 | solve [ auto with frame ] ]. }
  unfold check_collisions.
  rewrite (bind_readonly _ _ s Hof_boxes).
  match goal with |- context [ match ?o with Ok _ => _ | Raise _ => _ end ] =>
    destruct o as [of_boxes|e] end; [|eauto].
  rewrite (bind_readonly _ _ s readonly_self_boxes).
  destruct (snd (self_boxes s)) as [boxes|e]; [|eauto].
  rewrite (bind_readonly _ _ s (readonly_check_sametype _ _ _)).
  match goal with |- context [ match ?o with Ok _ => _ | Raise _ => _ end ] =>
    destruct o as [box_pairs|e] end; [|eauto].
  rewrite bind_assoc.
  rewrite (bind_ok _ _ _ _ _ (self_players_ok _ _ Hp)).
  cbn [for_collect]. rewrite !bind_assoc.
  rewrite (bind_readonly _ _ s readonly_self_platforms).
  destruct (snd (self_platforms s)) as [platforms|e]; [|eauto].
  rewrite !bind_assoc.
  rewrite (bind_readonly _ _ s (readonly_check_list _ _ _ _)).
  match goal with |- context [ match ?o with Ok _ => _ | Raise _ => _ end ] =>
    destruct o as [c1|e] end; [|eauto].
  rewrite !bind_assoc.
  rewrite (bind_readonly _ _ s readonly_self_boxes).
  destruct (snd (self_boxes s)) as [boxes'|e]; [|eauto].
  rewrite !bind_assoc.
  rewrite (bind_readonly _ _ s (readonly_check_list _ _ _ _)).
  match goal with |- context [ match ?o with Ok _ => _ | Raise _ => _ end ] =>
    destruct o as [c2|e] end; [|eauto].
  rewrite !bind_assoc.
  rewrite (bind_readonly _ _ s (readonly_check_borders _)).
  match goal with |- context [ match ?o with Ok _ => _ | Raise _ => _ end ] =>
    destruct o as [c3|e] end; [|eauto].
  rewrite !bind_assoc.
  assert (Htruth : thinkingbox_truthy s = (s, Ok true)).
  { unfold thinkingbox_truthy. rewrite (bind_ok _ _ _ _ _ (get_self_ok s)), Ht.
    rewrite (bind_ok _ _ _ _ _ (load_obj_ok _ _ _ Htb)), Htruthy. reflexivity. }
  rewrite (bind_ok _ _ _ _ _ Htruth).
  exists TypeError. reflexivity.
Qed.

(** ** One velocity list for every entity (C2) *)

(** The gravity loop over entities that all read their velocity from one
    list object [l]: the increment [gravity / fps] is added to that list
    once per entity. *)
Lemma apply_gravity_shared_list fps ds : forall s l vx vy,
  fps <> 0 ->
  speeds (mem s) !! l = Some (vx, vy) ->
  Forall (fun r => exists o, objs (mem s) !! r = Some o /\ speed_ref o = l) ds ->
  apply_gravity fps ds s =
    (mkState (self s)
       (mkHeap (objs (mem s))
          (<[l := (vx, Nat.iter (length ds)
                         (fun v => (v + inject_Z (gravity (self s)) / inject_Z fps)%Q) vy)]>
             (speeds (mem s)))
          (lists (mem s))),
     Ok tt).
Proof.
  induction ds as [|d ds IH]; intros s l vx vy N Hl F.
  - change (Nat.iter (length []) _ vy) with vy. rewrite (list_insert_id _ _ _ Hl).
    destruct s as [sp [os vs ls]]. reflexivity.
  - inversion F as [|? ? (o & Ho & <-) Fds]; subst.
    unfold apply_gravity in *. cbn [for_each]. run.
    rewrite (bind_ok _ _ _ _ _ (py_truediv_ok _ _ _ N)). run.
    erewrite IH; heap_simpl; eauto with run.
    rewrite list_insert_insert_eq. cbn [length]. rewrite Nat.iter_succ_r. reflexivity.
Qed.

(** C2 on [two_players], a world of two players and no box: both players
    read their velocity from the list [Object.speed], so one tick at 60
    frames per second adds [gravity / fps] to it twice, and each player's
    vertical velocity grows by 2 * 9800 / 60 instead of 9800 / 60. *)
Theorem gravity_added_once_per_entity_to_shared_speed :
  let s' := fst (step pygame_colliderect 60 two_players) in
  snd (step pygame_colliderect 60 two_players) = Ok tt /\
  entity_speed (mem two_players) 0 = Some (0%Q, 0%Q) /\
  entity_speed (mem two_players) 1 = Some (0%Q, 0%Q) /\
  exists vy,
    entity_speed (mem s') 0 = Some (0%Q, vy) /\
    entity_speed (mem s') 1 = Some (0%Q, vy) /\
    (vy == 2 * (9800 / 60))%Q /\
    ~ (vy == 0 + 9800 / 60)%Q.
Proof.
  cbv zeta. split; [reflexivity|]. split; [reflexivity|]. split; [reflexivity|].
  eexists. split; [vm_compute; reflexivity|]. split; [vm_compute; reflexivity|].
  split; [reflexivity|]. intros H. vm_compute in H. discriminate.
Qed.

(** ** One list of entities for every world (C3) *)

(** C3 on two worlds of one program: a box added to [world_a] is appended
    to the list [Space.boxes], which is also what [world_b] reads as its
    boxes.  Attributes that the methods assign on the instance, here the
    trigger zone, are not shared; and once [world_b] has been [reset], its
    lists are its own. *)
Theorem entity_lists_shared_between_worlds :
  let a := mkState world_a module_loaded in
  let after (type : string) := mem (fst (add_object 1 1 1 1 type a)) in
  let b_reset := fst (reset (mkState world_b module_loaded)) in
  let after_reset (type : string) :=
    mem (fst (add_object 1 1 1 1 type (mkState world_a (mem b_reset)))) in
  (boxes_of world_b module_loaded = Some [] /\
   boxes_of world_b (after "box"%string) = Some [0%nat]) /\
  (players_of world_b module_loaded = Some [] /\
   players_of world_b (after "player"%string) = Some [0%nat]) /\
  (targets_of world_b module_loaded = Some [] /\
   targets_of world_b (after "target"%string) = Some [0%nat]) /\
  (platforms_of world_b module_loaded = Some [] /\
   platforms_of world_b (after "platform"%string) = Some [0%nat]) /\
  (thinkingbox (self (fst (add_object 1 1 1 1 "thinkingbox" a))) = Some 0%nat /\
   thinkingbox world_b = None) /\
  (boxes_of (self b_reset) (mem b_reset) = Some [] /\
   boxes_of (self b_reset) (after_reset "box"%string) = Some [] /\
   players_of (self b_reset) (after_reset "player"%string) = Some [] /\
   targets_of (self b_reset) (after_reset "target"%string) = Some [] /\
   platforms_of (self b_reset) (after_reset "platform"%string) = Some []).
Proof. cbv zeta. repeat split. Qed.

(** ** Further checks of the model on concrete worlds *)

(** [round] is Python's: ties go to the even neighbour. *)
Example py_round_ties_to_even :
  py_round (5 # 2) = 2 /\ py_round (7 # 2) = 4 /\
  py_round (-5 # 2) = -2 /\ py_round (-7 # 2) = -4 /\
  py_round (26 # 10) = 3 /\ py_round (-26 # 10) = -3.
Proof. repeat split. Qed.

(** The scenario of the specification: one tick at 60 frames per second
    gives the falling player the vertical velocity 98 * 100 / 60 and moves
    it down by round(velocity / 60) = 3 internal units. *)
Example free_fall_first_tick :
  let s' := fst (step pygame_colliderect 60 free_fall) in
  snd (step pygame_colliderect 60 free_fall) = Ok tt /\
  entity_speed (mem s') 1 = Some (0%Q, 9800 # 60) /\
  Rect.topleft <$> objs (mem free_fall) !! 1%nat = Some (500, 500) /\
  Rect.topleft <$> objs (mem s') !! 1%nat = Some (500, 503) /\
  py_round (9800 # 3600) = 3.
Proof. cbv zeta. repeat split; vm_compute; reflexivity. Qed.

(** Also with a box in the world the settle phase can end with an entity
    across the border: the border event of the box is resolved first and
    pulls the box in (to x = 1900), the player-to-box event of the same pass
    then pushes it to the player's right edge (x = 1920, right edge 2020). *)
Example pushed_box_outside_after_settle :
  exists s' o,
    settle pygame_colliderect box_at_wall = (s', Ok tt) /\
    snd (check_collisions pygame_colliderect box_at_wall)
      = Ok [mkCollision 1 Wall object_to_border; mkCollision 0 (Ent 1) player_to_box] /\
    objs (mem s') !! 1%nat = Some o /\
    Rect.right o = 2020 /\
    ~ within_border (self s') o.
Proof.
  eexists _, _. split; [vm_compute; reflexivity|].
  split; [vm_compute; reflexivity|]. split; [reflexivity|]. split; [reflexivity|].
  intros (_ & _ & C & _). vm_compute in C. apply C. reflexivity.
Qed.

(** * Further properties of the module *)

(** ** Rounding *)

Lemma py_round_inject_Z z : py_round (inject_Z z) = z.
Proof.
  unfold py_round. rewrite Qfloor_Z.
  assert (E : (inject_Z z - inject_Z z == 0)%Q) by ring.
  rewrite (Qcompare_comp _ _ E (1 # 2) (1 # 2) (Qeq_refl _)). reflexivity.
Qed.

Lemma py_round_comp q q' : (q == q')%Q -> py_round q = py_round q'.
Proof.
  intros E. unfold py_round. rewrite (Qfloor_comp _ _ E).
  assert (E' : (q - inject_Z (Qfloor q') == q' - inject_Z (Qfloor q'))%Q)
    by (rewrite E; reflexivity).
  rewrite (Qcompare_comp _ _ E' (1 # 2) (1 # 2) (Qeq_refl _)). reflexivity.
Qed.

Lemma py_round_scaled x u : u <> 0 -> py_round (inject_Z (x * u) / inject_Z u) = x.
Proof.
  intros N. rewrite <- (py_round_inject_Z x) at 2. apply py_round_comp.
  rewrite inject_Z_mult. apply Qdiv_mult_l.
  unfold Qeq, inject_Z. cbn. lia.
Qed.

(** ** [add_object], [get_position], [reset] *)

Lemma preserves_objs_list_append l r :
  preserves (fun s => objs (mem s)) (list_append l r).
Proof. intros s. unfold list_append. destruct (lists (mem s) !! l); reflexivity. Qed.

Lemma preserves_speeds_list_append l r :
  preserves (fun s => speeds (mem s)) (list_append l r).
Proof. intros s. unfold list_append. destruct (lists (mem s) !! l); reflexivity. Qed.

Lemma preserves_objs_set_self f : preserves (fun s => objs (mem s)) (set_self f).
Proof. intros s. reflexivity. Qed.

Lemma preserves_speeds_set_self f : preserves (fun s => speeds (mem s)) (set_self f).
Proof. intros s. reflexivity. Qed.

(** What [add_object] does to the store of objects and velocities, for
    every category string. *)
Lemma add_object_store s s' x y w h type r :
  add_object x y w h type s = (s', Ok r) ->
  r = length (objs (mem s)) /\
  objs (mem s') =
    objs (mem s) ++ [mkObject (x * upscale (self s)) (y * upscale (self s))
                              (w * upscale (self s)) (h * upscale (self s))
                              (upscale (self s)) None] /\
  speeds (mem s') = speeds (mem s).
Proof.
  unfold add_object. rewrite (bind_ok _ _ _ _ _ (get_self_ok s)).
  unfold bind at 1. unfold alloc_obj at 1.
  set (s1 := mkState _ _).
  set (rest := (when (type =? "target")%string _ ;; _)).
  intros H.
  assert (Ho : objs (mem (fst (rest s1))) = objs (mem s1)).
  { subst rest.
    apply (preserves_bind (fun s => objs (mem s))); [|intros ?].
    { apply preserves_when, preserves_objs_list_append. }
    apply preserves_bind; [|intros ?].
    { apply preserves_when, preserves_objs_list_append. }
    apply preserves_bind; [|intros ?].
    { apply preserves_when, preserves_objs_list_append. }
    apply preserves_bind; [|intros ?].
    { apply preserves_when, preserves_objs_list_append. }
    apply preserves_bind; [|intros ?].
    { apply preserves_when, preserves_objs_set_self. }
    apply preserves_ret. }
  assert (Hv : speeds (mem (fst (rest s1))) = speeds (mem s1)).
  { subst rest.
    apply (preserves_bind (fun s => speeds (mem s))); [|intros ?].
    { apply preserves_when, preserves_speeds_list_append. }
    apply preserves_bind; [|intros ?].
    { apply preserves_when, preserves_speeds_list_append. }
    apply preserves_bind; [|intros ?].
    { apply preserves_when, preserves_speeds_list_append. }
    apply preserves_bind; [|intros ?].
    { apply preserves_when, preserves_speeds_list_append. }
    apply preserves_bind; [|intros ?].
    { apply preserves_when, preserves_speeds_set_self. }
    apply preserves_ret. }
  rewrite H in Ho, Hv. cbn [fst] in Ho, Hv.
  assert (Hr : r = length (objs (mem s))).
  { subst rest. revert H. unfold bind.
    repeat match goal with
           | |- context [ match ?m ?st with (_, _) => _ end ] =>
               destruct (m st) as [? [[]|?]]
           end; cbn; intros H; inversion H; reflexivity. }
  auto.
Qed.

(** A quotient that [get_position] forms is an integer that binary64
    holds, when the dividend is a C [int]. *)
Lemma scaled_quotient_binary64 x u :
  u <> 0 -> c_int (x * u) ->
  (inject_Z (x * u) / inject_Z u == inject_Z x)%Q /\ binary64 (inject_Z x).
Proof.
  intros N [L U]. split.
  - rewrite inject_Z_mult. apply Qdiv_mult_l. unfold Qeq, inject_Z. cbn. lia.
  - exists x, 0. split; [|split; [lia|]].
    + assert (Z.abs x <= Z.abs (x * u)) by (rewrite Z.abs_mul; nia). lia.
    + change (2 ^ 0)%Q with 1%Q. ring.
Qed.

(** X1.  The position an entity is created with is the position it
    displays: in a world whose upscale is not 0, and for arguments whose
    scaled values are C [int]s, [get_position] of the handle that
    [add_object] returned is [(x, y)] again, for every category.  The two
    true divisions of [get_position] are exact in binary64 as well: a
    binary64 number nearest to a quotient rounds to [x], respectively
    [y]. *)
Theorem get_position_after_add_object s s' x y w h type r :
  upscale (self s) <> 0 ->
  rect_args_fit (self s) x y w h ->
  add_object x y w h type s = (s', Ok r) ->
  get_position r s' = (s', Ok (x, y)) /\
  (forall fx fy x' y',
     correctly_rounded (inject_Z (x * upscale (self s)) / inject_Z (upscale (self s))) fx ->
     correctly_rounded (inject_Z (y * upscale (self s)) / inject_Z (upscale (self s))) fy ->
     rounds_to fx x' -> rounds_to fy y' -> x' = x /\ y' = y).
Proof.
  intros N (Fx & Fy & _ & _) H. split.
  - destruct (add_object_store _ _ _ _ _ _ _ _ H) as (-> & Ho & _).
    assert (Hl : objs (mem s') !! length (objs (mem s))
                 = Some (mkObject (x * upscale (self s)) (y * upscale (self s))
                                  (w * upscale (self s)) (h * upscale (self s))
                                  (upscale (self s)) None)).
    { rewrite Ho. rewrite lookup_app_r by lia. rewrite Nat.sub_diag. reflexivity. }
    unfold get_position. rewrite (bind_ok _ _ _ _ _ (load_obj_ok _ _ _ Hl)).
    cbn [Rect.topleft rect_x rect_y obj_upscale fst snd].
    rewrite (bind_ok _ _ _ _ _ (py_truediv_ok _ _ _ N)).
    rewrite (bind_ok _ _ _ _ _ (py_truediv_ok _ _ _ N)).
    unfold ret. rewrite !py_round_scaled by assumption. reflexivity.
  - intros fx fy x' y' Rx Ry Hx Hy.
    destruct (scaled_quotient_binary64 x _ N Fx) as [Ex Bx].
    destruct (scaled_quotient_binary64 y _ N Fy) as [Ey By].
    pose proof (correctly_rounded_exact _ _ _ Ex Bx Rx) as Efx.
    pose proof (correctly_rounded_exact _ _ _ Ey By Ry) as Efy.
    split.
    + apply (rounds_to_unique (inject_Z x)); [exact (rounds_to_comp _ _ _ Efx Hx)|].
      rewrite <- (py_round_inject_Z x) at 2. apply py_round_rounds_to.
    + apply (rounds_to_unique (inject_Z y)); [exact (rounds_to_comp _ _ _ Efy Hy)|].
      rewrite <- (py_round_inject_Z y) at 2. apply py_round_rounds_to.
Qed.

Lemma get_position_after_add_object_witness :
  let s' := fst (add_object (-5) 5 1 2 "player" fresh_world) in
  rect_args_fit (self fresh_world) (-5) 5 1 2 /\
  get_position 0 s' = (s', Ok (-5, 5)) /\
  (forall fx fy x' y',
     correctly_rounded (inject_Z (-5 * 100) / inject_Z 100) fx ->
     correctly_rounded (inject_Z (5 * 100) / inject_Z 100) fy ->
     rounds_to fx x' -> rounds_to fy y' -> x' = -5 /\ y' = 5).
Proof.
  intros s'.
  assert (F : rect_args_fit (self fresh_world) (-5) 5 1 2)
    by (unfold rect_args_fit, c_int; cbn; lia).
  split; [exact F|].
  apply (get_position_after_add_object fresh_world _ (-5) 5 1 2 "player" 0%nat);
    [ discriminate | exact F | reflexivity ].
Defined.

Lemma lookup_snoc_end {A} (l : list A) (x : A) : (l ++ [x]) !! length l = Some x.
Proof. apply list_lookup_middle. reflexivity. Qed.

Lemma lookup_snoc_old {A} (l : list A) (x y : A) i :
  l !! i = Some y -> (l ++ [x]) !! i = Some y.
Proof. apply lookup_app_l_Some. Qed.

(** X2.  [reset] always returns, and afterwards the world reads four empty
    collections, no trigger zone, a counter of 0 and both flags false, while
    its dimensions are kept.  It creates exactly four list objects and binds
    them on the instance, one to each of the four attributes: the four
    references are pairwise distinct and none of them was a list of the
    store before.  No object and no velocity is touched, and every list
    that existed keeps its content, so the entities stay visible to
    whoever still holds the old lists. *)
Theorem reset_clears_the_world s :
  exists s',
    reset s = (s', Ok tt) /\
    (targets_of (self s') (mem s') = Some [] /\
     players_of (self s') (mem s') = Some [] /\
     boxes_of (self s') (mem s') = Some [] /\
     platforms_of (self s') (mem s') = Some []) /\
    (targets_engaged (self s') = 0 /\ thinkingbox (self s') = None /\
     player_on_ground (self s') = false /\ player_in_thinkingbox (self s') = false) /\
    (space_w (self s') = space_w (self s) /\ space_h (self s') = space_h (self s) /\
     gravity (self s') = gravity (self s) /\ upscale (self s') = upscale (self s)) /\
    (objs (mem s') = objs (mem s) /\ speeds (mem s') = speeds (mem s) /\
     forall l v, lists (mem s) !! l = Some v -> lists (mem s') !! l = Some v) /\
    (forall l, l = targets_ref (self s') \/ l = players_ref (self s') \/
               l = boxes_ref (self s') \/ l = platforms_ref (self s') ->
               lists (mem s) !! l = None) /\
    (lists (mem s') = lists (mem s) ++ [[]; []; []; []] /\
     inst_targets (self s') = Some (length (lists (mem s))) /\
     inst_players (self s') = Some (S (length (lists (mem s)))) /\
     inst_boxes (self s') = Some (S (S (length (lists (mem s))))) /\
     inst_platforms (self s') = Some (S (S (S (length (lists (mem s))))))) /\
    NoDup [targets_ref (self s'); players_ref (self s');
           boxes_ref (self s'); platforms_ref (self s')].
Proof.
  destruct s as [sp [os vs ls]].
  eexists. split; [reflexivity|].
  cbn [self mem objs speeds lists targets_of players_of boxes_of platforms_of
       targets_ref players_ref boxes_ref platforms_ref
       with_targets with_targets_engaged with_players with_boxes with_platforms
       with_thinkingbox with_player_on_ground with_player_in_thinkingbox
       inst_targets inst_players inst_boxes inst_platforms default
       space_w space_h gravity upscale].
  unfold id. rewrite ?length_app. cbn [length].
  replace (length ls + 1)%nat with (S (length ls)) by lia.
  replace (S (length ls) + 1)%nat with (S (S (length ls))) by lia.
  replace (S (S (length ls)) + 1)%nat with (S (S (S (length ls)))) by lia.
  assert (Hl : forall (a b c d : list loc),
             ((((ls ++ [a]) ++ [b]) ++ [c]) ++ [d]) = ls ++ [a; b; c; d]).
  { intros a b c d. rewrite <- !app_assoc. reflexivity. }
  rewrite Hl.
  unfold targets_of, players_of, boxes_of, platforms_of,
    targets_ref, players_ref, boxes_ref, platforms_ref,
    targets_engaged, thinkingbox, player_on_ground, player_in_thinkingbox.
  cbn [self mem objs speeds lists
       with_targets with_targets_engaged with_players with_boxes with_platforms
       with_thinkingbox with_player_on_ground with_player_in_thinkingbox
       inst_targets inst_players inst_boxes inst_platforms inst_targets_engaged
       inst_thinkingbox inst_player_on_ground inst_player_in_thinkingbox default
       space_w space_h gravity upscale].
  unfold id.
  split; [|split; [|split; [|split; [|split; [|split]]]]].
  - repeat split; rewrite lookup_app_r by lia.
    + replace (length ls - length ls)%nat with 0%nat by lia. reflexivity.
    + replace (S (length ls) - length ls)%nat with 1%nat by lia. reflexivity.
    + replace (S (S (length ls)) - length ls)%nat with 2%nat by lia. reflexivity.
    + replace (S (S (S (length ls))) - length ls)%nat with 3%nat by lia. reflexivity.
  - repeat split.
  - repeat split.
  - repeat split. intros l v H. apply lookup_app_l_Some. exact H.
  - intros l H. apply lookup_ge_None. lia.
  - repeat split.
  - repeat (constructor; [rewrite ?elem_of_cons, elem_of_nil; lia|]). constructor.
Qed.

(** X3.  [add_object] with one of the four list categories, and with
    arguments whose scaled values are C [int]s, returns a handle that was
    not an object before, appends it at the end of the list that the
    category names, and changes nothing else: the world's attributes,
    every other list, every earlier object and every velocity are as they
    were.  The new object has the scaled geometry and no velocity of its
    own. *)
Theorem add_object_appends_fresh_handle s x y w h type l refs :
  rect_args_fit (self s) x y w h ->
  (type = "target"%string /\ l = targets_ref (self s)) \/
  (type = "player"%string /\ l = players_ref (self s)) \/
  (type = "box"%string /\ l = boxes_ref (self s)) \/
  (type = "platform"%string /\ l = platforms_ref (self s)) ->
  lists (mem s) !! l = Some refs ->
  let r := length (objs (mem s)) in
  let o := mkObject (x * upscale (self s)) (y * upscale (self s))
                    (w * upscale (self s)) (h * upscale (self s))
                    (upscale (self s)) None in
  objs (mem s) !! r = None /\
  add_object x y w h type s =
    (mkState (self s)
       (mkHeap (objs (mem s) ++ [o]) (speeds (mem s))
               (<[l := refs ++ [r]]> (lists (mem s)))),
     Ok r).
Proof.
  intros _ Hc Hl r o. split; [apply lookup_ge_None; unfold r; lia|].
  unfold add_object. rewrite (bind_ok _ _ _ _ _ (get_self_ok s)).
  unfold bind at 1. unfold alloc_obj at 1. fold r o.
  destruct Hc as [[-> ->] | [[-> ->] | [[-> ->] | [-> ->]]]];
    repeat match goal with
           | |- context [ String.eqb ?a ?b ] =>
               let v := eval vm_compute in (String.eqb a b) in
               change (String.eqb a b) with v
           end;
    cbn [when]; rewrite ?ret_bind;
    (erewrite bind_ok by (unfold list_append; heap_simpl; rewrite Hl; reflexivity));
    reflexivity.
Qed.

Lemma add_object_appends_fresh_handle_witness :
  rect_args_fit (self two_players) 1 1 1 1 /\
  objs (mem two_players) !! 2%nat = None /\
  add_object 1 1 1 1 "box" two_players =
    (mkState (self two_players)
       (mkHeap (objs (mem two_players) ++ [mkObject 100 100 100 100 100 None])
               (speeds (mem two_players))
               (<[2%nat := [] ++ [2%nat]]> (lists (mem two_players)))),
     Ok 2%nat).
Proof.
  assert (F : rect_args_fit (self two_players) 1 1 1 1)
    by (unfold rect_args_fit, c_int; cbn; lia).
  split; [exact F|].
  apply (add_object_appends_fresh_handle two_players 1 1 1 1 "box" 2%nat []);
    [ exact F | right; right; left; split; reflexivity | reflexivity ].
Defined.

(** ** The detection pass, function by function *)

Lemma for_collect_flat_map {A B} (xs : list A) (body : A -> M (list B)) (f : A -> list B) s :
  Forall (fun x => body x s = (s, Ok (f x))) xs ->
  for_collect xs body s = (s, Ok (flat_map f xs)).
Proof.
  induction 1 as [|x xs Hx _ IH]; [reflexivity|].
  cbn [for_collect flat_map].
  rewrite (bind_ok _ _ _ _ _ Hx), (bind_ok _ _ _ _ _ IH). reflexivity.
Qed.

Lemma load_objs_ok s refs :
  all_objects (mem s) refs ->
  exists os, load_objs refs s = (s, Ok os) /\
             Forall2 (fun r o => objs (mem s) !! r = Some o) refs os.
Proof.
  induction 1 as [|r refs [o Ho] _ (os & E & F)].
  - exists []. split; [reflexivity | constructor].
  - exists (o :: os). split; [|constructor; assumption].
    unfold load_objs in *. cbn [for_collect].
    rewrite bind_assoc, (bind_ok _ _ _ _ _ (load_obj_ok _ _ _ Ho)), ret_bind.
    rewrite (bind_ok _ _ _ _ _ E). reflexivity.
Qed.

Section DetectionRuns.
Variable colliderect : Object -> Object -> bool.

Lemma check_borders_run s r o :
  objs (mem s) !! r = Some o ->
  check_borders r s = (s, Ok (border_events (self s) (mem s) r)).
Proof.
  intros Ho. unfold check_borders, border_events, outside. rewrite Ho.
  rewrite (bind_ok _ _ _ _ _ (load_obj_ok _ _ _ Ho)).
  rewrite (bind_ok _ _ _ _ _ (get_self_ok s)).
  match goal with |- context [ if ?c then _ else _ ] => destruct c end; reflexivity.
Qed.

Lemma collect_colliding s item o ct : forall refs os pre,
  objs (mem s) !! item = Some o ->
  Forall2 (fun r ob => objs (mem s) !! r = Some ob) refs os ->
  for_collect
    (map fst (filter (fun p => colliderect o (snd p))
                     (imap (fun i ob => ((length pre + i)%nat, ob)) os)))
    (fun i => other <- list_getitem (pre ++ refs) i ;;
              ret [mkCollision item (Ent other) ct]) s
  = (s, Ok (list_events colliderect (mem s) item refs ct)).
Proof.
  intros refs os pre Ho F. revert pre.
  induction F as [|r ob refs os Hr F IH]; intros pre; [reflexivity|].
  cbn [imap]. unfold list_events. cbn [List.filter].
  assert (Hc : collides colliderect (mem s) item r = colliderect o ob)
    by (unfold collides; rewrite Ho, Hr; reflexivity).
  rewrite Hc.
  assert (Hrest :
    for_collect
      (map fst (filter (fun p => colliderect o (snd p))
                  (imap ((fun i ob0 => ((length pre + i)%nat, ob0)) ∘ S) os)))
      (fun i => other <- list_getitem (pre ++ r :: refs) i ;;
                ret [mkCollision item (Ent other) ct]) s
    = (s, Ok (list_events colliderect (mem s) item refs ct))).
  { specialize (IH (pre ++ [r])). rewrite <- app_assoc in IH. cbn [app] in IH.
    rewrite <- IH. f_equal. f_equal. f_equal. apply imap_ext. intros i x _.
    unfold compose. rewrite length_app. cbn [length]. f_equal. lia. }
  rewrite filter_cons. cbn [snd].
  destruct (colliderect o ob) eqn:E.
  - rewrite decide_True by exact I. cbn [map fst for_collect].
    rewrite bind_assoc.
    erewrite bind_ok
      by (apply list_getitem_ok; rewrite Nat.add_0_r; apply list_lookup_middle; reflexivity).
    rewrite ret_bind. rewrite (bind_ok _ _ _ _ _ Hrest). reflexivity.
  - rewrite decide_False by (intros []). exact Hrest.
Qed.

Lemma check_list_run s item rect_list ct o :
  objs (mem s) !! item = Some o ->
  all_objects (mem s) rect_list ->
  check_list colliderect item rect_list ct s
    = (s, Ok (list_events colliderect (mem s) item rect_list ct)).
Proof.
  intros Ho A. destruct (load_objs_ok s rect_list A) as (os & E & F).
  unfold check_list. rewrite (bind_ok _ _ _ _ _ (load_obj_ok _ _ _ Ho)).
  rewrite (bind_ok _ _ _ _ _ E). unfold collidelistall.
  exact (collect_colliding s item o ct rect_list os [] Ho F).
Qed.

End DetectionRuns.

Section SameTypeRuns.
Variable colliderect : Object -> Object -> bool.

(** The inner loop of [check_sametype] for the item at position
    [item1_i]: it walks the items after that position. *)
Lemma sametype_inner s itemlist ct first o1 shift : forall rest j,
  objs (mem s) !! first = Some o1 ->
  all_objects (mem s) rest ->
  (forall k b, rest !! k = Some b -> itemlist !! (j + k + shift)%nat = Some b) ->
  for_collect (seq j (length rest))
    (fun k =>
       second <- list_getitem itemlist (k + shift) ;;
       o1 <- load_obj first ;;
       o2 <- load_obj second ;;
       if colliderect o1 o2
       then ret [mkCollision first (Ent second) ct]
       else ret []) s
  = (s, Ok (map (fun p => mkCollision (fst p) (Ent (snd p)) ct)
              (List.filter (fun p => collides colliderect (mem s) (fst p) (snd p))
                 (map (pair first) rest)))).
Proof.
  intros rest j Ho A. revert j.
  induction A as [|b rest [ob Hb] _ IH]; intros j Hidx; [reflexivity|].
  cbn [length seq for_collect map List.filter fst snd].
  assert (Hhead : itemlist !! (j + shift)%nat = Some b).
  { specialize (Hidx 0%nat b eq_refl). rewrite Nat.add_0_r in Hidx. exact Hidx. }
  rewrite bind_assoc, (bind_ok _ _ _ _ _ (list_getitem_ok _ _ _ _ Hhead)).
  rewrite bind_assoc, (bind_ok _ _ _ _ _ (load_obj_ok _ _ _ Ho)).
  rewrite bind_assoc, (bind_ok _ _ _ _ _ (load_obj_ok _ _ _ Hb)).
  assert (Hc : collides colliderect (mem s) first b = colliderect o1 ob)
    by (unfold collides; rewrite Ho, Hb; reflexivity).
  rewrite Hc.
  assert (Hrest := IH (S j)).
  lapply Hrest; [clear Hrest; intros Hrest|].
  2:{ intros k b' Hk. specialize (Hidx (S k) b' Hk).
      replace (S j + k + shift)%nat with (j + S k + shift)%nat by lia. exact Hidx. }
  destruct (colliderect o1 ob); rewrite ret_bind, (bind_ok _ _ _ _ _ Hrest); reflexivity.
Qed.

Lemma sametype_outer s itemlist ct : forall suf pre,
  itemlist = pre ++ suf ->
  all_objects (mem s) suf ->
  for_collect (imap (fun i r => ((length pre + i)%nat, r)) suf)
    (fun p =>
       let item1_i := fst p in
       let first := snd p in
       for_collect (seq 0 (length itemlist - (item1_i + 1)))
         (fun k =>
            let item2_i := (k + (item1_i + 1))%nat in
            second <- list_getitem itemlist item2_i ;;
            o1 <- load_obj first ;;
            o2 <- load_obj second ;;
            if colliderect o1 o2
            then ret [mkCollision first (Ent second) ct]
            else ret [])) s
  = (s, Ok (pair_events colliderect (mem s) suf ct)).
Proof.
  intros suf pre E A. revert pre E.
  induction A as [|a rest [oa Ha] A IH]; intros pre E; [reflexivity|].
  cbn [imap for_collect]. cbv zeta. cbn [fst snd].
  assert (Hlen : (length itemlist - (length pre + 0 + 1) = length rest)%nat).
  { rewrite E, length_app. cbn [length]. lia. }
  rewrite Hlen.
  assert (Hidx : forall k b, rest !! k = Some b ->
                 itemlist !! (0 + k + (length pre + 0 + 1))%nat = Some b).
  { intros k b Hk. rewrite E. apply lookup_app_Some. right. split; [lia|].
    replace (0 + k + (length pre + 0 + 1) - length pre)%nat with (S k) by lia.
    exact Hk. }
  rewrite (bind_ok _ _ _ _ _
             (sametype_inner s itemlist ct a oa (length pre + 0 + 1) rest 0 Ha A Hidx)).
  assert (Hrest := IH (pre ++ [a])).
  rewrite <- app_assoc in Hrest. specialize (Hrest E).
  erewrite (imap_ext _ (fun i r => ((length (pre ++ [a]) + i)%nat, r))).
  2:{ intros i x _. unfold compose. rewrite length_app. cbn [length]. f_equal. lia. }
  rewrite (bind_ok _ _ _ _ _ Hrest).
  unfold pair_events. cbn [unordered_pairs].
  rewrite List.filter_app, map_app. reflexivity.
Qed.

Lemma check_sametype_run s itemlist ct :
  all_objects (mem s) itemlist ->
  check_sametype colliderect itemlist ct s
    = (s, Ok (pair_events colliderect (mem s) itemlist ct)).
Proof.
  intros A. unfold check_sametype.
  exact (sametype_outer s itemlist ct itemlist [] eq_refl A).
Qed.

End SameTypeRuns.

(** ** Pairs of positions *)

Lemma unordered_pairs_fst_snd {A} (l : list A) a b :
  In (a, b) (unordered_pairs l) -> In a l /\ In b l.
Proof.
  induction l as [|x l IH]; cbn [unordered_pairs]; [intros []|].
  intros H. apply in_app_or in H. destruct H as [H|H].
  - apply in_map_iff in H. destruct H as (y & E & Hy). inversion E; subst.
    split; [left; reflexivity | right; exact Hy].
  - destruct (IH H). split; right; assumption.
Qed.

Lemma in_unordered_pairs {A} (l : list A) a b :
  In (a, b) (unordered_pairs l) <->
  exists i j, (i < j)%nat /\ l !! i = Some a /\ l !! j = Some b.
Proof.
  induction l as [|x l IH]; cbn [unordered_pairs].
  - split; [intros [] | intros (i & j & _ & H & _); discriminate].
  - rewrite in_app_iff, in_map_iff, IH. split.
    + intros [(y & E & Hy) | (i & j & Hij & Hi & Hj)].
      * inversion E; subst. apply list_elem_of_In, list_elem_of_lookup in Hy.
        destruct Hy as [j Hj]. exists 0%nat, (S j). repeat split; [lia | exact Hj].
      * exists (S i), (S j). repeat split; [lia | exact Hi | exact Hj].
    + intros (i & j & Hij & Hi & Hj). destruct j as [|j]; [lia|]. cbn in Hj.
      destruct i as [|i].
      * cbn in Hi. inversion Hi; subst. left. exists b. split; [reflexivity|].
        apply list_elem_of_In, list_elem_of_lookup. eauto.
      * cbn in Hi. right. exists i, j. repeat split; [lia | exact Hi | exact Hj].
Qed.

Lemma length_unordered_pairs {A} (l : list A) :
  (2 * length (unordered_pairs l) = length l * (length l - 1))%nat.
Proof.
  induction l as [|x l IH]; [reflexivity|].
  cbn [unordered_pairs]. rewrite length_app, length_map. cbn [length]. nia.
Qed.

Lemma NoDup_unordered_pairs {A} (l : list A) : NoDup l -> NoDup (unordered_pairs l).
Proof.
  induction 1 as [|x l Hx Hl IH]; cbn [unordered_pairs]; [constructor|].
  apply NoDup_app. split; [|split].
  - apply NoDup_fmap_2; [|exact Hl]. intros y z E. inversion E; reflexivity.
  - intros [a b] H1 H2. apply list_elem_of_In in H1, H2.
    apply in_map_iff in H1. destruct H1 as (y & E & _). inversion E; subst.
    apply unordered_pairs_fst_snd in H2. destruct H2 as [H2 _].
    apply Hx, list_elem_of_In, H2.
  - exact IH.
Qed.

(** ** What each detection function returns *)

(** X4.  The border test of the detection pass is the border property:
    for an existing entity [check_borders] reads only, and yields no event
    exactly when the entity lies within the border, and otherwise the one
    event that pairs the entity with the wall. *)
Theorem border_event_iff_outside_border s r o :
  objs (mem s) !! r = Some o ->
  exists evs,
    check_borders r s = (s, Ok evs) /\
    (within_border (self s) o -> evs = []) /\
    (~ within_border (self s) o -> evs = [mkCollision r Wall object_to_border]).
Proof.
  intros Ho. exists (border_events (self s) (mem s) r).
  split; [apply (check_borders_run s r o Ho)|].
  unfold border_events, outside, within_border. rewrite Ho.
  destruct (Rect.left o <? 0) eqn:E1; destruct (Rect.right o >? space_w (self s)) eqn:E2;
    destruct (Rect.top o <? 0) eqn:E3; destruct (Rect.bottom o >? space_h (self s)) eqn:E4;
    cbn [orb]; split; intros H; try reflexivity; exfalso; lia.
Qed.

Lemma border_event_iff_outside_border_witness :
  exists evs,
    check_borders 0 player_outside = (player_outside, Ok evs) /\
    (within_border (self player_outside) (mkObject (-500) 500 100 200 100 None) -> evs = []) /\
    (~ within_border (self player_outside) (mkObject (-500) 500 100 200 100 None) ->
     evs = [mkCollision 0 Wall object_to_border]).
Proof.
  apply (border_event_iff_outside_border player_outside 0
           (mkObject (-500) 500 100 200 100 None)).
  reflexivity.
Defined.

(** X5.  [check_list] reads only, and its events are the members of the
    list that collide with the item, in the order of the list and with the
    multiplicity they have in it. *)
Theorem check_list_events_are_the_colliding_members colliderect s item rect_list ct o :
  objs (mem s) !! item = Some o ->
  all_objects (mem s) rect_list ->
  exists evs,
    check_list colliderect item rect_list ct s = (s, Ok evs) /\
    evs = map (fun r => mkCollision item (Ent r) ct)
              (List.filter (collides colliderect (mem s) item) rect_list) /\
    (forall r, In (mkCollision item (Ent r) ct) evs <->
               In r rect_list /\ collides colliderect (mem s) item r = true) /\
    (length evs <= length rect_list)%nat.
Proof.
  intros Ho A. eexists. split; [apply (check_list_run colliderect s item rect_list ct o Ho A)|].
  unfold list_events. split; [reflexivity|]. split.
  - intros r. rewrite in_map_iff. split.
    + intros (r' & E & H). inversion E; subst. apply filter_In in H. exact H.
    + intros H. exists r. split; [reflexivity | apply filter_In; exact H].
  - rewrite length_map. apply List.filter_length_le.
Qed.

Lemma check_list_events_are_the_colliding_members_witness :
  exists evs,
    check_list pygame_colliderect 0 [1%nat] player_to_box box_at_wall = (box_at_wall, Ok evs) /\
    evs = map (fun r => mkCollision 0 (Ent r) player_to_box)
              (List.filter (collides pygame_colliderect (mem box_at_wall) 0) [1%nat]) /\
    (forall r, In (mkCollision 0 (Ent r) player_to_box) evs <->
               In r [1%nat] /\ collides pygame_colliderect (mem box_at_wall) 0 r = true) /\
    (length evs <= length [1%nat])%nat.
Proof.
  apply (check_list_events_are_the_colliding_members pygame_colliderect box_at_wall 0
           [1%nat] player_to_box (mkObject 1820 700 100 200 100 None)).
  - reflexivity.
  - constructor; [eexists; reflexivity | constructor].
Defined.

(** X6.  [check_sametype] reads only and tests every pair of positions
    [i < j] of the list once, in lexicographic order: its events are the
    colliding ones among those pairs.  So there are at most n(n-1)/2 of
    them, and in a list without repetition no entity is paired with
    itself, no pair comes twice and no pair comes in both orders. *)
Theorem check_sametype_tests_each_pair_once colliderect s itemlist ct :
  all_objects (mem s) itemlist ->
  exists evs,
    check_sametype colliderect itemlist ct s = (s, Ok evs) /\
    evs = map (fun p => mkCollision (fst p) (Ent (snd p)) ct)
              (List.filter (fun p => collides colliderect (mem s) (fst p) (snd p))
                 (unordered_pairs itemlist)) /\
    (forall a b, In (mkCollision a (Ent b) ct) evs <->
       (exists i j, (i < j)%nat /\ itemlist !! i = Some a /\ itemlist !! j = Some b) /\
       collides colliderect (mem s) a b = true) /\
    (2 * length evs <= length itemlist * (length itemlist - 1))%nat /\
    (NoDup itemlist ->
     NoDup evs /\
     (forall a, ~ In (mkCollision a (Ent a) ct) evs) /\
     (forall a b, In (mkCollision a (Ent b) ct) evs -> ~ In (mkCollision b (Ent a) ct) evs)).
Proof.
  intros A. eexists. split; [apply (check_sametype_run colliderect s itemlist ct A)|].
  unfold pair_events. split; [reflexivity|].
  assert (Hin : forall a b,
    In (mkCollision a (Ent b) ct)
       (map (fun p => mkCollision (fst p) (Ent (snd p)) ct)
          (List.filter (fun p => collides colliderect (mem s) (fst p) (snd p))
             (unordered_pairs itemlist))) <->
    (exists i j, (i < j)%nat /\ itemlist !! i = Some a /\ itemlist !! j = Some b) /\
    collides colliderect (mem s) a b = true).
  { intros a b. rewrite in_map_iff. split.
    - intros ([a' b'] & E & H). cbn in E. inversion E; subst.
      apply filter_In in H. destruct H as [H C]. apply in_unordered_pairs in H. auto.
    - intros [H C]. exists (a, b). split; [reflexivity|].
      apply filter_In. split; [apply in_unordered_pairs; exact H | exact C]. }
  split; [exact Hin|]. split.
  - rewrite length_map, <- length_unordered_pairs.
    pose proof (List.filter_length_le
                  (fun p => collides colliderect (mem s) (fst p) (snd p))
                  (unordered_pairs itemlist)). lia.
  - intros ND. split; [|split].
    + apply NoDup_fmap_2.
      * intros [a b] [a' b'] E. cbn in E. inversion E; reflexivity.
      * apply NoDup_ListNoDup, List.NoDup_filter, NoDup_ListNoDup,
          NoDup_unordered_pairs, ND.
    + intros a H. apply Hin in H. destruct H as [(i & j & Hij & Hi & Hj) _].
      pose proof (NoDup_lookup _ _ _ _ ND Hi Hj). lia.
    + intros a b H H'. apply Hin in H, H'.
      destruct H as [(i & j & Hij & Hi & Hj) _].
      destruct H' as [(i' & j' & Hij' & Hi' & Hj') _].
      pose proof (NoDup_lookup _ _ _ _ ND Hi Hj').
      pose proof (NoDup_lookup _ _ _ _ ND Hj Hi'). lia.
Qed.

Lemma check_sametype_tests_each_pair_once_witness :
  exists evs,
    check_sametype pygame_colliderect [1%nat; 2%nat] box_to_box pushed_boxes
      = (pushed_boxes, Ok evs) /\
    evs = map (fun p => mkCollision (fst p) (Ent (snd p)) box_to_box)
              (List.filter
                 (fun p => collides pygame_colliderect (mem pushed_boxes) (fst p) (snd p))
                 (unordered_pairs [1%nat; 2%nat])) /\
    (forall a b, In (mkCollision a (Ent b) box_to_box) evs <->
       (exists i j, (i < j)%nat /\ [1%nat; 2%nat] !! i = Some a /\
                    [1%nat; 2%nat] !! j = Some b) /\
       collides pygame_colliderect (mem pushed_boxes) a b = true) /\
    (2 * length evs <= length [1%nat; 2%nat] * (length [1%nat; 2%nat] - 1))%nat /\
    (NoDup [1%nat; 2%nat] ->
     NoDup evs /\
     (forall a, ~ In (mkCollision a (Ent a) box_to_box) evs) /\
     (forall a b, In (mkCollision a (Ent b) box_to_box) evs ->
                  ~ In (mkCollision b (Ent a) box_to_box) evs)).
Proof.
  apply (check_sametype_tests_each_pair_once pygame_colliderect pushed_boxes
           [1%nat; 2%nat] box_to_box).
  constructor; [eexists; reflexivity|]. constructor; [eexists; reflexivity|]. constructor.
Defined.

(** ** The whole detection pass *)

Lemma self_targets_ok s ts :
  lists (mem s) !! targets_ref (self s) = Some ts -> self_targets s = (s, Ok ts).
Proof.
  intros H. unfold self_targets. rewrite (bind_ok _ _ _ _ _ (get_self_ok s)).
  now apply load_list_ok.
Qed.

Lemma self_platforms_ok s ps :
  lists (mem s) !! platforms_ref (self s) = Some ps -> self_platforms s = (s, Ok ps).
Proof.
  intros H. unfold self_platforms. rewrite (bind_ok _ _ _ _ _ (get_self_ok s)).
  now apply load_list_ok.
Qed.

Lemma thinkingbox_falsy s :
  thinkingbox (self s) = None \/
  (exists t tb, thinkingbox (self s) = Some t /\ objs (mem s) !! t = Some tb /\
                Rect.truthy tb = false) ->
  thinkingbox_truthy s = (s, Ok false).
Proof.
  intros [H | (t & tb & H & Ht & Hf)]; unfold thinkingbox_truthy;
    rewrite (bind_ok _ _ _ _ _ (get_self_ok s)), H; [reflexivity|].
  rewrite (bind_ok _ _ _ _ _ (load_obj_ok _ _ _ Ht)), Hf. reflexivity.
Qed.

Lemma check_collisions_run colliderect s targets players boxes platforms :
  lists (mem s) !! targets_ref (self s) = Some targets ->
  lists (mem s) !! players_ref (self s) = Some players ->
  lists (mem s) !! boxes_ref (self s) = Some boxes ->
  lists (mem s) !! platforms_ref (self s) = Some platforms ->
  all_objects (mem s) targets -> all_objects (mem s) players ->
  all_objects (mem s) boxes -> all_objects (mem s) platforms ->
  players = [] \/ thinkingbox (self s) = None \/
    (exists t tb, thinkingbox (self s) = Some t /\ objs (mem s) !! t = Some tb /\
                  Rect.truthy tb = false) ->
  check_collisions colliderect s
    = (s, Ok (detected colliderect (self s) (mem s) targets players boxes platforms)).
Proof.
  intros Ht Hp Hb Hpl At Ap Ab Apl Hzone.
  unfold check_collisions, detected.
  rewrite bind_assoc, (bind_ok _ _ _ _ _ (self_boxes_ok _ _ Hb)).
  erewrite bind_ok.
  2:{ apply for_collect_flat_map. eapply Forall_impl; [exact Ab|].
      intros box [ob Hob]. cbv beta.
      rewrite (bind_ok _ _ _ _ _ (self_targets_ok _ _ Ht)).
      rewrite (bind_ok _ _ _ _ _ (check_list_run colliderect s box targets _ ob Hob At)).
      rewrite (bind_ok _ _ _ _ _ (self_platforms_ok _ _ Hpl)).
      rewrite (bind_ok _ _ _ _ _ (check_list_run colliderect s box platforms _ ob Hob Apl)).
      rewrite (bind_ok _ _ _ _ _ (check_borders_run s box ob Hob)).
      reflexivity. }
  rewrite (bind_ok _ _ _ _ _ (self_boxes_ok _ _ Hb)).
  rewrite (bind_ok _ _ _ _ _ (check_sametype_run colliderect s boxes _ Ab)).
  rewrite bind_assoc, (bind_ok _ _ _ _ _ (self_players_ok _ _ Hp)).
  erewrite bind_ok.
  2:{ apply for_collect_flat_map. destruct Hzone as [-> | Hzone]; [constructor|].
      eapply Forall_impl; [exact Ap|].
      intros player [op Hop]. cbv beta.
      rewrite (bind_ok _ _ _ _ _ (self_platforms_ok _ _ Hpl)).
      rewrite (bind_ok _ _ _ _ _ (check_list_run colliderect s player platforms _ op Hop Apl)).
      rewrite (bind_ok _ _ _ _ _ (self_boxes_ok _ _ Hb)).
      rewrite (bind_ok _ _ _ _ _ (check_list_run colliderect s player boxes _ op Hop Ab)).
      rewrite (bind_ok _ _ _ _ _ (check_borders_run s player op Hop)).
      rewrite (bind_ok _ _ _ _ _ (thinkingbox_falsy s Hzone)).
      reflexivity. }
  rewrite (bind_ok _ _ _ _ _ (self_players_ok _ _ Hp)).
  rewrite (bind_ok _ _ _ _ _ (check_sametype_run colliderect s players _ Ap)).
  reflexivity.
Qed.

Lemma in_list_events colliderect hp item rect_list ct c :
  In c (list_events colliderect hp item rect_list ct) ->
  item1 c = item /\ collision_type c = ct /\ exists r, item2 c = Ent r /\ In r rect_list.
Proof.
  unfold list_events. rewrite in_map_iff. intros (r & <- & H).
  apply filter_In in H. destruct H as [H _]. cbn. eauto.
Qed.

Lemma in_border_events sp hp item c :
  In c (border_events sp hp item) ->
  item1 c = item /\ collision_type c = object_to_border /\ item2 c = Wall.
Proof.
  unfold border_events. destruct (objs hp !! item) as [o|]; [|intros []].
  destruct (outside sp o); [|intros []]. intros [<- | []]. auto.
Qed.

Lemma in_pair_events colliderect hp itemlist ct c :
  In c (pair_events colliderect hp itemlist ct) ->
  In (item1 c) itemlist /\ collision_type c = ct /\
  exists r, item2 c = Ent r /\ In r itemlist.
Proof.
  unfold pair_events. rewrite in_map_iff. intros ([a b] & <- & H).
  apply filter_In in H. destruct H as [H _].
  apply unordered_pairs_fst_snd in H. destruct H. cbn. eauto.
Qed.

(** X7.  In a world whose four lists hold objects, and that has no player
    or no trigger zone of non-zero area, the detection pass returns, reads
    only, and its list is, in this order: for each box its targets, its
    platforms and its border event; the pairs of boxes; for each player
    its platforms, its boxes and its border event; the pairs of
    players. *)
Theorem check_collisions_lists_every_contact colliderect s targets players boxes platforms :
  lists (mem s) !! targets_ref (self s) = Some targets ->
  lists (mem s) !! players_ref (self s) = Some players ->
  lists (mem s) !! boxes_ref (self s) = Some boxes ->
  lists (mem s) !! platforms_ref (self s) = Some platforms ->
  all_objects (mem s) targets -> all_objects (mem s) players ->
  all_objects (mem s) boxes -> all_objects (mem s) platforms ->
  players = [] \/ thinkingbox (self s) = None \/
    (exists t tb, thinkingbox (self s) = Some t /\ objs (mem s) !! t = Some tb /\
                  Rect.truthy tb = false) ->
  check_collisions colliderect s =
    (s, Ok (flat_map (fun box =>
                        list_events colliderect (mem s) box targets box_to_target
                        ++ list_events colliderect (mem s) box platforms object_to_platform
                        ++ border_events (self s) (mem s) box) boxes
            ++ pair_events colliderect (mem s) boxes box_to_box
            ++ flat_map (fun player =>
                           list_events colliderect (mem s) player platforms object_to_platform
                           ++ list_events colliderect (mem s) player boxes player_to_box
                           ++ border_events (self s) (mem s) player) players
            ++ pair_events colliderect (mem s) players player_to_player)).
Proof. apply check_collisions_run. Qed.

Lemma check_collisions_lists_every_contact_witness :
  check_collisions pygame_colliderect box_at_wall =
    (box_at_wall,
     Ok (flat_map (fun box =>
                     list_events pygame_colliderect (mem box_at_wall) box [] box_to_target
                     ++ list_events pygame_colliderect (mem box_at_wall) box []
                          object_to_platform
                     ++ border_events (self box_at_wall) (mem box_at_wall) box) [1%nat]
         ++ pair_events pygame_colliderect (mem box_at_wall) [1%nat] box_to_box
         ++ flat_map (fun player =>
                        list_events pygame_colliderect (mem box_at_wall) player []
                          object_to_platform
                        ++ list_events pygame_colliderect (mem box_at_wall) player [1%nat]
                             player_to_box
                        ++ border_events (self box_at_wall) (mem box_at_wall) player)
              [0%nat]
         ++ pair_events pygame_colliderect (mem box_at_wall) [0%nat] player_to_player)).
Proof.
  apply (check_collisions_lists_every_contact pygame_colliderect box_at_wall
           [] [0%nat] [1%nat] []);
    [ reflexivity | reflexivity | reflexivity | reflexivity
    | constructor
    | constructor; [eexists; reflexivity | constructor]
    | constructor; [eexists; reflexivity | constructor]
    | constructor
    | right; left; reflexivity ].
Defined.

(** X8.  The events of a detection pass that returns are typed by the
    lists their participants come from: the wall is the partner of border
    events and of no other; the first participant is always a box or a
    player, never a platform or target entry; targets and platforms only
    occur as second participants of box-to-target and object-to-platform
    events. *)
Theorem detected_events_are_typed colliderect s targets players boxes platforms :
  lists (mem s) !! targets_ref (self s) = Some targets ->
  lists (mem s) !! players_ref (self s) = Some players ->
  lists (mem s) !! boxes_ref (self s) = Some boxes ->
  lists (mem s) !! platforms_ref (self s) = Some platforms ->
  all_objects (mem s) targets -> all_objects (mem s) players ->
  all_objects (mem s) boxes -> all_objects (mem s) platforms ->
  players = [] \/ thinkingbox (self s) = None \/
    (exists t tb, thinkingbox (self s) = Some t /\ objs (mem s) !! t = Some tb /\
                  Rect.truthy tb = false) ->
  exists evs,
    check_collisions colliderect s = (s, Ok evs) /\
    Forall well_formed_event evs /\
    forall c, In c evs ->
      In (item1 c) (boxes ++ players) /\
      ((collision_type c = object_to_border /\ item2 c = Wall) \/
       (collision_type c = box_to_target /\ In (item1 c) boxes /\
        exists r, item2 c = Ent r /\ In r targets) \/
       (collision_type c = object_to_platform /\
        exists r, item2 c = Ent r /\ In r platforms) \/
       (collision_type c = player_to_box /\ In (item1 c) players /\
        exists r, item2 c = Ent r /\ In r boxes) \/
       (collision_type c = box_to_box /\ In (item1 c) boxes /\
        exists r, item2 c = Ent r /\ In r boxes) \/
       (collision_type c = player_to_player /\ In (item1 c) players /\
        exists r, item2 c = Ent r /\ In r players)).
Proof.
  intros Ht Hp Hb Hpl At Ap Ab Apl Hzone. eexists.
  split; [apply (check_collisions_run colliderect s targets players boxes platforms);
          assumption|].
  assert (Htyped : forall c,
    In c (detected colliderect (self s) (mem s) targets players boxes platforms) ->
    In (item1 c) (boxes ++ players) /\
    ((collision_type c = object_to_border /\ item2 c = Wall) \/
     (collision_type c = box_to_target /\ In (item1 c) boxes /\
      exists r, item2 c = Ent r /\ In r targets) \/
     (collision_type c = object_to_platform /\
      exists r, item2 c = Ent r /\ In r platforms) \/
     (collision_type c = player_to_box /\ In (item1 c) players /\
      exists r, item2 c = Ent r /\ In r boxes) \/
     (collision_type c = box_to_box /\ In (item1 c) boxes /\
      exists r, item2 c = Ent r /\ In r boxes) \/
     (collision_type c = player_to_player /\ In (item1 c) players /\
      exists r, item2 c = Ent r /\ In r players))).
  { intros c. unfold detected. rewrite !in_app_iff, !in_flat_map.
    intros [(box & Hbox & H) | [H | [(player & Hplayer & H) | H]]].
    - rewrite !in_app_iff in H. destruct H as [H | [H | H]].
      + apply in_list_events in H. destruct H as (<- & E & r & E2 & Hr).
        split; [tauto|]. right; left. eauto.
      + apply in_list_events in H. destruct H as (<- & E & r & E2 & Hr).
        split; [tauto|]. right; right; left. eauto.
      + apply in_border_events in H. destruct H as (<- & E & E2).
        split; [tauto|]. left. eauto.
    - apply in_pair_events in H. destruct H as (H1 & E & r & E2 & Hr).
      split; [tauto|]. do 4 right; left. eauto.
    - rewrite !in_app_iff in H. destruct H as [H | [H | H]].
      + apply in_list_events in H. destruct H as (<- & E & r & E2 & Hr).
        split; [tauto|]. right; right; left. eauto.
      + apply in_list_events in H. destruct H as (<- & E & r & E2 & Hr).
        split; [tauto|]. do 3 right; left. eauto.
      + apply in_border_events in H. destruct H as (<- & E & E2).
        split; [tauto|]. left. eauto.
    - apply in_pair_events in H. destruct H as (H1 & E & r & E2 & Hr).
      split; [tauto|]. do 5 right. eauto. }
  split; [|exact Htyped].
  apply List.Forall_forall. intros c Hc. destruct (Htyped c Hc) as [_ H].
  unfold well_formed_event.
  destruct H as [[E W] | [(E & _ & r & E2 & _) | [(E & r & E2 & _) |
                [(E & _ & r & E2 & _) | [(E & _ & r & E2 & _) | (E & _ & r & E2 & _)]]]]];
    [left; auto | right ..]; (split; [eauto | tauto]).
Qed.

Lemma detected_events_are_typed_witness :
  exists evs,
    check_collisions pygame_colliderect box_at_wall = (box_at_wall, Ok evs) /\
    Forall well_formed_event evs /\
    forall c, In c evs ->
      In (item1 c) ([1%nat] ++ [0%nat]) /\
      ((collision_type c = object_to_border /\ item2 c = Wall) \/
       (collision_type c = box_to_target /\ In (item1 c) [1%nat] /\
        exists r, item2 c = Ent r /\ In r []) \/
       (collision_type c = object_to_platform /\
        exists r, item2 c = Ent r /\ In r []) \/
       (collision_type c = player_to_box /\ In (item1 c) [0%nat] /\
        exists r, item2 c = Ent r /\ In r [1%nat]) \/
       (collision_type c = box_to_box /\ In (item1 c) [1%nat] /\
        exists r, item2 c = Ent r /\ In r [1%nat]) \/
       (collision_type c = player_to_player /\ In (item1 c) [0%nat] /\
        exists r, item2 c = Ent r /\ In r [0%nat])).
Proof.
  apply (detected_events_are_typed pygame_colliderect box_at_wall [] [0%nat] [1%nat] []);
    [ reflexivity | reflexivity | reflexivity | reflexivity
    | constructor
    | constructor; [eexists; reflexivity | constructor]
    | constructor; [eexists; reflexivity | constructor]
    | constructor
    | right; left; reflexivity ].
Defined.

(** ** The engaged-target counter *)

Lemma preserves_via_self {X A} (g : Space -> X) (m : M A) :
  preserves self m -> preserves (fun s => g (self s)) m.
Proof. intros H s. now rewrite H. Qed.

Lemma preserves_self_alloc_speed v : preserves self (alloc_speed v).
Proof. intros s. reflexivity. Qed.

Lemma preserves_engaged_set_ground b :
  preserves (fun s => targets_engaged (self s)) (set_self (with_player_on_ground b)).
Proof. intros s. reflexivity. Qed.

Lemma preserves_engaged_set_zone b :
  preserves (fun s => targets_engaged (self s)) (set_self (with_player_in_thinkingbox b)).
Proof. intros s. reflexivity. Qed.

Ltac frame_engaged :=
  repeat first
    [ apply preserves_bind; [ | intros ? ]
    | apply preserves_for_each; intros ?
    | apply preserves_for_collect; intros ?
    | apply preserves_when
    | apply preserves_if
    | apply preserves_py_call
    | apply preserves_engaged_set_ground
    | apply preserves_engaged_set_zone
    | solve [ auto with frame ]
    | solve [ apply (preserves_via_self targets_engaged);
              auto using preserves_self_alloc_speed with frame ] ].

Lemma preserves_engaged_platform c :
  preserves (fun s => targets_engaged (self s)) (resolve_object_to_platform c).
Proof. unfold resolve_object_to_platform. frame_engaged. Qed.

Lemma preserves_engaged_player_to_box c :
  preserves (fun s => targets_engaged (self s)) (resolve_player_to_box c).
Proof. unfold resolve_player_to_box. frame_engaged. Qed.

Lemma preserves_engaged_box_to_box c :
  preserves (fun s => targets_engaged (self s)) (resolve_box_to_box c).
Proof. unfold resolve_box_to_box. cbv zeta. frame_engaged. Qed.

Lemma preserves_engaged_border c :
  preserves (fun s => targets_engaged (self s)) (resolve_object_to_border c).
Proof. unfold resolve_object_to_border. frame_engaged. Qed.

Lemma resolve_collision_counts c s s' :
  resolve_collision c s = (s', Ok tt) ->
  targets_engaged (self s') =
    targets_engaged (self s) + (if collision_type c =? box_to_target then 1 else 0).
Proof.
  unfold resolve_collision. destruct (collision_type c =? box_to_target) eqn:E.
  - apply Z.eqb_eq in E. rewrite E.
    cbn [Z.eqb box_to_box box_to_target object_to_platform player_to_box
         player_to_player object_to_border Pos.eqb when].
    rewrite bind_assoc, (bind_ok _ _ _ _ _ (get_self_ok s)).
    rewrite (bind_ok _ _ _ _ _ (set_self_ok _ s)). rewrite !ret_bind.
    intros H. inversion H. reflexivity.
  - cbn [when]. rewrite ret_bind. intros H.
    match type of H with ?m s = _ =>
      assert (P : preserves (fun s => targets_engaged (self s)) m) end.
    { apply preserves_bind; [|intros ?].
      { apply preserves_when, preserves_engaged_platform. }
      apply preserves_bind; [|intros ?].
      { apply preserves_when, preserves_engaged_player_to_box. }
      apply preserves_bind; [|intros ?].
      { apply preserves_when, preserves_engaged_box_to_box. }
      apply preserves_bind; [|intros ?].
      { apply preserves_when, preserves_ret. }
      apply preserves_when, preserves_engaged_border. }
    specialize (P s). rewrite H in P. cbn [fst] in P. lia.
Qed.

Lemma resolve_collisions_counts cs : forall s s',
  resolve_collisions cs s = (s', Ok tt) ->
  targets_engaged (self s') = targets_engaged (self s) + count_box_to_target cs.
Proof.
  unfold resolve_collisions, count_box_to_target.
  induction cs as [|c cs IH]; intros s s' H.
  - inversion H. cbn. lia.
  - cbn [for_each] in H. unfold bind in H.
    destruct (resolve_collision c s) as [s1 [[]|e]] eqn:E1; [|discriminate].
    apply resolve_collision_counts in E1. apply IH in H. rewrite H, E1.
    cbn [List.filter]. destruct (collision_type c =? box_to_target); cbn [length]; lia.
Qed.

Lemma preserves_engaged_check_collisions colliderect :
  preserves (fun s => targets_engaged (self s)) (check_collisions colliderect).
Proof.
  unfold check_collisions, self_boxes, self_targets, self_platforms, self_players.
  repeat first
    [ apply preserves_check_list
    | apply preserves_check_borders
    | apply preserves_check_sametype
    | apply preserves_thinkingbox_truthy
    | apply preserves_bind; [ | intros ? ]
    | apply preserves_for_collect; intros ?
    | apply preserves_when
    | apply preserves_py_call
    | solve [ auto with frame ] ].
  unfold check_playerinthinking_body. frame_engaged.
  match goal with |- context [ match ?c with Some _ => _ | None => _ end ] => destruct c end;
    frame_engaged.
Qed.

(** X9.  The engaged-target counter counts events, and only those of the
    last pass: when a settle pass returns, the counter is the number of
    box-to-target events that the pass detected, whatever the counter was
    before; a box over two targets counts twice. *)
Theorem settle_pass_counts_target_events colliderect s s' :
  settle_once colliderect s = (s', Ok tt) ->
  exists evs,
    snd (check_collisions colliderect
           (mkState (with_targets_engaged 0 (self s)) (mem s))) = Ok evs /\
    targets_engaged (self s') = count_box_to_target evs.
Proof.
  unfold settle_once. rewrite (bind_ok _ _ _ _ _ (set_self_ok _ s)).
  set (s0 := mkState _ _). unfold bind.
  pose proof (preserves_engaged_check_collisions colliderect s0) as P.
  destruct (check_collisions colliderect s0) as [s1 [evs|e]]; [|discriminate].
  intros H. exists evs. split; [reflexivity|].
  apply resolve_collisions_counts in H. cbn [fst] in P. rewrite H, P. reflexivity.
Qed.

Lemma settle_pass_counts_target_events_witness :
  exists evs,
    snd (check_collisions pygame_colliderect
           (mkState (with_targets_engaged 0 (self box_on_two_targets))
                    (mem box_on_two_targets))) = Ok evs /\
    targets_engaged (self (fst (settle_once pygame_colliderect box_on_two_targets)))
      = count_box_to_target evs.
Proof.
  apply (settle_pass_counts_target_events pygame_colliderect box_on_two_targets
           (fst (settle_once pygame_colliderect box_on_two_targets))).
  vm_compute. reflexivity.
Defined.

(** One box, two targets under it: the counter reads 2. *)
Example one_box_counts_twice :
  targets_engaged (self (fst (settle_once pygame_colliderect box_on_two_targets))) = 2.
Proof. vm_compute. reflexivity. Qed.

(** ** Invariants of resolution and of a tick *)

Section Respects.
Variable R : state -> state -> Prop.
Hypothesis R_refl : forall s, R s s.
Hypothesis R_trans : forall s1 s2 s3, R s1 s2 -> R s2 s3 -> R s1 s3.

Lemma respects_ret {A} (a : A) : respects R (ret a).
Proof. intros s. apply R_refl. Qed.

Lemma respects_raise {A} e : respects R (@raise A e).
Proof. intros s. apply R_refl. Qed.

Lemma respects_readonly {A} (m : M A) : readonly m -> respects R m.
Proof. intros H s. rewrite (H s). apply R_refl. Qed.

Lemma respects_bind {A B} (m : M A) (k : A -> M B) :
  respects R m -> (forall a, respects R (k a)) -> respects R (bind m k).
Proof.
  intros Hm Hk s. unfold bind. specialize (Hm s).
  destruct (m s) as [s' [a|e]]; cbn [fst] in *; [|exact Hm].
  eapply R_trans; [exact Hm | apply Hk].
Qed.

Lemma respects_bind_as_object {B} p (k : loc -> M B) :
  (forall r, p = Ent r -> respects R (k r)) -> respects R (bind (as_object p) k).
Proof.
  intros Hk s. destruct p as [r|]; cbn; [apply Hk; reflexivity | apply R_refl].
Qed.

Lemma respects_when c body : respects R body -> respects R (when c body).
Proof. destruct c; cbn; auto using respects_ret. Qed.

Lemma respects_if {A} (c : bool) (m1 m2 : M A) :
  respects R m1 -> respects R m2 -> respects R (if c then m1 else m2).
Proof. destruct c; auto. Qed.

Lemma respects_for_each {A} (xs : list A) body :
  (forall x, In x xs -> respects R (body x)) -> respects R (for_each xs body).
Proof.
  induction xs as [|x xs IH]; intros Hb; cbn [for_each].
  - apply respects_ret.
  - apply respects_bind; [apply Hb; left; reflexivity|].
    intros _. apply IH. intros y Hy. apply Hb. right. exact Hy.
Qed.

End Respects.

Lemma same_world_refl sp : same_world sp sp.
Proof. repeat split. Qed.

Lemma same_world_trans a b c : same_world a b -> same_world b c -> same_world a c.
Proof. unfold same_world. intuition congruence. Qed.

Lemma keeps_entities_refl s : keeps_entities s s.
Proof. split; [apply same_world_refl|]. repeat split. eauto 10. Qed.

Lemma keeps_entities_trans s1 s2 s3 :
  keeps_entities s1 s2 -> keeps_entities s2 s3 -> keeps_entities s1 s3.
Proof.
  intros (W1 & L1 & N1 & O1) (W2 & L2 & N2 & O2).
  split; [eapply same_world_trans; eauto|]. repeat split; try congruence.
  intros r o Ho. destruct (O1 r o Ho) as (o' & Ho' & ? & ? & ?).
  destruct (O2 r o' Ho') as (o'' & Ho'' & ? & ? & ?).
  exists o''. repeat split; congruence.
Qed.

Lemma keeps_update_obj r f :
  (forall o, rect_w (f o) = rect_w o /\ rect_h (f o) = rect_h o /\
             obj_upscale (f o) = obj_upscale o) ->
  respects keeps_entities (update_obj r f).
Proof.
  intros Hf s. unfold update_obj. destruct (objs (mem s) !! r) as [o|] eqn:Ho;
    [|apply keeps_entities_refl].
  cbn [fst]. split; [apply same_world_refl|]. heap_simpl.
  split; [reflexivity|]. split; [apply length_insert|].
  intros r' o' Ho'. destruct (decide (r = r')) as [<-|N].
  - rewrite (lookup_insert_same _ _ _ _ Ho). rewrite Ho in Ho'. inversion Ho'; subst.
    eexists. split; [reflexivity | apply Hf].
  - rewrite list_lookup_insert_ne by exact N. eauto 10.
Qed.

Lemma keeps_update_speed l f : respects keeps_entities (update_speed l f).
Proof.
  intros s. unfold update_speed. destruct (speeds (mem s) !! l);
    [|apply keeps_entities_refl].
  cbn [fst]. split; [apply same_world_refl|]. heap_simpl. repeat split. eauto 10.
Qed.

Lemma keeps_alloc_speed v : respects keeps_entities (alloc_speed v).
Proof.
  intros s. cbn. split; [apply same_world_refl|]. repeat split. eauto 10.
Qed.

Lemma keeps_set_self f :
  (forall sp, same_world sp (f sp)) -> respects keeps_entities (set_self f).
Proof. intros Hf s. cbn. split; [apply Hf|]. repeat split. eauto 10. Qed.

(** Decompose a program and show that it creates, removes and resizes
    nothing. *)
Ltac keeps :=
  repeat first
    [ apply (respects_bind keeps_entities keeps_entities_trans); [ | intros ? ]
    | apply (respects_for_each keeps_entities keeps_entities_refl keeps_entities_trans);
        intros ? _
    | apply (respects_when keeps_entities keeps_entities_refl)
    | apply (respects_if keeps_entities)
    | apply (respects_ret keeps_entities keeps_entities_refl)
    | apply (respects_raise keeps_entities keeps_entities_refl)
    | apply keeps_update_speed
    | apply keeps_alloc_speed
    | apply keeps_update_obj; intros ?; repeat split
    | apply keeps_set_self; intros ?; repeat split
    | apply (respects_readonly keeps_entities keeps_entities_refl);
        unfold readonly, load_objs; solve [ frame ] ].

Lemma keeps_resolve_collision c : respects keeps_entities (resolve_collision c).
Proof.
  unfold resolve_collision, resolve_object_to_platform, resolve_player_to_box,
    resolve_box_to_box, resolve_object_to_border.
  cbv zeta. keeps.
Qed.

Lemma respects_for_collect (R : state -> state -> Prop) {A B}
    (xs : list A) (body : A -> M (list B)) :
  (forall s, R s s) -> (forall s1 s2 s3, R s1 s2 -> R s2 s3 -> R s1 s3) ->
  (forall x, In x xs -> respects R (body x)) -> respects R (for_collect xs body).
Proof.
  intros Rr Rt. induction xs as [|x xs IH]; intros Hb; cbn [for_collect].
  - apply respects_ret, Rr.
  - apply (respects_bind R Rt); [apply Hb; left; reflexivity|]. intros a.
    apply (respects_bind R Rt).
    + apply IH. intros y Hy. apply Hb. right. exact Hy.
    + intros b. apply respects_ret, Rr.
Qed.

Lemma keeps_check_collisions colliderect :
  respects keeps_entities (check_collisions colliderect).
Proof.
  unfold check_collisions, py_call, check_playerinthinking_body. cbn [Nat.eqb].
  repeat first
    [ apply (respects_readonly keeps_entities keeps_entities_refl);
        first [ apply readonly_check_list | apply readonly_check_borders
              | apply readonly_check_sametype | apply readonly_self_boxes
              | apply (preserves_thinkingbox_truthy (fun s => s))
              | unfold readonly, self_targets, self_platforms, self_players; solve [frame] ]
    | apply (respects_bind keeps_entities keeps_entities_trans); [ | intros ? ]
    | apply (respects_for_collect keeps_entities _ _
               keeps_entities_refl keeps_entities_trans); intros ? _
    | apply (respects_when keeps_entities keeps_entities_refl)
    | apply (respects_ret keeps_entities keeps_entities_refl)
    | apply (respects_raise keeps_entities keeps_entities_refl) ].
Qed.

Lemma keeps_step colliderect fps : respects keeps_entities (step colliderect fps).
Proof.
  unfold step, settle, settle_once, resolve_collisions, apply_gravity, move_objects.
  repeat first
    [ apply keeps_check_collisions
    | apply keeps_resolve_collision
    | apply (respects_readonly keeps_entities keeps_entities_refl);
        first [ apply readonly_self_boxes
              | unfold readonly, self_players, read_speed; solve [frame] ]
    | apply (respects_bind keeps_entities keeps_entities_trans); [ | intros ? ]
    | apply (respects_for_each keeps_entities keeps_entities_refl keeps_entities_trans);
        intros ? _
    | apply keeps_update_speed
    | apply keeps_update_obj; intros ?; repeat split
    | apply keeps_set_self; intros ?; repeat split ].
Qed.

(** X10.  A tick creates, removes and resizes nothing: whatever the state
    and the framerate, and whether [step] returns or raises, afterwards
    the world has the dimensions, gravity, lists and trigger zone it had,
    the entity lists hold what they held, and every object is still in
    the store with its width, height and upscale. *)
Theorem step_keeps_every_entity colliderect fps s :
  let s' := fst (step colliderect fps s) in
  same_world (self s) (self s') /\
  lists (mem s') = lists (mem s) /\
  length (objs (mem s')) = length (objs (mem s)) /\
  forall r o, objs (mem s) !! r = Some o ->
    exists o', objs (mem s') !! r = Some o' /\
               rect_w o' = rect_w o /\ rect_h o' = rect_h o /\
               obj_upscale o' = obj_upscale o.
Proof. exact (keeps_step colliderect fps s). Qed.

(** ** Who is moved *)

Lemma others_untouched_refl r1 p s : others_untouched r1 p s s.
Proof. intros r _ _. reflexivity. Qed.

Lemma others_untouched_trans r1 p s1 s2 s3 :
  others_untouched r1 p s1 s2 -> others_untouched r1 p s2 s3 ->
  others_untouched r1 p s1 s3.
Proof. intros H1 H2 r N1 N2. rewrite (H2 r N1 N2). apply H1; assumption. Qed.

Lemma untouched_update_obj r1 p r f :
  r = r1 \/ p = Ent r -> respects (others_untouched r1 p) (update_obj r f).
Proof.
  intros Hr s. unfold update_obj. destruct (objs (mem s) !! r) as [o|];
    [|apply others_untouched_refl].
  intros r' N1 N2. heap_simpl. apply list_lookup_insert_ne.
  destruct Hr as [-> | ->]; congruence.
Qed.

Lemma untouched_same_objs r1 p {A} (m : M A) :
  preserves (fun s => objs (mem s)) m -> respects (others_untouched r1 p) m.
Proof. intros H s r _ _. now rewrite (H s). Qed.

Lemma preserves_objs_update_speed l f :
  preserves (fun s => objs (mem s)) (update_speed l f).
Proof. intros s. unfold update_speed. destruct (speeds (mem s) !! l); reflexivity. Qed.

Lemma preserves_objs_alloc_speed v : preserves (fun s => objs (mem s)) (alloc_speed v).
Proof. intros s. reflexivity. Qed.

(** Decompose a resolution and check that every assignment to an object
    goes to the first participant or to the one [as_object] returned. *)
Ltac untouched r1 p :=
  repeat first
    [ apply (respects_bind_as_object (others_untouched r1 p)
               (others_untouched_refl r1 p)); intros ? ?
    | apply (respects_bind (others_untouched r1 p) (others_untouched_trans r1 p));
        [ | intros ? ]
    | apply (respects_when (others_untouched r1 p) (others_untouched_refl r1 p))
    | apply (respects_if (others_untouched r1 p))
    | apply (respects_ret (others_untouched r1 p) (others_untouched_refl r1 p))
    | apply untouched_update_obj; first [ left; reflexivity | right; assumption ]
    | apply untouched_same_objs;
        first [ apply preserves_objs_update_speed | apply preserves_objs_alloc_speed
              | apply preserves_objs_set_self ]
    | apply (respects_readonly (others_untouched r1 p) (others_untouched_refl r1 p));
        unfold readonly, load_objs, self_players; solve [ frame ] ].

Lemma untouched_platform c p :
  respects (others_untouched (item1 c) p) (resolve_object_to_platform c).
Proof. unfold resolve_object_to_platform. untouched (item1 c) p. Qed.

Lemma untouched_border c p :
  respects (others_untouched (item1 c) p) (resolve_object_to_border c).
Proof. unfold resolve_object_to_border. untouched (item1 c) p. Qed.

Lemma untouched_player_to_box c :
  respects (others_untouched (item1 c) (item2 c)) (resolve_player_to_box c).
Proof. unfold resolve_player_to_box. untouched (item1 c) (item2 c). Qed.

Lemma untouched_box_to_box c :
  respects (others_untouched (item1 c) (item2 c)) (resolve_box_to_box c).
Proof. unfold resolve_box_to_box. cbv zeta. untouched (item1 c) (item2 c). Qed.

Lemma untouched_resolve_collision c :
  respects (others_untouched (item1 c) (item2 c)) (resolve_collision c).
Proof.
  unfold resolve_collision.
  repeat first
    [ apply untouched_platform | apply untouched_border
    | apply untouched_player_to_box | apply untouched_box_to_box
    | apply (respects_bind _ (others_untouched_trans (item1 c) (item2 c))); [ | intros ? ]
    | apply (respects_when _ (others_untouched_refl (item1 c) (item2 c)))
    | apply (respects_ret _ (others_untouched_refl (item1 c) (item2 c)))
    | apply untouched_same_objs; apply preserves_objs_set_self
    | apply (respects_readonly _ (others_untouched_refl (item1 c) (item2 c)));
        unfold readonly; solve [ frame ] ].
Qed.

Lemma untouched_resolve_collision_one_sided c :
  collision_type c <> player_to_box -> collision_type c <> box_to_box ->
  respects (others_untouched (item1 c) Wall) (resolve_collision c).
Proof.
  intros N1 N2. unfold resolve_collision.
  apply Z.eqb_neq in N1, N2. rewrite N1, N2. cbn [when].
  repeat first
    [ apply untouched_platform | apply untouched_border
    | apply (respects_bind _ (others_untouched_trans (item1 c) Wall)); [ | intros ? ]
    | apply (respects_when _ (others_untouched_refl (item1 c) Wall))
    | apply (respects_ret _ (others_untouched_refl (item1 c) Wall))
    | apply untouched_same_objs; apply preserves_objs_set_self
    | apply (respects_readonly _ (others_untouched_refl (item1 c) Wall));
        unfold readonly; solve [ frame ] ].
Qed.

Lemma static_untouched_refl dyn s : static_untouched dyn s s.
Proof. intros r _. reflexivity. Qed.

Lemma static_untouched_trans dyn s1 s2 s3 :
  static_untouched dyn s1 s2 -> static_untouched dyn s2 s3 -> static_untouched dyn s1 s3.
Proof. intros H1 H2 r N. rewrite (H2 r N). apply H1, N. Qed.

Lemma static_same_objs dyn s s' :
  objs (mem s') = objs (mem s) -> static_untouched dyn s s'.
Proof. intros E r _. now rewrite E. Qed.

Lemma static_update_obj dyn r f :
  In r dyn -> respects (static_untouched dyn) (update_obj r f).
Proof.
  intros Hr s. unfold update_obj. destruct (objs (mem s) !! r) as [o|];
    [|apply static_untouched_refl].
  intros r' N. heap_simpl. apply list_lookup_insert_ne. congruence.
Qed.

Lemma static_resolve_collision dyn c :
  In (item1 c) dyn ->
  (collision_type c = player_to_box \/ collision_type c = box_to_box ->
   exists r, item2 c = Ent r /\ In r dyn) ->
  respects (static_untouched dyn) (resolve_collision c).
Proof.
  intros H1 H2 s r Hr.
  assert (N1 : r <> item1 c) by congruence.
  destruct (Z.eq_dec (collision_type c) player_to_box) as [E|Np].
  { destruct (H2 (or_introl E)) as (r2 & E2 & Hr2).
    apply (untouched_resolve_collision c s r N1). rewrite E2. congruence. }
  destruct (Z.eq_dec (collision_type c) box_to_box) as [E|Nb].
  { destruct (H2 (or_intror E)) as (r2 & E2 & Hr2).
    apply (untouched_resolve_collision c s r N1). rewrite E2. congruence. }
  apply (untouched_resolve_collision_one_sided c Np Nb s r N1). discriminate.
Qed.

Lemma static_resolve_collisions dyn cs :
  Forall (fun c => In (item1 c) dyn /\
                   (collision_type c = player_to_box \/ collision_type c = box_to_box ->
                    exists r, item2 c = Ent r /\ In r dyn)) cs ->
  respects (static_untouched dyn) (resolve_collisions cs).
Proof.
  intros F. unfold resolve_collisions.
  apply (respects_for_each _ (static_untouched_refl dyn) (static_untouched_trans dyn)).
  intros c Hc. rewrite List.Forall_forall in F. destruct (F c Hc).
  apply static_resolve_collision; assumption.
Qed.

Lemma detected_participants colliderect sp hp targets players boxes platforms c :
  In c (detected colliderect sp hp targets players boxes platforms) ->
  In (item1 c) (players ++ boxes) /\
  (collision_type c = player_to_box \/ collision_type c = box_to_box ->
   exists r, item2 c = Ent r /\ In r (players ++ boxes)).
Proof.
  unfold detected. rewrite !in_app_iff, !in_flat_map.
  intros [(box & Hbox & H) | [H | [(player & Hplayer & H) | H]]].
  - rewrite !in_app_iff in H. destruct H as [H | [H | H]].
    + apply in_list_events in H. destruct H as (<- & E & _).
      split; [tauto|]. rewrite E. intros [?|?]; discriminate.
    + apply in_list_events in H. destruct H as (<- & E & _).
      split; [tauto|]. rewrite E. intros [?|?]; discriminate.
    + apply in_border_events in H. destruct H as (<- & E & _).
      split; [tauto|]. rewrite E. intros [?|?]; discriminate.
  - apply in_pair_events in H. destruct H as (H1 & _ & r & E2 & Hr).
    split; [tauto|]. intros _. exists r. split; [assumption | apply in_or_app; tauto].
  - rewrite !in_app_iff in H. destruct H as [H | [H | H]].
    + apply in_list_events in H. destruct H as (<- & E & _).
      split; [tauto|]. rewrite E. intros [?|?]; discriminate.
    + apply in_list_events in H. destruct H as (<- & _ & r & E2 & Hr).
      split; [tauto|]. intros _. exists r. split; [assumption | apply in_or_app; tauto].
    + apply in_border_events in H. destruct H as (<- & E & _).
      split; [tauto|]. rewrite E. intros [?|?]; discriminate.
  - apply in_pair_events in H. destruct H as (H1 & E & _).
    split; [tauto|]. rewrite E. intros [?|?]; discriminate.
Qed.

Lemma populated_keeps s s' targets players boxes platforms :
  keeps_entities s s' ->
  populated s targets players boxes platforms ->
  populated s' targets players boxes platforms.
Proof.
  intros ((_ & _ & _ & _ & Et & Ep & Eb & Epl & _) & L & _ & O)
         (Ht & Hp & Hb & Hpl & At & Ap & Ab & Apl).
  assert (K : forall refs, all_objects (mem s) refs -> all_objects (mem s') refs).
  { intros refs H. eapply Forall_impl; [exact H|]. intros r [o Ho].
    destruct (O r o Ho) as (o' & Ho' & _). eauto. }
  unfold populated, targets_ref, players_ref, boxes_ref, platforms_ref in *.
  rewrite Et, Ep, Eb, Epl, L. auto 10.
Qed.

Lemma zone_object_keeps s s' :
  keeps_entities s s' ->
  (forall t, thinkingbox (self s) = Some t -> is_Some (objs (mem s) !! t)) ->
  (forall t, thinkingbox (self s') = Some t -> is_Some (objs (mem s') !! t)).
Proof.
  intros ((_ & _ & _ & _ & _ & _ & _ & _ & Ez) & _ & _ & O) H t Ht.
  unfold thinkingbox in *. rewrite Ez in Ht. destruct (H t Ht) as [o Ho].
  destruct (O t o Ho) as (o' & Ho' & _). eauto.
Qed.

Section StaticEntities.
Variable colliderect : Object -> Object -> bool.

Lemma keeps_settle_once : respects keeps_entities (settle_once colliderect).
Proof.
  unfold settle_once, resolve_collisions.
  repeat first
    [ apply keeps_check_collisions
    | apply keeps_resolve_collision
    | apply (respects_bind keeps_entities keeps_entities_trans); [ | intros ? ]
    | apply (respects_for_each keeps_entities keeps_entities_refl keeps_entities_trans);
        intros ? _
    | apply keeps_set_self; intros ?; repeat split ].
Qed.

Lemma settle_once_static s targets players boxes platforms :
  populated s targets players boxes platforms ->
  (forall t, thinkingbox (self s) = Some t -> is_Some (objs (mem s) !! t)) ->
  static_untouched (players ++ boxes) s (fst (settle_once colliderect s)).
Proof.
  intros Pop Hz. unfold settle_once.
  rewrite (bind_ok _ _ _ _ _ (set_self_ok _ s)). set (s0 := mkState _ _).
  assert (Pop0 : populated s0 targets players boxes platforms) by exact Pop.
  destruct Pop0 as (Ht & Hp & Hb & Hpl & At & Ap & Ab & Apl).
  assert (Quiet : zone_quiet s0 players \/
                  exists e, check_collisions colliderect s0 = (s0, Raise e)).
  { destruct players as [|p ps]; [left; left; reflexivity|].
    destruct (thinkingbox (self s0)) as [t|] eqn:Et; [|left; right; left; exact Et].
    destruct (Hz t Et) as [tb Htb].
    destruct (Rect.truthy tb) eqn:Etb.
    - right. eapply trigger_zone_detection_never_returns; eauto.
    - left. right. right. eauto. }
  destruct Quiet as [Q | [e Hraise]].
  - rewrite (bind_ok _ _ _ _ _
               (check_collisions_run colliderect s0 targets players boxes platforms
                  Ht Hp Hb Hpl At Ap Ab Apl Q)).
    apply (static_untouched_trans _ s s0); [apply static_same_objs; reflexivity|].
    apply static_resolve_collisions. apply List.Forall_forall.
    intros c Hc. eapply detected_participants, Hc.
  - rewrite (bind_raise _ _ _ _ _ Hraise). apply static_same_objs. reflexivity.
Qed.

Lemma settle_loop_static targets players boxes platforms {A} (xs : list A) : forall s,
  populated s targets players boxes platforms ->
  (forall t, thinkingbox (self s) = Some t -> is_Some (objs (mem s) !! t)) ->
  static_untouched (players ++ boxes) s
    (fst (for_each xs (fun _ => settle_once colliderect) s)) /\
  keeps_entities s (fst (for_each xs (fun _ => settle_once colliderect) s)).
Proof.
  induction xs as [|x xs IH]; intros s Pop Hz.
  - split; [apply static_untouched_refl | apply keeps_entities_refl].
  - cbn [for_each]. unfold bind.
    pose proof (settle_once_static s _ _ _ _ Pop Hz) as S1.
    pose proof (keeps_settle_once s) as K1.
    destruct (settle_once colliderect s) as [s1 [[]|e]]; cbn [fst] in *; [|auto].
    destruct (IH s1 (populated_keeps _ _ _ _ _ _ K1 Pop) (zone_object_keeps _ _ K1 Hz))
      as [S2 K2].
    split; [eapply static_untouched_trans | eapply keeps_entities_trans]; eauto.
Qed.

Lemma static_gravity_and_move fps dyn :
  respects (static_untouched dyn) (apply_gravity fps dyn ;; move_objects fps dyn).
Proof.
  unfold apply_gravity, move_objects.
  apply (respects_bind _ (static_untouched_trans dyn)); [|intros _].
  - intros s. apply static_same_objs.
    apply (preserves_for_each (fun s => objs (mem s))). intros x.
    unfold read_speed, speed_setitem1.
    repeat first [ apply preserves_bind; [ | intros ? ]
                 | apply preserves_objs_update_speed
                 | solve [ auto with frame ] ].
  - apply (respects_for_each _ (static_untouched_refl dyn) (static_untouched_trans dyn)).
    intros x Hx.
    repeat first
      [ apply (respects_bind _ (static_untouched_trans dyn)); [ | intros ? ]
      | apply static_update_obj; exact Hx
      | apply (respects_readonly _ (static_untouched_refl dyn));
          unfold readonly, read_speed; solve [ frame ] ].
Qed.

(** The records of the objects that are neither players nor boxes, after
    a tick. *)
Lemma step_keeps_static_records fps s targets players boxes platforms :
  populated s targets players boxes platforms ->
  (forall t, thinkingbox (self s) = Some t -> is_Some (objs (mem s) !! t)) ->
  forall r, ~ In r (players ++ boxes) ->
    objs (mem (fst (step colliderect fps s))) !! r = objs (mem s) !! r.
Proof.
  intros Pop Hz. change (static_untouched (players ++ boxes) s
                           (fst (step colliderect fps s))).
  unfold step. rewrite (bind_ok _ _ _ _ _ (set_self_ok _ s)). set (s0 := mkState _ _).
  assert (Pop0 : populated s0 targets players boxes platforms) by exact Pop.
  assert (Hz0 : forall t, thinkingbox (self s0) = Some t -> is_Some (objs (mem s0) !! t))
    by exact Hz.
  apply (static_untouched_trans _ s s0); [apply static_same_objs; reflexivity|].
  unfold settle. rewrite bind_assoc.
  destruct Pop0 as (Ht & Hp & Hb & Hpl & At & Ap & Ab & Apl).
  rewrite (bind_ok _ _ _ _ _ (self_boxes_ok _ _ Hb)).
  destruct (settle_loop_static targets players boxes platforms
              (seq 0 (length boxes)) s0 Pop Hz0) as [S1 K1].
  unfold bind at 1.
  destruct (for_each (seq 0 (length boxes)) (fun _ => settle_once colliderect) s0)
    as [s1 [[]|e]]; cbn [fst] in *; [|exact S1].
  destruct (populated_keeps _ _ _ _ _ _ K1 Pop) as (_ & Hp1 & Hb1 & _).
  rewrite (bind_ok _ _ _ _ _ (self_players_ok _ _ Hp1)).
  rewrite (bind_ok _ _ _ _ _ (self_boxes_ok _ _ Hb1)).
  eapply static_untouched_trans; [exact S1|].
  apply static_gravity_and_move.
Qed.

End StaticEntities.

(** ** Velocity lists are shared objects *)

(** A velocity is read through a list object, and [Object.speed] is one
    list for every object that was never assigned a [speed] of its own.
    What an assignment to a velocity changes for the other objects
    therefore depends on who reads which list. *)

Section VelocityFrame.
Variable s0 : state.
Variable parts : list loc.

Lemma velocity_frame_start : velocity_frame s0 parts s0.
Proof.
  split; [lia|]. split; [reflexivity|].
  intros r o Hr Ho. left. exists r, o. auto.
Qed.

Lemma stable_refl s : keeps_velocity_frame s0 parts s s.
Proof. intros H. exact H. Qed.

Lemma stable_trans s1 s2 s3 :
  keeps_velocity_frame s0 parts s1 s2 -> keeps_velocity_frame s0 parts s2 s3 ->
  keeps_velocity_frame s0 parts s1 s3.
Proof. unfold keeps_velocity_frame. auto. Qed.

Lemma stable_same_mem {A} (m : M A) :
  preserves mem m -> respects (keeps_velocity_frame s0 parts) m.
Proof. intros H s. unfold keeps_velocity_frame, velocity_frame. rewrite (H s). auto. Qed.

(** Moving a rectangle does not rebind its velocity. *)
Lemma stable_update_obj r f :
  (forall o, speed_ref (f o) = speed_ref o) ->
  respects (keeps_velocity_frame s0 parts) (update_obj r f).
Proof.
  intros Hf s. unfold update_obj.
  destruct (objs (mem s) !! r) as [o|] eqn:Ho; [|apply stable_refl].
  intros (L & K & P). cbn [fst]. split; [exact L|]. split; [exact K|].
  cbn [mem objs]. intros r' o' Hr' Ho'.
  destruct (decide (r = r')) as [<-|N].
  - rewrite (lookup_insert_same _ _ _ _ Ho) in Ho'. injection Ho' as <-.
    rewrite Hf. eapply P; eauto.
  - rewrite list_lookup_insert_ne in Ho' by exact N. eapply P; eauto.
Qed.

(** [item.speed = [...]] creates a list and changes none. *)
Lemma stable_assign_speed r v :
  respects (keeps_velocity_frame s0 parts) (assign_speed r v).
Proof.
  intros s. unfold assign_speed, bind, alloc_speed, update_obj. cbn [mem objs fst].
  destruct (objs (mem s) !! r) as [o|] eqn:Ho; cbn [fst].
  - intros (L & K & P). split; [cbn [mem speeds]; rewrite length_app; lia|].
    split.
    + intros l Hl Nl. cbn [mem speeds]. rewrite lookup_app_l by lia. apply K; assumption.
    + cbn [mem objs]. intros r' o' Hr' Ho'.
      destruct (decide (r = r')) as [<-|N].
      * rewrite (lookup_insert_same _ _ _ _ Ho) in Ho'. injection Ho' as <-.
        right. cbn. exact L.
      * rewrite list_lookup_insert_ne in Ho' by exact N. eapply P; eauto.
  - intros (L & K & P). split; [cbn [mem speeds]; rewrite length_app; lia|].
    split.
    + intros l Hl Nl. cbn [mem speeds]. rewrite lookup_app_l by lia. apply K; assumption.
    + cbn [mem objs]. exact P.
Qed.

(** [item.speed[i] = ...] changes the list that [item] reads. *)
Lemma stable_update_speed_of r f :
  In r parts ->
  respects (keeps_velocity_frame s0 parts)
    (o <- load_obj r ;; update_speed (speed_ref o) f).
Proof.
  intros Hr s. unfold bind, load_obj, update_speed.
  destruct (objs (mem s) !! r) as [o|] eqn:Ho; [|apply stable_refl].
  destruct (speeds (mem s) !! speed_ref o) as [v|] eqn:Hv; [|apply stable_refl].
  intros (L & K & P). unfold velocity_frame. cbn [fst mem speeds objs].
  split; [rewrite length_insert; exact L|]. split; [|exact P].
  intros l Hl Nl. rewrite list_lookup_insert_ne; [apply K; assumption|].
  intros <-. destruct (P r o Hr Ho) as [R|G]; [exact (Nl R) | lia].
Qed.

Lemma stable_speed_setitem0 r f :
  In r parts -> respects (keeps_velocity_frame s0 parts) (speed_setitem0 r f).
Proof. intros Hr. apply stable_update_speed_of, Hr. Qed.

Lemma stable_speed_setitem1 r f :
  In r parts -> respects (keeps_velocity_frame s0 parts) (speed_setitem1 r f).
Proof. intros Hr. apply stable_update_speed_of, Hr. Qed.

Lemma stable_when_cond c body :
  (c = true -> respects (keeps_velocity_frame s0 parts) body) ->
  respects (keeps_velocity_frame s0 parts) (when c body).
Proof.
  destruct c; cbn; [auto | intros _; apply respects_ret, stable_refl].
Qed.

End VelocityFrame.

(** Decompose a program and check that it changes a velocity in place
    only through an entity of [parts]. *)
Ltac velocity s0 parts :=
  repeat first
    [ apply (stable_assign_speed s0 parts)
    | apply (stable_speed_setitem0 s0 parts); solve [ auto ]
    | apply (stable_speed_setitem1 s0 parts); solve [ auto ]
    | apply (stable_update_obj s0 parts); intros ?; reflexivity
    | apply (stable_same_mem s0 parts); apply preserves_mem_set_self
    | apply (respects_readonly (keeps_velocity_frame s0 parts) (stable_refl s0 parts));
        unfold readonly, load_objs, self_players, read_speed, whatside,
          dist_to_first_player, in_players;
        solve [ frame ]
    | apply (respects_bind_as_object (keeps_velocity_frame s0 parts)
               (stable_refl s0 parts)); intros ? ?
    | apply (respects_bind (keeps_velocity_frame s0 parts) (stable_trans s0 parts));
        [ | intros ? ]
    | apply (respects_when (keeps_velocity_frame s0 parts) (stable_refl s0 parts))
    | apply (respects_if (keeps_velocity_frame s0 parts))
    | apply (respects_ret (keeps_velocity_frame s0 parts) (stable_refl s0 parts)) ].

Lemma stable_platform s0 parts c :
  In (item1 c) parts ->
  respects (keeps_velocity_frame s0 parts) (resolve_object_to_platform c).
Proof. intros H1. unfold resolve_object_to_platform, snap. velocity s0 parts. Qed.

Lemma stable_border s0 parts c :
  In (item1 c) parts ->
  respects (keeps_velocity_frame s0 parts) (resolve_object_to_border c).
Proof. intros H1. unfold resolve_object_to_border. velocity s0 parts. Qed.

Lemma stable_player_to_box s0 parts c :
  respects (keeps_velocity_frame s0 parts) (resolve_player_to_box c).
Proof. unfold resolve_player_to_box, snap. velocity s0 parts. Qed.

Lemma stable_box_to_box s0 parts c :
  In (item1 c) parts -> (forall r, item2 c = Ent r -> In r parts) ->
  respects (keeps_velocity_frame s0 parts) (resolve_box_to_box c).
Proof.
  intros H1 H2. unfold resolve_box_to_box, snap. cbv zeta. velocity s0 parts.
Qed.

Lemma stable_resolve_collision s0 parts c :
  In (item1 c) parts ->
  (collision_type c = box_to_box -> forall r, item2 c = Ent r -> In r parts) ->
  respects (keeps_velocity_frame s0 parts) (resolve_collision c).
Proof.
  intros H1 H2. unfold resolve_collision.
  repeat first
    [ apply stable_platform; assumption
    | apply stable_border; assumption
    | apply stable_player_to_box
    | apply stable_box_to_box; [assumption | apply H2; apply Z.eqb_eq; assumption]
    | apply stable_same_mem; apply preserves_mem_set_self
    | apply (respects_readonly _ (stable_refl s0 parts)); unfold readonly; solve [frame]
    | apply (respects_ret _ (stable_refl s0 parts))
    | apply stable_when_cond; intros ?
    | apply (respects_bind _ (stable_trans s0 parts)); [ | intros ? ] ].
Qed.

Lemma stable_resolve_collisions s0 parts cs :
  Forall (fun c => In (item1 c) parts /\
                   (collision_type c = player_to_box \/ collision_type c = box_to_box ->
                    exists r, item2 c = Ent r /\ In r parts)) cs ->
  respects (keeps_velocity_frame s0 parts) (resolve_collisions cs).
Proof.
  intros F. unfold resolve_collisions.
  apply (respects_for_each _ (stable_refl s0 parts) (stable_trans s0 parts)).
  intros c Hc. rewrite List.Forall_forall in F. destruct (F c Hc) as [H1 H2].
  apply stable_resolve_collision; [exact H1|].
  intros E r Er. destruct (H2 (or_intror E)) as (r' & Er' & Hr').
  rewrite Er in Er'. injection Er' as <-. exact Hr'.
Qed.

Lemma stable_gravity_and_move s0 parts fps :
  respects (keeps_velocity_frame s0 parts)
    (apply_gravity fps parts ;; move_objects fps parts).
Proof.
  unfold apply_gravity, move_objects.
  apply (respects_bind _ (stable_trans s0 parts)); [|intros _];
    apply (respects_for_each _ (stable_refl s0 parts) (stable_trans s0 parts));
    intros x Hx; velocity s0 parts.
Qed.

(** What a frame gives to an object whose record was not changed. *)
Lemma velocity_frame_reading s0 parts s' r o :
  velocity_frame s0 parts s' ->
  objs (mem s0) !! r = Some o ->
  objs (mem s') !! r = Some o ->
  (speed_ref o < length (speeds (mem s0)))%nat ->
  ~ reads_list (mem s0) parts (speed_ref o) ->
  entity_speed (mem s') r = entity_speed (mem s0) r.
Proof.
  intros (_ & K & _) Ho Ho' Hl Nr. unfold entity_speed. rewrite Ho, Ho'.
  apply K; assumption.
Qed.

Lemma in_place_writers_first c : In (item1 c) (in_place_writers c).
Proof. left. reflexivity. Qed.

Lemma in_place_writers_second c r :
  collision_type c = box_to_box -> item2 c = Ent r -> In r (in_place_writers c).
Proof.
  intros E E2. unfold in_place_writers. rewrite E, E2. right. left. reflexivity.
Qed.

(** X11.  Resolving an event, whether it returns or raises, changes the
    record (rectangle, upscale, velocity binding) of no object but its
    participants: every object other than the two participants has the
    record it had, and unless the event is player-to-box or box-to-box, so
    has the second participant (the platform of an object-to-platform
    event, the target of a box-to-target event).  Velocities are read
    through list objects, which objects share: of the lists that existed,
    the resolution changes only a list that the first participant read
    (or, for a box-to-box event, the second).  So an object whose record
    is kept, and whose velocity list neither is, reads the velocity it
    read; an object that shares its list with a participant, as every
    object does through [Object.speed] by default, is not covered, and
    [shared_velocity_is_changed_for_every_reader] shows that it does see
    the change. *)
Theorem resolution_changes_only_participants c s :
  let s' := fst (resolve_collision c s) in
  (forall r, r <> item1 c -> item2 c <> Ent r ->
             objs (mem s') !! r = objs (mem s) !! r) /\
  (collision_type c <> player_to_box -> collision_type c <> box_to_box ->
   forall r, r <> item1 c -> objs (mem s') !! r = objs (mem s) !! r) /\
  (forall l, (l < length (speeds (mem s)))%nat ->
             ~ reads_list (mem s) (in_place_writers c) l ->
             speeds (mem s') !! l = speeds (mem s) !! l) /\
  (forall r o,
     r <> item1 c ->
     item2 c <> Ent r \/
       (collision_type c <> player_to_box /\ collision_type c <> box_to_box) ->
     objs (mem s) !! r = Some o ->
     (speed_ref o < length (speeds (mem s)))%nat ->
     ~ reads_list (mem s) (in_place_writers c) (speed_ref o) ->
     entity_speed (mem s') r = entity_speed (mem s) r).
Proof.
  cbv zeta.
  assert (A : forall r, r <> item1 c -> item2 c <> Ent r ->
                objs (mem (fst (resolve_collision c s))) !! r = objs (mem s) !! r)
    by exact (untouched_resolve_collision c s).
  assert (B : collision_type c <> player_to_box -> collision_type c <> box_to_box ->
              forall r, r <> item1 c ->
                objs (mem (fst (resolve_collision c s))) !! r = objs (mem s) !! r).
  { intros N1 N2 r Nr.
    apply (untouched_resolve_collision_one_sided c N1 N2 s r Nr). discriminate. }
  assert (V : velocity_frame s (in_place_writers c) (fst (resolve_collision c s))).
  { apply (stable_resolve_collision s (in_place_writers c) c).
    - apply in_place_writers_first.
    - intros E r Er. apply in_place_writers_second; assumption.
    - apply velocity_frame_start. }
  split; [exact A|]. split; [exact B|]. split.
  - intros l Hl Nl. destruct V as (_ & K & _). apply K; assumption.
  - intros r o Nr Hr Ho Hl Nl.
    apply (velocity_frame_reading s (in_place_writers c) _ r o V Ho); [|assumption..].
    rewrite <- Ho. destruct Hr as [N2 | [Np Nb]]; [apply A | apply B]; assumption.
Qed.

(** On [side_contact], where the player hits the platform with its left
    side and [item1.speed[0] = 0] writes into [Object.speed]: the box,
    which has a velocity list of its own, keeps its record and reads the
    velocity it read. *)
Lemma resolution_changes_only_participants_witness :
  let c := mkCollision 1 (Ent 0) object_to_platform in
  let s' := fst (resolve_collision c side_contact) in
  objs (mem s') !! 2%nat = objs (mem side_contact) !! 2%nat /\
  speeds (mem s') !! 1%nat = speeds (mem side_contact) !! 1%nat /\
  entity_speed (mem s') 2 = entity_speed (mem side_contact) 2.
Proof.
  intros c s'.
  destruct (resolution_changes_only_participants c side_contact) as (A & _ & C & D).
  assert (N : forall l, l <> 0%nat ->
                ~ reads_list (mem side_contact) (in_place_writers c) l).
  { intros l Nl (r & o & [<- | []] & Ho & E). cbn in Ho. injection Ho as <-.
    apply Nl. symmetry. exact E. }
  split; [apply A; discriminate|]. split.
  - apply C; [cbn; lia | apply N; discriminate].
  - apply (D 2%nat (mkObject 600 400 100 100 100 (Some 1%nat)));
      [ discriminate | left; discriminate | reflexivity | cbn; lia
      | apply N; discriminate ].
Defined.

(** The same resolution, for the readers of the list it writes to: the
    target, which takes no part in the event, and the platform read
    (50, 20) through [Object.speed] and read (0, 20) afterwards, while
    their records are as they were. *)
Example shared_velocity_is_changed_for_every_reader :
  let c := mkCollision 1 (Ent 0) object_to_platform in
  let s' := fst (resolve_collision c side_contact) in
  snd (resolve_collision c side_contact) = Ok tt /\
  Rect.left <$> objs (mem s') !! 1%nat = Some 100 /\
  objs (mem s') !! 3%nat = objs (mem side_contact) !! 3%nat /\
  objs (mem s') !! 0%nat = objs (mem side_contact) !! 0%nat /\
  entity_speed (mem side_contact) 3 = Some (50 # 1, 20 # 1) /\
  entity_speed (mem s') 3 = Some (0%Q, 20 # 1) /\
  entity_speed (mem side_contact) 0 = Some (50 # 1, 20 # 1) /\
  entity_speed (mem s') 0 = Some (0%Q, 20 # 1) /\
  entity_speed (mem s') 2 = Some (7 # 1, 0%Q).
Proof. cbv zeta. repeat split; vm_compute; reflexivity. Qed.

Section StaticVelocities.
Variable colliderect : Object -> Object -> bool.
Variable s0 : state.

Lemma settle_once_velocity s targets players boxes platforms :
  populated s targets players boxes platforms ->
  (forall t, thinkingbox (self s) = Some t -> is_Some (objs (mem s) !! t)) ->
  keeps_velocity_frame s0 (players ++ boxes) s (fst (settle_once colliderect s)).
Proof.
  intros Pop Hz. unfold settle_once.
  rewrite (bind_ok _ _ _ _ _ (set_self_ok _ s)). set (s1 := mkState _ _).
  assert (Pop1 : populated s1 targets players boxes platforms) by exact Pop.
  destruct Pop1 as (Ht & Hp & Hb & Hpl & At & Ap & Ab & Apl).
  assert (Quiet : zone_quiet s1 players \/
                  exists e, check_collisions colliderect s1 = (s1, Raise e)).
  { destruct players as [|p ps]; [left; left; reflexivity|].
    destruct (thinkingbox (self s1)) as [t|] eqn:Et; [|left; right; left; exact Et].
    destruct (Hz t Et) as [tb Htb].
    destruct (Rect.truthy tb) eqn:Etb.
    - right. eapply trigger_zone_detection_never_returns; eauto.
    - left. right. right. eauto. }
  apply (stable_trans _ _ s s1); [intros H; exact H|].
  destruct Quiet as [Q | [e Hraise]].
  - rewrite (bind_ok _ _ _ _ _
               (check_collisions_run colliderect s1 targets players boxes platforms
                  Ht Hp Hb Hpl At Ap Ab Apl Q)).
    apply stable_resolve_collisions. apply List.Forall_forall.
    intros c Hc. eapply detected_participants, Hc.
  - rewrite (bind_raise _ _ _ _ _ Hraise). apply stable_refl.
Qed.

Lemma settle_loop_velocity targets players boxes platforms {A} (xs : list A) : forall s,
  populated s targets players boxes platforms ->
  (forall t, thinkingbox (self s) = Some t -> is_Some (objs (mem s) !! t)) ->
  keeps_velocity_frame s0 (players ++ boxes) s
    (fst (for_each xs (fun _ => settle_once colliderect) s)).
Proof.
  induction xs as [|x xs IH]; intros s Pop Hz.
  - apply stable_refl.
  - cbn [for_each]. unfold bind.
    pose proof (settle_once_velocity s _ _ _ _ Pop Hz) as S1.
    pose proof (keeps_settle_once colliderect s) as K1.
    destruct (settle_once colliderect s) as [s1 [[]|e]]; cbn [fst] in *; [|auto].
    eapply stable_trans; [exact S1|].
    apply IH; [ exact (populated_keeps _ _ _ _ _ _ K1 Pop)
              | exact (zone_object_keeps _ _ K1 Hz) ].
Qed.

Lemma step_velocity fps s targets players boxes platforms :
  populated s targets players boxes platforms ->
  (forall t, thinkingbox (self s) = Some t -> is_Some (objs (mem s) !! t)) ->
  keeps_velocity_frame s0 (players ++ boxes) s (fst (step colliderect fps s)).
Proof.
  intros Pop Hz.
  unfold step. rewrite (bind_ok _ _ _ _ _ (set_self_ok _ s)). set (s1 := mkState _ _).
  assert (Pop1 : populated s1 targets players boxes platforms) by exact Pop.
  assert (Hz1 : forall t, thinkingbox (self s1) = Some t -> is_Some (objs (mem s1) !! t))
    by exact Hz.
  apply (stable_trans _ _ s s1); [intros H; exact H|].
  unfold settle. rewrite bind_assoc.
  destruct Pop1 as (Ht & Hp & Hb & Hpl & At & Ap & Ab & Apl).
  rewrite (bind_ok _ _ _ _ _ (self_boxes_ok _ _ Hb)).
  pose proof (settle_loop_velocity targets players boxes platforms
                (seq 0 (length boxes)) s1 Pop Hz1) as S1.
  destruct (settle_loop_static colliderect targets players boxes platforms
              (seq 0 (length boxes)) s1 Pop Hz1) as [_ K1].
  unfold bind at 1.
  destruct (for_each (seq 0 (length boxes)) (fun _ => settle_once colliderect) s1)
    as [s2 [[]|e]]; cbn [fst] in *; [|exact S1].
  destruct (populated_keeps _ _ _ _ _ _ K1 Pop) as (_ & Hp2 & Hb2 & _).
  rewrite (bind_ok _ _ _ _ _ (self_players_ok _ _ Hp2)).
  rewrite (bind_ok _ _ _ _ _ (self_boxes_ok _ _ Hb2)).
  eapply stable_trans; [exact S1|].
  apply stable_gravity_and_move.
Qed.

End StaticVelocities.

(** X12.  Only players and boxes are changed by a tick.  In a world whose
    lists and trigger zone hold objects of the store, an object that is
    neither in [self.players] nor in [self.boxes] (a platform, a target,
    the trigger zone) has after [step] the record it had: rectangle,
    upscale and velocity binding, for every framerate and whether [step]
    returns or raises.  The velocity it reads is the one it read,
    provided that no player and no box read the same list before the
    tick; an object that shares its list with one of them, as through
    [Object.speed], is not covered, and
    [shared_velocity_of_a_platform_follows_gravity] shows that it reads
    what gravity made of the list. *)
Theorem step_moves_only_players_and_boxes
    colliderect fps s targets players boxes platforms :
  populated s targets players boxes platforms ->
  (forall t, thinkingbox (self s) = Some t -> is_Some (objs (mem s) !! t)) ->
  let s' := fst (step colliderect fps s) in
  forall r, ~ In r (players ++ boxes) ->
    objs (mem s') !! r = objs (mem s) !! r /\
    (forall o, objs (mem s) !! r = Some o ->
       (speed_ref o < length (speeds (mem s)))%nat ->
       ~ reads_list (mem s) (players ++ boxes) (speed_ref o) ->
       entity_speed (mem s') r = entity_speed (mem s) r).
Proof.
  intros Pop Hz s' r Nr.
  assert (A : objs (mem s') !! r = objs (mem s) !! r)
    by exact (step_keeps_static_records colliderect fps s _ _ _ _ Pop Hz r Nr).
  split; [exact A|]. intros o Ho Hl Nl.
  apply (velocity_frame_reading s (players ++ boxes) s' r o); try assumption.
  - apply (step_velocity colliderect s fps s targets players boxes platforms Pop Hz).
    apply velocity_frame_start.
  - rewrite A. exact Ho.
Qed.

(** On [after_landing] at 60 frames per second: the platform keeps its
    record, and since the player reads a list of its own, the platform
    reads the velocity it read. *)
Lemma step_moves_only_players_and_boxes_witness :
  let s' := fst (step pygame_colliderect 60 after_landing) in
  populated after_landing [] [1%nat] [] [0%nat] /\
  objs (mem s') !! 0%nat = objs (mem after_landing) !! 0%nat /\
  entity_speed (mem s') 0 = entity_speed (mem after_landing) 0.
Proof.
  intros s'.
  assert (Pop : populated after_landing [] [1%nat] [] [0%nat]).
  { repeat split; try reflexivity; try constructor;
      try (eexists; reflexivity); constructor. }
  split; [exact Pop|].
  assert (Hz : forall t, thinkingbox (self after_landing) = Some t ->
                         is_Some (objs (mem after_landing) !! t))
    by (intros t H; discriminate).
  assert (Nr : ~ In 0%nat ([1%nat] ++ [])) by (cbn; intros [H | []]; discriminate).
  destruct (step_moves_only_players_and_boxes pygame_colliderect 60 after_landing
              [] [1%nat] [] [0%nat] Pop Hz 0%nat Nr) as [A B].
  split; [exact A|].
  apply (B (mkObject 0 900 2000 100 100 None)); [reflexivity | vm_compute; lia |].
  intros (r & o & [<- | []] & Ho & E). cbn in Ho. injection Ho as <-. discriminate E.
Defined.

(** On [free_fall], where the platform and the player both read
    [Object.speed]: after one tick the platform, whose record is as it
    was, reads the velocity that gravity gave to the player. *)
Example shared_velocity_of_a_platform_follows_gravity :
  let s' := fst (step pygame_colliderect 60 free_fall) in
  objs (mem s') !! 0%nat = objs (mem free_fall) !! 0%nat /\
  entity_speed (mem free_fall) 0 = Some (0%Q, 0%Q) /\
  entity_speed (mem s') 0 = Some (0%Q, 9800 # 60).
Proof. cbv zeta. repeat split; vm_compute; reflexivity. Qed.

(** ** [move_player] *)

Section MovementProperties.
Variable math_sqrt : Q -> outcome Q.




End MovementProperties.


Section JumpProperties.
Variable math_sqrt : Q -> outcome Q.



End JumpProperties.


(** ** The rules of resolution, category by category *)

Lemma rect_eqb_refl o : Rect.eqb o o = true.
Proof. unfold Rect.eqb. rewrite !Z.eqb_refl. reflexivity. Qed.

Lemma all_objects_insert hp' hp refs :
  (forall r, is_Some (objs hp !! r) -> is_Some (objs hp' !! r)) ->
  all_objects hp refs -> all_objects hp' refs.
Proof. intros H A. eapply Forall_impl; [exact A | exact H]. Qed.

Lemma in_players_ok s item o ps :
  objs (mem s) !! item = Some o ->
  lists (mem s) !! players_ref (self s) = Some ps ->
  all_objects (mem s) ps ->
  exists b, in_players item s = (s, Ok b) /\ (In item ps -> b = true).
Proof.
  intros Ho Hl A. destruct (load_objs_ok s ps A) as (os & E & F).
  exists (existsb (Rect.eqb o) os). split.
  - unfold in_players. rewrite (bind_ok _ _ _ _ _ (load_obj_ok _ _ _ Ho)).
    rewrite (bind_ok _ _ _ _ _ (self_players_ok _ _ Hl)).
    rewrite (bind_ok _ _ _ _ _ E). reflexivity.
  - intros Hin. apply existsb_exists. exists o. split; [|apply rect_eqb_refl].
    apply list_elem_of_In, list_elem_of_lookup in Hin. destruct Hin as [i Hi].
    destruct (Forall2_lookup_l _ _ _ _ _ F Hi) as (o' & Ho' & Hlook).
    rewrite Ho in Hlook. inversion Hlook; subst.
    apply list_elem_of_In, list_elem_of_lookup. eauto.
Qed.

Lemma assign_speed_ok s r o v :
  objs (mem s) !! r = Some o ->
  assign_speed r v s =
    (mkState (self s)
       (mkHeap (<[r := set_inst_speed (length (speeds (mem s))) o]> (objs (mem s)))
               (speeds (mem s) ++ [v]) (lists (mem s))), Ok tt).
Proof.
  intros Ho. unfold assign_speed, bind, alloc_speed, update_obj. heap_simpl.
  rewrite Ho. reflexivity.
Qed.

(** Symbolic execution, with assignments of a new velocity list. *)
Ltac run_all :=
  repeat first
    [ rewrite bind_assoc | rewrite ret_bind
    | erewrite bind_ok by first [ run_side | eapply assign_speed_ok; lookup_side ]
    | progress heap_simpl ].

(** X16.  An entity against a platform.  The platform is never changed.
    On a side contact the entity is put flush against the platform's side
    and the horizontal component of the list its [speed] resolves to is set
    to 0 in place.  Under the platform (top) it is put below it and gets a
    new velocity list with the vertical component negated; on the platform
    (bottom) it is put on top and gets a new velocity list [0, 0], and the
    grounded flag is set when the entity is one of the players.  A new
    list leaves the velocity of every other entity as it was. *)
Theorem platform_contact_rules s a p oa op v sd ps :
  a <> p ->
  objs (mem s) !! a = Some oa ->
  objs (mem s) !! p = Some op ->
  speeds (mem s) !! speed_ref oa = Some v ->
  lists (mem s) !! players_ref (self s) = Some ps ->
  all_objects (mem s) ps ->
  whatside_of default_tolerance oa op = Some sd ->
  exists s' oa',
    resolve_collision (mkCollision a (Ent p) object_to_platform) s = (s', Ok tt) /\
    objs (mem s') = <[a := oa']> (objs (mem s)) /\
    lists (mem s') = lists (mem s) /\
    match sd with
    | Left =>
        oa' = Rect.set_left (Rect.right op) oa /\
        speeds (mem s') = <[speed_ref oa := (0%Q, snd v)]> (speeds (mem s)) /\
        self s' = self s
    | Right =>
        oa' = Rect.set_right (Rect.left op) oa /\
        speeds (mem s') = <[speed_ref oa := (0%Q, snd v)]> (speeds (mem s)) /\
        self s' = self s
    | Top =>
        oa' = Rect.set_top (Rect.bottom op) (set_inst_speed (length (speeds (mem s))) oa) /\
        speeds (mem s') = speeds (mem s) ++ [(fst v, (snd v * inject_Z (-1))%Q)] /\
        self s' = self s
    | Bottom =>
        oa' = Rect.set_bottom (Rect.top op) (set_inst_speed (length (speeds (mem s))) oa) /\
        speeds (mem s') = speeds (mem s) ++ [(0%Q, 0%Q)] /\
        (In a ps -> self s' = with_player_on_ground true (self s)) /\
        (self s' = self s \/ self s' = with_player_on_ground true (self s))
    end.
Proof.
  intros Hne Ha Hp Hv Hl A Hside.
  rewrite resolve_collision_object_to_platform by reflexivity.
  rewrite <- bind_ret_tt. unfold resolve_object_to_platform. heap_simpl.
  run. rewrite Hside.
  destruct sd; cbn [side_is side_eqb when]; run.
  - (* top *)
    run_all.
    eexists _, _. split; [reflexivity|]. heap_simpl.
    rewrite list_insert_insert_eq. auto.
  - (* bottom *)
    run_all.
    match goal with |- context [ bind (in_players a) _ ?st ] => set (s2 := st) end.
    destruct (in_players_ok s2 a
                (Rect.set_bottom (Rect.top op)
                   (set_inst_speed (length (speeds (mem s))) oa)) ps)
      as (b & Eb & Hb).
    { unfold s2. heap_simpl. eauto with run. }
    { exact Hl. }
    { eapply all_objects_insert; [|exact A]. intros r Hr. unfold s2. heap_simpl.
      rewrite !list_lookup_insert_is_Some. exact Hr. }
    rewrite (bind_ok _ _ _ _ _ Eb).
    destruct b; cbn [when]; run.
    + eexists _, _. split; [reflexivity|]. unfold s2. heap_simpl.
      rewrite list_insert_insert_eq. auto 10.
    + eexists _, _. split; [reflexivity|]. unfold s2. heap_simpl.
      rewrite list_insert_insert_eq. repeat split; auto.
      intros Hin. specialize (Hb Hin). discriminate.
  - (* right *)
    eexists _, _. split; [reflexivity|]. heap_simpl. auto.
  - (* left *)
    eexists _, _. split; [reflexivity|]. heap_simpl. auto.
Qed.

Lemma platform_contact_rules_witness :
  exists s' oa',
    resolve_collision (mkCollision 1 (Ent 0) object_to_platform) landing = (s', Ok tt) /\
    objs (mem s') = <[1%nat := oa']> (objs (mem landing)) /\
    lists (mem s') = lists (mem landing) /\
    oa' = Rect.set_bottom 900 (set_inst_speed 1 (mkObject 500 703 100 200 100 None)) /\
    speeds (mem s') = speeds (mem landing) ++ [(0%Q, 0%Q)] /\
    (In 1%nat [1%nat] -> self s' = with_player_on_ground true (self landing)) /\
    (self s' = self landing \/ self s' = with_player_on_ground true (self landing)).
Proof.
  apply (platform_contact_rules landing 1 0 (mkObject 500 703 100 200 100 None)
           (mkObject 0 900 2000 100 100 None) (0%Q, 9800 # 60) Bottom [1%nat]);
    [ discriminate | reflexivity | reflexivity | reflexivity | reflexivity
    | constructor; [eexists; reflexivity | constructor]
    | reflexivity ].
Defined.

(** X17.  A player against a box.  On a side contact only the box
    changes: it is put flush against the player's side and gets a new
    velocity list with horizontal component 0 and the vertical component
    it had.  With the box on the player's head (top) the box is put on the
    player and gets a new list [0, 0].  With the player on the box (bottom)
    it is the player that is put on the box and gets a new list [0, 0], and
    the grounded flag is set.  Every velocity list that existed is left as
    it was. *)
Theorem player_to_box_rules s pl b opl ob vb sd :
  pl <> b ->
  objs (mem s) !! pl = Some opl ->
  objs (mem s) !! b = Some ob ->
  speeds (mem s) !! speed_ref ob = Some vb ->
  whatside_of default_tolerance opl ob = Some sd ->
  let fresh := length (speeds (mem s)) in
  exists s',
    resolve_collision (mkCollision pl (Ent b) player_to_box) s = (s', Ok tt) /\
    lists (mem s') = lists (mem s) /\
    match sd with
    | Top =>
        objs (mem s') =
          <[b := Rect.set_bottom (Rect.top opl) (set_inst_speed fresh ob)]> (objs (mem s)) /\
        speeds (mem s') = speeds (mem s) ++ [(0%Q, 0%Q)] /\
        self s' = self s
    | Bottom =>
        objs (mem s') =
          <[pl := Rect.set_bottom (Rect.top ob) (set_inst_speed fresh opl)]> (objs (mem s)) /\
        speeds (mem s') = speeds (mem s) ++ [(0%Q, 0%Q)] /\
        self s' = with_player_on_ground true (self s)
    | Left =>
        objs (mem s') =
          <[b := Rect.set_right (Rect.left opl) (set_inst_speed fresh ob)]> (objs (mem s)) /\
        speeds (mem s') = speeds (mem s) ++ [(0%Q, snd vb)] /\
        self s' = self s
    | Right =>
        objs (mem s') =
          <[b := Rect.set_left (Rect.right opl) (set_inst_speed fresh ob)]> (objs (mem s)) /\
        speeds (mem s') = speeds (mem s) ++ [(0%Q, snd vb)] /\
        self s' = self s
    end.
Proof.
  intros Hne Hpl Hb Hv Hside fresh.
  rewrite resolve_collision_player_to_box by reflexivity.
  rewrite <- bind_ret_tt. unfold resolve_player_to_box. heap_simpl.
  run. rewrite Hside.
  destruct sd; cbn [side_is side_eqb when]; run_all;
    (eexists; split; [reflexivity|]); heap_simpl;
    rewrite list_insert_insert_eq; auto.
Qed.

Lemma player_to_box_rules_witness :
  exists s',
    resolve_collision (mkCollision 0 (Ent 1) player_to_box) pushed_boxes = (s', Ok tt) /\
    lists (mem s') = lists (mem pushed_boxes) /\
    objs (mem s') =
      <[1%nat := Rect.set_left 100 (set_inst_speed 1 (mkObject 100 800 100 100 100 None))]>
        (objs (mem pushed_boxes)) /\
    speeds (mem s') = speeds (mem pushed_boxes) ++ [(0%Q, 0%Q)] /\
    self s' = self pushed_boxes.
Proof.
  apply (player_to_box_rules pushed_boxes 0 1 (mkObject 0 800 100 200 100 None)
           (mkObject 100 800 100 100 100 None) (0%Q, 0%Q) Right);
    [ discriminate | reflexivity | reflexivity | reflexivity | reflexivity ].
Defined.

(** X18.  A box on a box.  With a first player present, a vertical contact
    of two boxes moves the upper one only, whichever is nearer to the
    player: on a bottom contact the first box is put on the second, on a
    top contact the second is put on the first; the box that is moved gets
    a new velocity list [0, 0] and the other box is left as it was. *)
Theorem box_stacking_rules s b1 b2 p0 ps o1 o2 op sd :
  b1 <> b2 ->
  lists (mem s) !! players_ref (self s) = Some (p0 :: ps) ->
  objs (mem s) !! p0 = Some op ->
  objs (mem s) !! b1 = Some o1 ->
  objs (mem s) !! b2 = Some o2 ->
  whatside_of default_tolerance o1 o2 = Some sd ->
  sd = Top \/ sd = Bottom ->
  let fresh := length (speeds (mem s)) in
  resolve_collision (mkCollision b1 (Ent b2) box_to_box) s =
    (mkState (self s)
       (mkHeap
          (if side_eqb sd Bottom
           then <[b1 := Rect.set_bottom (Rect.top o2) (set_inst_speed fresh o1)]> (objs (mem s))
           else <[b2 := Rect.set_bottom (Rect.top o1) (set_inst_speed fresh o2)]> (objs (mem s)))
          (speeds (mem s) ++ [(0%Q, 0%Q)])
          (lists (mem s))),
     Ok tt).
Proof.
  intros Hne Hl Hp H1 H2 Hside Hsd fresh.
  rewrite resolve_collision_box_to_box by reflexivity.
  rewrite <- bind_ret_tt. unfold resolve_box_to_box. heap_simpl.
  run. rewrite Hside.
  destruct Hsd; subst sd; cbn [side_is side_eqb when]; run_all;
    rewrite list_insert_insert_eq; reflexivity.
Qed.

Lemma box_stacking_rules_witness :
  resolve_collision (mkCollision 1 (Ent 2) box_to_box) stacked_boxes =
    (mkState (self stacked_boxes)
       (mkHeap
          (<[1%nat := Rect.set_bottom 790 (set_inst_speed 1 (mkObject 300 700 100 100 100 None))]>
             (objs (mem stacked_boxes)))
          (speeds (mem stacked_boxes) ++ [(0%Q, 0%Q)])
          (lists (mem stacked_boxes))),
     Ok tt).
Proof.
  apply (box_stacking_rules stacked_boxes 1 2 0 [] (mkObject 300 700 100 100 100 None)
           (mkObject 300 790 100 100 100 None) (mkObject 0 800 100 200 100 None) Bottom);
    first [ discriminate | reflexivity | (right; reflexivity) ].
Defined.

(** X19.  Box-to-box resolution reads [self.players[0]] before anything
    else: in a world whose list of players is empty, resolving any
    box-to-box event raises [IndexError] and changes nothing, whatever the
    two boxes and their contact are. *)
Theorem box_to_box_needs_a_player s b1 p :
  lists (mem s) !! players_ref (self s) = Some [] ->
  resolve_collision (mkCollision b1 p box_to_box) s = (s, Raise IndexError).
Proof.
  intros Hl. rewrite resolve_collision_box_to_box by reflexivity.
  unfold resolve_box_to_box, dist_to_first_player. rewrite !bind_assoc.
  rewrite (bind_ok _ _ _ _ _ (self_players_ok _ _ Hl)). reflexivity.
Qed.

Lemma box_to_box_needs_a_player_witness :
  resolve_collision (mkCollision 0 (Ent 2) box_to_box) box_on_two_targets
    = (box_on_two_targets, Raise IndexError).
Proof.
  apply (box_to_box_needs_a_player box_on_two_targets 0 (Ent 2)). reflexivity.
Defined.

(** ** Resolution and detection together *)

(** X20.  Border resolution settles in one step: once the border event of
    an entity that is no wider and no taller than the world has been
    resolved, the border test of the detection pass finds nothing to
    report for that entity. *)
Theorem border_resolution_leaves_no_border_event s r o :
  objs (mem s) !! r = Some o ->
  is_Some (speeds (mem s) !! speed_ref o) ->
  rect_w o <= space_w (self s) ->
  rect_h o <= space_h (self s) ->
  exists s',
    resolve_collision (mkCollision r Wall object_to_border) s = (s', Ok tt) /\
    check_borders r s' = (s', Ok []).
Proof.
  intros Ho [v Hv] Hw Hh.
  rewrite resolve_collision_object_to_border by reflexivity.
  rewrite <- bind_ret_tt. unfold resolve_object_to_border. heap_simpl.
  repeat (run;
          match goal with
          | |- context [ when ?c _ ] => destruct c eqn:?; cbn [when]
          end);
  run;
  (eexists; split; [reflexivity|]);
  (erewrite check_borders_run by (heap_simpl; eauto 10 with run));
  unfold border_events, outside; heap_simpl;
  match goal with
  | |- context [ ?l !! r ] =>
      let E := fresh in
      assert (E : exists o', l !! r = Some o' /\
                   rect_w o' = rect_w o /\ rect_h o' = rect_h o /\
                   within_border (self s) o');
      [ eexists; split; [solve [eauto 10 with run]|];
        unfold within_border, Rect.left, Rect.right, Rect.top, Rect.bottom,
          Rect.set_left, Rect.set_right, Rect.set_top, Rect.set_bottom,
          Rect.move_to in *;
        cbn [rect_x rect_y rect_w rect_h] in *; lia
      | destruct E as (o' & -> & _ & _ & B) ]
  end;
  unfold within_border in B;
  destruct (Rect.left o' <? 0) eqn:?;
  destruct (Rect.right o' >? space_w (self s)) eqn:?;
  destruct (Rect.top o' <? 0) eqn:?;
  destruct (Rect.bottom o' >? space_h (self s)) eqn:?;
  cbn [orb]; try reflexivity; exfalso; lia.
Qed.

Lemma border_resolution_leaves_no_border_event_witness :
  exists s',
    resolve_collision (mkCollision 0 Wall object_to_border) player_outside = (s', Ok tt) /\
    check_borders 0 s' = (s', Ok []).
Proof.
  apply (border_resolution_leaves_no_border_event player_outside 0
           (mkObject (-500) 500 100 200 100 None));
    first [ reflexivity | (eexists; reflexivity) | (cbn; lia) ].
Defined.

(** ** A world at rest, and contacts that are over *)

Lemma settle_once_without_contacts colliderect s targets players boxes platforms :
  populated s targets players boxes platforms ->
  zone_quiet s players ->
  detected colliderect (self s) (mem s) targets players boxes platforms = [] ->
  settle_once colliderect s = (mkState (with_targets_engaged 0 (self s)) (mem s), Ok tt).
Proof.
  intros Pop Q D. unfold settle_once.
  rewrite (bind_ok _ _ _ _ _ (set_self_ok _ s)). set (s0 := mkState _ _).
  assert (Pop0 : populated s0 targets players boxes platforms) by exact Pop.
  assert (Q0 : zone_quiet s0 players) by exact Q.
  destruct Pop0 as (Ht & Hp & Hb & Hpl & At & Ap & Ab & Apl).
  rewrite (bind_ok _ _ _ _ _
             (check_collisions_run colliderect s0 targets players boxes platforms
                Ht Hp Hb Hpl At Ap Ab Apl Q0)).
  change (detected colliderect (self s0) (mem s0) targets players boxes platforms)
    with (detected colliderect (self s) (mem s) targets players boxes platforms).
  rewrite D. reflexivity.
Qed.

(** X21.  A world without contacts is left alone by the settle phase: when
    the lists hold objects, the detection pass does not reach the trigger
    zone call and nothing collides and nothing is outside the border, the
    settle phase returns and changes nothing, except that it sets the
    engaged-target counter to 0 when there is at least one box. *)
Theorem settle_without_contacts colliderect s targets players boxes platforms :
  populated s targets players boxes platforms ->
  zone_quiet s players ->
  detected colliderect (self s) (mem s) targets players boxes platforms = [] ->
  settle colliderect s =
    (match boxes with
     | [] => s
     | _ :: _ => mkState (with_targets_engaged 0 (self s)) (mem s)
     end, Ok tt).
Proof.
  intros Pop Q D. unfold settle.
  pose proof Pop as (_ & _ & Hb & _).
  rewrite (bind_ok _ _ _ _ _ (self_boxes_ok _ _ Hb)).
  destruct boxes as [|b bs]; [reflexivity|].
  set (s0 := mkState (with_targets_engaged 0 (self s)) (mem s)).
  assert (Loop : forall (xs : list nat), for_each xs (fun _ => settle_once colliderect) s0
                                         = (s0, Ok tt)).
  { induction xs as [|x xs IH]; [reflexivity|]. cbn [for_each].
    rewrite (bind_ok _ _ _ _ _
               (settle_once_without_contacts colliderect s0 targets players (b :: bs)
                  platforms Pop Q D)).
    exact IH. }
  cbn [length seq for_each].
  rewrite (bind_ok _ _ _ _ _
             (settle_once_without_contacts colliderect s targets players (b :: bs)
                platforms Pop Q D)).
  apply Loop.
Qed.

Lemma settle_without_contacts_witness :
  settle pygame_colliderect stacked_boxes_apart =
    (mkState (with_targets_engaged 0 (self stacked_boxes_apart)) (mem stacked_boxes_apart),
     Ok tt).
Proof.
  apply (settle_without_contacts pygame_colliderect stacked_boxes_apart
           [] [0%nat] [1%nat; 2%nat] []).
  - repeat split; try reflexivity; try constructor;
      try (eexists; reflexivity); try constructor; try (eexists; reflexivity); constructor.
  - right; left; reflexivity.
  - reflexivity.
Defined.

Lemma flush_rectangles_do_not_collide (a b : Object) :
  0 <= rect_w a -> 0 <= rect_h a -> 0 <= rect_w b -> 0 <= rect_h b ->
  pygame_colliderect (Rect.set_left (Rect.right b) a) b = false /\
  pygame_colliderect (Rect.set_right (Rect.left b) a) b = false /\
  pygame_colliderect (Rect.set_top (Rect.bottom b) a) b = false /\
  pygame_colliderect (Rect.set_bottom (Rect.top b) a) b = false.
Proof.
  intros. unfold pygame_colliderect, Rect.set_left, Rect.set_right, Rect.set_top,
    Rect.set_bottom, Rect.left, Rect.right, Rect.top, Rect.bottom, Rect.move_to.
  cbn [rect_x rect_y rect_w rect_h].
  repeat split; apply Bool.not_true_is_false; intros C;
    repeat (apply andb_prop in C; destruct C as [C ?]); lia.
Qed.

(** X22.  A platform contact is over once it is resolved: whatever side
    [whatside] picked, afterwards the entity and the platform do not
    overlap in the sense of pygame's [colliderect], sizes being
    non-negative, so the next detection pass has no event for the two. *)
Theorem platform_contact_is_over_after_resolution s a p oa op v sd ps :
  a <> p ->
  objs (mem s) !! a = Some oa ->
  objs (mem s) !! p = Some op ->
  speeds (mem s) !! speed_ref oa = Some v ->
  lists (mem s) !! players_ref (self s) = Some ps ->
  all_objects (mem s) ps ->
  whatside_of default_tolerance oa op = Some sd ->
  0 <= rect_w oa -> 0 <= rect_h oa -> 0 <= rect_w op -> 0 <= rect_h op ->
  exists s',
    resolve_collision (mkCollision a (Ent p) object_to_platform) s = (s', Ok tt) /\
    collides pygame_colliderect (mem s') a p = false /\
    list_events pygame_colliderect (mem s') a [p] object_to_platform = [].
Proof.
  intros Hne Ha Hp Hv Hl A Hside Wa Ha' Wp Hp'.
  destruct (flush_rectangles_do_not_collide oa op Wa Ha' Wp Hp') as (F1 & F2 & F3 & F4).
  destruct (flush_rectangles_do_not_collide
              (set_inst_speed (length (speeds (mem s))) oa) op Wa Ha' Wp Hp')
    as (_ & _ & G3 & G4).
  assert (Fin : forall s' oa',
            objs (mem s') = <[a := oa']> (objs (mem s)) ->
            pygame_colliderect oa' op = false ->
            collides pygame_colliderect (mem s') a p = false /\
            list_events pygame_colliderect (mem s') a [p] object_to_platform = []).
  { intros s' oa' E C.
    assert (K : collides pygame_colliderect (mem s') a p = false).
    { unfold collides. rewrite E, (lookup_insert_same _ _ _ _ Ha).
      rewrite list_lookup_insert_ne, Hp by exact Hne. exact C. }
    split; [exact K|]. unfold list_events. cbn [List.filter]. rewrite K. reflexivity. }
  rewrite resolve_collision_object_to_platform by reflexivity.
  rewrite <- bind_ret_tt. unfold resolve_object_to_platform. heap_simpl.
  run. rewrite Hside.
  destruct sd; cbn [side_is side_eqb when]; run_all.
  - eexists. split; [reflexivity|]. eapply Fin; [|exact G3]. heap_simpl.
    apply list_insert_insert_eq.
  - match goal with |- context [ bind (in_players a) _ ?st ] => set (s2 := st) end.
    destruct (in_players_ok s2 a
                (Rect.set_bottom (Rect.top op)
                   (set_inst_speed (length (speeds (mem s))) oa)) ps)
      as (b & Eb & _).
    { unfold s2. heap_simpl. eauto with run. }
    { exact Hl. }
    { eapply all_objects_insert; [|exact A]. intros r Hr. unfold s2. heap_simpl.
      rewrite !list_lookup_insert_is_Some. exact Hr. }
    rewrite (bind_ok _ _ _ _ _ Eb).
    destruct b; cbn [when]; run;
      (eexists; split; [reflexivity|]); (eapply Fin; [|exact G4]); unfold s2; heap_simpl;
      apply list_insert_insert_eq.
  - eexists. split; [reflexivity|]. eapply Fin; [|exact F2]. reflexivity.
  - eexists. split; [reflexivity|]. eapply Fin; [|exact F1]. reflexivity.
Qed.

Lemma platform_contact_is_over_after_resolution_witness :
  exists s',
    resolve_collision (mkCollision 1 (Ent 0) object_to_platform) landing = (s', Ok tt) /\
    collides pygame_colliderect (mem s') 1 0 = false /\
    list_events pygame_colliderect (mem s') 1 [0%nat] object_to_platform = [].
Proof.
  apply (platform_contact_is_over_after_resolution landing 1 0
           (mkObject 500 703 100 200 100 None)
           (mkObject 0 900 2000 100 100 None) (0%Q, 9800 # 60) Bottom [1%nat]);
    first [ discriminate | reflexivity
          | (constructor; [eexists; reflexivity | constructor])
          | (cbn; lia) ].
Defined.
